(** * xbox-controller: session registry, message routing and device bindings

    A shallow embedding of the PC server of the virtual Xbox controller
    (pc-server/controller.py, mouse_keyboard.py, session_manager.py,
    server.py and qr_generator.py) together with the properties its
    specification states.

    Conventions of the embedding.
    - A Python [dict] is a [gmap].  Where the source iterates a dict the model
      walks [map_to_list]; the statements below never depend on that order.
    - A client message is what [json.loads] makes of it: a [Json.value].
      Nothing in the server checks the type of a field, so the model follows
      each method on every value and says where it raises.
    - A WebSocket connection object is an opaque identity ([WebSocket], a
      number); [datetime.now()] is the [now] field of the [World] a step runs
      in.
    - Calls that leave the process (virtual device provider, sockets, host
      pointer and keyboard, the presentation-layer observer) are recorded, in
      order, as [effect]s.  Whether such a call raises is decided by the
      [World].  The setters of a gamepad only write the in-memory report and
      are total.
    - A method that can raise returns, next to the object as the exception
      leaves it and the calls made so far, a [Py.outcome].
    - [logger] calls are not part of the model. *)

From stdpp Require Import gmap strings list.
From Stdlib Require Import QArith.

Local Open Scope string_scope.
Local Open Scope list_scope.
Local Open Scope nat_scope.

(** ** Python values as the server meets them *)

Module Py.

(** A JSON number read by Python: a finite value (an [int] or a double, of
    which the model keeps the exact rational value), or one of the three
    special floats that [json.loads] accepts. *)
Inductive float : Type :=
| Fin (q : Q)
| PosInf
| NegInf
| NaN.

Definition Qltb (a b : Q) : bool := negb (Qle_bool b a).

(** [a < b] on Python numbers: every comparison with NaN is false. *)
Definition lt (a b : float) : bool :=
  match a, b with
  | NaN, _ => false
  | _, NaN => false
  | Fin x, Fin y => Qltb x y
  | NegInf, NegInf => false
  | NegInf, _ => true
  | _, NegInf => false
  | PosInf, _ => false
  | Fin _, PosInf => true
  end.

(** The builtins [min(a, b)] and [max(a, b)]: the first argument is kept
    unless the second is strictly smaller (resp. strictly larger). *)
Definition min (a b : float) : float := if lt b a then b else a.
Definition max (a b : float) : float := if lt a b then b else a.

(** [lo <= x <= hi] for a finite [x]. *)
Definition in_range (lo hi : Q) (x : float) : Prop :=
  match x with
  | Fin q => (lo <= q)%Q /\ (q <= hi)%Q
  | _ => False
  end.

(** The exceptions the server can meet.  [External] stands for whatever a
    collaborator raises (vgamepad, pynput, a socket). *)
Inductive exn : Type :=
| AttributeError
| TypeError
| ValueError
| OverflowError
| IndexError
| External.

(** How a call ends. *)
Inductive outcome : Type :=
| Returns
| Raises (e : exn).

(** [float(n)] for an [int]: the nearest double, ties to even.  Doubles have
    53 significant bits; the result is given as the integer it is. *)
Definition float_of_int (n : Z) : Z :=
  let a := Z.abs n in
  if (a <? 2 ^ 53)%Z then n
  else
    let shift := (Z.log2 a - 52)%Z in
    let q := Z.shiftr a shift in
    let r := (a - Z.shiftl q shift)%Z in
    let half := Z.shiftl 1 (shift - 1) in
    let up := if (half <? r)%Z || ((r =? half)%Z && Z.odd q) then 1%Z else 0%Z in
    (Z.sgn n * Z.shiftl (q + up) shift)%Z.

(** [int(x * 2.0)].  An [int] is first converted to a double; the product
    of a double by 2.0 is exact unless it leaves the range of the doubles,
    which end below 2^1024; [int] truncates towards zero, raises
    [ValueError] on NaN and [OverflowError] on an infinity, as does the
    conversion of an [int] that is too large. *)
Definition int_of_doubled (x : float) : Z + exn :=
  match x with
  | NaN => inr ValueError
  | PosInf | NegInf => inr OverflowError
  | Fin q =>
      let q := Qred q in
      let k := if (Zpos (Qden q) =? 1)%Z then (2 * float_of_int (Qnum q))%Z
               else Z.quot (2 * Qnum q) (Zpos (Qden q)) in
      if (2 ^ 1024 <=? Z.abs k)%Z then inr OverflowError else inl k
  end.

(** A [str] is kept as its UTF-8 bytes.  A character starts at every byte
    that is not a continuation byte (10xxxxxx). *)
Definition is_continuation (c : Ascii.ascii) : bool :=
  let n := Ascii.nat_of_ascii c in (128 <=? n) && (n <? 192).

(** The continuation bytes a string starts with, then its characters. *)
Fixpoint split (s : string) : string * list string :=
  match s with
  | EmptyString => (EmptyString, [])
  | String c s' =>
      let '(p, l) := split s' in
      if is_continuation c then (String c p, l) else (EmptyString, String c p :: l)
  end.

(** The characters of a string, as iterating over it yields them. *)
Definition chars (s : string) : list string :=
  let '(p, l) := split s in
  match p with
  | EmptyString => l
  | _ => p :: l
  end.

(** [len(s)] *)
Definition len (s : string) : nat := length (chars s).

Definition lower_char (c : Ascii.ascii) : Ascii.ascii :=
  let n := Ascii.nat_of_ascii c in
  if (65 <=? n) && (n <=? 90) then Ascii.ascii_of_nat (n + 32) else c.

(** [s.lower()], as far as a table with ASCII keys can tell: the letters A
    to Z and the Kelvin sign (U+212A, bytes 226 132 170) are the only
    characters whose lower case is ASCII; every other character is left as
    it is, where [str.lower] gives a character that is no ASCII either. *)
Fixpoint lower (s : string) : string :=
  match s with
  | EmptyString => EmptyString
  | String c s' =>
      match s' with
      | String c1 (String c2 s'') =>
          if (Ascii.nat_of_ascii c =? 226) && (Ascii.nat_of_ascii c1 =? 132)
             && (Ascii.nat_of_ascii c2 =? 170)
          then String (Ascii.ascii_of_nat 107) (lower s'')
          else String (lower_char c) (lower s')
      | _ => String (lower_char c) (lower s')
      end
  end.

End Py.

(** ** What [json.loads] returns *)

Module Json.

#[local] Set Warnings "-register-all".
Inductive value : Type :=
| Null
| Bool (b : bool)
| Num (x : Py.float)
| Str (s : string)
| Arr (items : list value)
| Obj (members : gmap string value).
#[local] Set Warnings "register-all".

(** Truth value testing, as in [if pressed:]. *)
Definition truthy (v : value) : bool :=
  match v with
  | Null => false
  | Bool b => b
  | Num (Py.Fin q) => negb (Qeq_bool q 0)
  | Num _ => true
  | Str s => negb (String.eqb s "")
  | Arr items => match items with [] => false | _ => true end
  | Obj members => negb (bool_decide (members = ∅))
  end.

(** The values arithmetic and comparisons with a float accept: numbers, and
    booleans, which count as 0 and 1. *)
Definition number (v : value) : option Py.float :=
  match v with
  | Num x => Some x
  | Bool b => Some (Py.Fin (if b then 1 else 0))
  | _ => None
  end.

(** [v == s] for a string literal [s]. *)
Definition eqb_str (v : value) (s : string) : bool :=
  match v with
  | Str s' => String.eqb s' s
  | _ => false
  end.

(** An object of booleans and an object of numbers. *)
Definition bools (m : gmap string bool) : value := Obj (Bool <$> m).
Definition numbers (m : gmap string Py.float) : value := Obj (Num <$> m).

End Json.

(** ** The external collaborators *)

Definition WebSocket := nat.
Definition timestamp := nat.

(** vgamepad's [XUSB_BUTTON] constants used by [BUTTON_MAP]. *)
Inductive XUSB_BUTTON : Type :=
| XUSB_GAMEPAD_A | XUSB_GAMEPAD_B | XUSB_GAMEPAD_X | XUSB_GAMEPAD_Y
| XUSB_GAMEPAD_LEFT_SHOULDER | XUSB_GAMEPAD_RIGHT_SHOULDER
| XUSB_GAMEPAD_START | XUSB_GAMEPAD_BACK | XUSB_GAMEPAD_GUIDE
| XUSB_GAMEPAD_LEFT_THUMB | XUSB_GAMEPAD_RIGHT_THUMB
| XUSB_GAMEPAD_DPAD_UP | XUSB_GAMEPAD_DPAD_DOWN
| XUSB_GAMEPAD_DPAD_LEFT | XUSB_GAMEPAD_DPAD_RIGHT.

#[global] Instance XUSB_BUTTON_eq_dec : EqDecision XUSB_BUTTON.
Proof. solve_decision. Defined.

(** The report a [VX360Gamepad] holds in memory; [update()] submits it to the
    virtual device.  Triggers and sticks are kept as the floats handed to the
    [*_float] setters. *)
Record XUSB_REPORT : Type := {
  wButtons : XUSB_BUTTON -> bool;
  left_trigger : Py.float;
  right_trigger : Py.float;
  left_joystick : Py.float * Py.float;
  right_joystick : Py.float * Py.float
}.

Definition default_report : XUSB_REPORT :=
  {| wButtons := fun _ => false;
     left_trigger := Py.Fin 0; right_trigger := Py.Fin 0;
     left_joystick := (Py.Fin 0, Py.Fin 0); right_joystick := (Py.Fin 0, Py.Fin 0) |}.

Record VX360Gamepad : Type := { report : XUSB_REPORT }.

Definition press_button (b : XUSB_BUTTON) (g : VX360Gamepad) : VX360Gamepad :=
  let r := report g in
  {| report := {| wButtons := fun x => if decide (x = b) then true else wButtons r x;
                  left_trigger := left_trigger r; right_trigger := right_trigger r;
                  left_joystick := left_joystick r; right_joystick := right_joystick r |} |}.

Definition release_button (b : XUSB_BUTTON) (g : VX360Gamepad) : VX360Gamepad :=
  let r := report g in
  {| report := {| wButtons := fun x => if decide (x = b) then false else wButtons r x;
                  left_trigger := left_trigger r; right_trigger := right_trigger r;
                  left_joystick := left_joystick r; right_joystick := right_joystick r |} |}.

Definition left_trigger_float (v : Py.float) (g : VX360Gamepad) : VX360Gamepad :=
  let r := report g in
  {| report := {| wButtons := wButtons r;
                  left_trigger := v; right_trigger := right_trigger r;
                  left_joystick := left_joystick r; right_joystick := right_joystick r |} |}.

Definition right_trigger_float (v : Py.float) (g : VX360Gamepad) : VX360Gamepad :=
  let r := report g in
  {| report := {| wButtons := wButtons r;
                  left_trigger := left_trigger r; right_trigger := v;
                  left_joystick := left_joystick r; right_joystick := right_joystick r |} |}.

Definition left_joystick_float (x y : Py.float) (g : VX360Gamepad) : VX360Gamepad :=
  let r := report g in
  {| report := {| wButtons := wButtons r;
                  left_trigger := left_trigger r; right_trigger := right_trigger r;
                  left_joystick := (x, y); right_joystick := right_joystick r |} |}.

Definition right_joystick_float (x y : Py.float) (g : VX360Gamepad) : VX360Gamepad :=
  let r := report g in
  {| report := {| wButtons := wButtons r;
                  left_trigger := left_trigger r; right_trigger := right_trigger r;
                  left_joystick := left_joystick r; right_joystick := (x, y) |} |}.

(** pynput's [Button]. *)
Inductive Button : Type := Button_left | Button_right.

(** The members of pynput's [Key] that the two key tables name. *)
Inductive Key : Type :=
| Key_enter | Key_space | Key_backspace | Key_tab | Key_esc
| Key_up | Key_down | Key_left | Key_right
| Key_ctrl | Key_alt | Key_shift
| Key_delete | Key_home | Key_end | Key_page_up | Key_page_down
| Key_f1 | Key_f2 | Key_f3 | Key_f4 | Key_f5 | Key_f6
| Key_f7 | Key_f8 | Key_f9 | Key_f10 | Key_f11 | Key_f12
| Key_cmd.

#[global] Instance Key_eq_dec : EqDecision Key.
Proof. solve_decision. Defined.

(** What [keyboard.press] and [keyboard.release] are handed: a member of
    [Key] or a one-character string. *)
Inductive key : Type :=
| Special (k : Key)
| Character (c : string).

#[global] Instance key_eq_dec : EqDecision key.
Proof. solve_decision. Defined.

(** Frames the server writes to a socket.  [FrConnected] and [FrError] stand
    for the JSON objects of type "connected" (its greeting text left out) and
    "error"; [FrText] is an arbitrary string handed to [broadcast]. *)
Inductive frame : Type :=
| FrConnected (playerId : nat)
| FrError (message : string)
| FrPong
| FrText (text : string).

(** Calls that leave the process, in the order they are made.  [ok] tells
    whether the call returned normally ([true]) or raised ([false]); the
    calls into pynput are recorded when they returned. *)
Inductive effect : Type :=
| EvDeviceCreate (player_id : nat) (ok : bool)
| EvDeviceUpdate (player_id : nat) (r : XUSB_REPORT) (ok : bool)
| EvDeviceReset (player_id : nat) (ok : bool)
| EvDeviceDestroy (player_id : nat)
| EvSend (ws : WebSocket) (f : frame) (ok : bool)
| EvClose (ws : WebSocket)
| EvPlayerUpdate (player_id : nat) (connected : bool)
| EvMouseMove (dx dy : Z)
| EvMouseClick (btn : Button)
| EvMousePress (btn : Button)
| EvMouseRelease (btn : Button)
| EvMouseScroll (dx dy : Json.value)
| EvTypeText (text : Json.value)
| EvKeyPress (k : key)
| EvKeyRelease (k : key)
| EvSinkError.

(** What the environment decides while one step of the server runs: the
    clock, whether the calls to the virtual device provider succeed, which
    sockets accept a send, whether the input sink is there at all
    (importing pynput and creating its controllers), and how many calls
    into pynput return before one raises ([None]: every call returns). *)
Record World : Type := {
  now : timestamp;
  device_ok : bool;
  send_ok : WebSocket -> bool;
  sink_ok : bool;
  sink_calls : option nat
}.

(** ** controller.py *)

Module Controller.

Record ControllerState : Type := {
  buttons : gmap string Json.value;
  triggers : gmap string Json.value;
  axes : gmap string Json.value
}.

(** [ControllerState.default()] *)
Definition ControllerState_default : ControllerState :=
  {| buttons := Json.Bool <$> list_to_map
       [("a", false); ("b", false); ("x", false); ("y", false);
        ("lb", false); ("rb", false);
        ("start", false); ("back", false); ("guide", false);
        ("l3", false); ("r3", false);
        ("dpad_up", false); ("dpad_down", false);
        ("dpad_left", false); ("dpad_right", false)];
     triggers := Json.Num <$> list_to_map [("lt", Py.Fin 0); ("rt", Py.Fin 0)];
     axes := Json.Num <$> list_to_map [("left_x", Py.Fin 0); ("left_y", Py.Fin 0);
                                       ("right_x", Py.Fin 0); ("right_y", Py.Fin 0)] |}.

Definition BUTTON_MAP : gmap string XUSB_BUTTON :=
  list_to_map
    [("a", XUSB_GAMEPAD_A); ("b", XUSB_GAMEPAD_B);
     ("x", XUSB_GAMEPAD_X); ("y", XUSB_GAMEPAD_Y);
     ("lb", XUSB_GAMEPAD_LEFT_SHOULDER); ("rb", XUSB_GAMEPAD_RIGHT_SHOULDER);
     ("start", XUSB_GAMEPAD_START); ("back", XUSB_GAMEPAD_BACK);
     ("guide", XUSB_GAMEPAD_GUIDE);
     ("l3", XUSB_GAMEPAD_LEFT_THUMB); ("r3", XUSB_GAMEPAD_RIGHT_THUMB);
     ("dpad_up", XUSB_GAMEPAD_DPAD_UP); ("dpad_down", XUSB_GAMEPAD_DPAD_DOWN);
     ("dpad_left", XUSB_GAMEPAD_DPAD_LEFT); ("dpad_right", XUSB_GAMEPAD_DPAD_RIGHT)].

Record VirtualController : Type := {
  player_id : nat;
  gamepad : option VX360Gamepad;
  state : ControllerState;
  _connected : bool
}.

(** [VirtualController.__init__] *)
Definition init (pid : nat) : VirtualController :=
  {| player_id := pid; gamepad := None; state := ControllerState_default; _connected := false |}.

(** [connect]: [ok] is whether [vg.VX360Gamepad()] returned a device. *)
Definition connect (ok : bool) (c : VirtualController)
  : bool * VirtualController * list effect :=
  if ok then
    (true,
     {| player_id := player_id c;
        gamepad := Some {| report := default_report |};
        state := state c; _connected := true |},
     [EvDeviceCreate (player_id c) true])
  else (false, c, [EvDeviceCreate (player_id c) false]).

(** [disconnect]: the reset is attempted under a bare [except]; the handle
    is dropped whether or not the reset went through ([ok]). *)
Definition disconnect (ok : bool) (c : VirtualController)
  : VirtualController * list effect :=
  match gamepad c with
  | Some _ =>
      ({| player_id := player_id c; gamepad := None;
          state := state c; _connected := false |},
       [EvDeviceReset (player_id c) ok; EvDeviceDestroy (player_id c)])
  | None =>
      ({| player_id := player_id c; gamepad := None;
          state := state c; _connected := false |}, [])
  end.

Definition is_connected (c : VirtualController) : bool :=
  _connected c && bool_decide (gamepad c <> None).

(** One turn of the loop over [buttons.items()]. *)
Definition update_button (g : VX360Gamepad) (item : string * Json.value) : VX360Gamepad :=
  match BUTTON_MAP !! item.1 with
  | Some b => if Json.truthy item.2 then press_button b g else release_button b g
  | None => g
  end.

(** [max(lo, min(hi, d.get(key, 0.0)))] on a dict [d]: the comparisons need
    a number. *)
Definition clamped (lo hi : Q) (d : gmap string Json.value) (key : string)
  : Py.float + Py.exn :=
  match Json.number (default (Json.Num (Py.Fin 0)) (d !! key)) with
  | Some x => inl (Py.max (Py.Fin lo) (Py.min (Py.Fin hi) x))
  | None => inr Py.TypeError
  end.

(** The controller an exception leaves behind: the setters called so far
    have written the report of its gamepad, its stored state is untouched. *)
Definition raised (g : VX360Gamepad) (c : VirtualController) (e : Py.exn)
  : VirtualController * list effect * Py.outcome :=
  ({| player_id := player_id c; gamepad := Some g;
      state := state c; _connected := _connected c |}, [], Py.Raises e).

(** [update_state]: [ok] is whether [gamepad.update()] returns.  The method
    has no handler of its own: what raises in it leaves it at once.
    [buttons.items()] and [triggers.get], [axes.get] need a dict
    ([AttributeError] otherwise). *)
Definition update_state (ok : bool) (buttons triggers axes : Json.value)
    (c : VirtualController) : VirtualController * list effect * Py.outcome :=
  match gamepad c with
  | Some g =>
      if is_connected c then
        match buttons with
        | Json.Obj buttons =>
            let g := foldl update_button g (map_to_list buttons) in
            match triggers with
            | Json.Obj triggers =>
                match clamped 0 1 triggers "lt" with
                | inr e => raised g c e
                | inl lt_value =>
                match clamped 0 1 triggers "rt" with
                | inr e => raised g c e
                | inl rt_value =>
                let g := left_trigger_float lt_value g in
                let g := right_trigger_float rt_value g in
                match axes with
                | Json.Obj axes =>
                    match clamped (-1) 1 axes "left_x" with
                    | inr e => raised g c e
                    | inl left_x =>
                    match clamped (-1) 1 axes "left_y" with
                    | inr e => raised g c e
                    | inl left_y =>
                    match clamped (-1) 1 axes "right_x" with
                    | inr e => raised g c e
                    | inl right_x =>
                    match clamped (-1) 1 axes "right_y" with
                    | inr e => raised g c e
                    | inl right_y =>
                    let g := left_joystick_float left_x left_y g in
                    let g := right_joystick_float right_x right_y g in
                    if ok then
                      ({| player_id := player_id c; gamepad := Some g;
                          state := {| Controller.buttons := buttons;
                                      Controller.triggers := triggers;
                                      Controller.axes := axes |};
                          _connected := _connected c |},
                       [EvDeviceUpdate (player_id c) (report g) true], Py.Returns)
                    else
                      ({| player_id := player_id c; gamepad := Some g;
                          state := state c; _connected := _connected c |},
                       [EvDeviceUpdate (player_id c) (report g) false],
                       Py.Raises Py.External)
                    end end end end
                | _ => raised g c Py.AttributeError
                end
                end end
            | _ => raised g c Py.AttributeError
            end
        | _ => (c, [], Py.Raises Py.AttributeError)
        end
      else (c, [], Py.Returns)
  | None => (c, [], Py.Returns)
  end.

Definition MAX_CONTROLLERS : nat := 4.

Record ControllerManager : Type := {
  controllers : gmap nat VirtualController
}.

(** [ControllerManager.__init__] *)
Definition empty : ControllerManager := {| controllers := ∅ |}.

Definition create_controller (ok : bool) (pid : nat) (cm : ControllerManager)
  : option VirtualController * ControllerManager * list effect :=
  if ((pid <? 1) || (MAX_CONTROLLERS <? pid))%nat then (None, cm, [])
  else
    match controllers cm !! pid with
    | Some c => (Some c, cm, [])
    | None =>
        let '(connected, controller, evs) := connect ok (init pid) in
        if connected then
          (Some controller, {| controllers := <[pid := controller]> (controllers cm) |}, evs)
        else (None, cm, evs)
    end.

Definition get_controller (pid : nat) (cm : ControllerManager)
  : option VirtualController :=
  controllers cm !! pid.

Definition remove_controller (ok : bool) (pid : nat) (cm : ControllerManager)
  : ControllerManager * list effect :=
  match controllers cm !! pid with
  | Some c =>
      let '(_, evs) := disconnect ok c in
      ({| controllers := delete pid (controllers cm) |}, evs)
  | None => (cm, [])
  end.

Definition get_available_player_id (cm : ControllerManager) : option nat :=
  List.find (fun i => bool_decide (controllers cm !! i = None))
            (seq 1 MAX_CONTROLLERS).

Definition get_connected_count (cm : ControllerManager) : nat :=
  size (controllers cm).

Definition disconnect_all (ok : bool) (cm : ControllerManager)
  : ControllerManager * list effect :=
  ({| controllers := ∅ |},
   flat_map (fun kv => (disconnect ok kv.2).2) (map_to_list (controllers cm))).

End Controller.
(** ** mouse_keyboard.py *)

Module MouseKeyboard.

(** pynput's mouse [Controller]: which buttons the host currently sees held. *)
Record MouseController : Type := {
  left_held : bool;
  right_held : bool
}.

Definition held (btn : Button) (m : MouseController) : bool :=
  match btn with
  | Button_left => left_held m
  | Button_right => right_held m
  end.

(** [mouse.press(btn)] and [mouse.release(btn)] *)
Definition press (btn : Button) (m : MouseController) : MouseController :=
  match btn with
  | Button_left => {| left_held := true; right_held := right_held m |}
  | Button_right => {| left_held := left_held m; right_held := true |}
  end.

Definition release (btn : Button) (m : MouseController) : MouseController :=
  match btn with
  | Button_left => {| left_held := false; right_held := right_held m |}
  | Button_right => {| left_held := left_held m; right_held := false |}
  end.

(** The controller object.  Its [mouse_sensitivity] is the 2.0 of
    [__init__] throughout: nothing in the repository calls
    [set_sensitivity]. *)
Record MouseKeyboardController : Type := {
  mouse : MouseController;
  left_button_pressed : bool;
  right_button_pressed : bool
}.

(** [MouseKeyboardController.__init__] on a host whose buttons are up. *)
Definition init : MouseKeyboardController :=
  {| mouse := {| left_held := false; right_held := false |};
     left_button_pressed := false;
     right_button_pressed := false |}.

(** [Button.left if button == "left" else Button.right] *)
Definition to_button (button : Json.value) : Button :=
  if Json.eqb_str button "left" then Button_left else Button_right.

(** [int(delta * self.mouse_sensitivity)]: the product needs a number. *)
Definition scaled (delta : Json.value) : Z + Py.exn :=
  match Json.number delta with
  | Some x => Py.int_of_doubled x
  | None => inr Py.TypeError
  end.

(** [move_mouse]: both pixel counts are computed before the pointer is
    touched, and a move by nothing is not made. *)
Definition move_mouse (delta_x delta_y : Json.value) (mk : MouseKeyboardController)
  : MouseKeyboardController * list effect * Py.outcome :=
  match scaled delta_x with
  | inr e => (mk, [], Py.Raises e)
  | inl dx =>
      match scaled delta_y with
      | inr e => (mk, [], Py.Raises e)
      | inl dy =>
          if negb (dx =? 0)%Z || negb (dy =? 0)%Z
          then (mk, [EvMouseMove dx dy], Py.Returns)
          else (mk, [], Py.Returns)
      end
  end.

(** [click]: pynput presses and then releases the button. *)
Definition click (button : Json.value) (mk : MouseKeyboardController)
  : MouseKeyboardController * list effect :=
  let btn := to_button button in
  ({| mouse := release btn (press btn (mouse mk));
      left_button_pressed := left_button_pressed mk;
      right_button_pressed := right_button_pressed mk |},
   [EvMouseClick btn]).

Definition press_mouse (button : Json.value) (mk : MouseKeyboardController)
  : MouseKeyboardController * list effect :=
  let btn := to_button button in
  if Json.eqb_str button "left" && negb (left_button_pressed mk) then
    ({| mouse := press btn (mouse mk);
        left_button_pressed := true;
        right_button_pressed := right_button_pressed mk |},
     [EvMousePress btn])
  else if Json.eqb_str button "right" && negb (right_button_pressed mk) then
    ({| mouse := press btn (mouse mk);
        left_button_pressed := left_button_pressed mk;
        right_button_pressed := true |},
     [EvMousePress btn])
  else (mk, []).

Definition release_mouse (button : Json.value) (mk : MouseKeyboardController)
  : MouseKeyboardController * list effect :=
  let btn := to_button button in
  if Json.eqb_str button "left" && left_button_pressed mk then
    ({| mouse := release btn (mouse mk);
        left_button_pressed := false;
        right_button_pressed := right_button_pressed mk |},
     [EvMouseRelease btn])
  else if Json.eqb_str button "right" && right_button_pressed mk then
    ({| mouse := release btn (mouse mk);
        left_button_pressed := left_button_pressed mk;
        right_button_pressed := false |},
     [EvMouseRelease btn])
  else (mk, []).

(** [scroll] hands its arguments to pynput as they are. *)
Definition scroll (dx dy : Json.value) (mk : MouseKeyboardController)
  : MouseKeyboardController * list effect :=
  (mk, [EvMouseScroll dx dy]).

(** [type_text]: nothing is typed for a falsy [text]. *)
Definition type_text (text : Json.value) (mk : MouseKeyboardController)
  : MouseKeyboardController * list effect :=
  if Json.truthy text then (mk, [EvTypeText text]) else (mk, []).

(** The [key_map] of [press_key]. *)
Definition press_key_map : gmap string Key :=
  list_to_map
    [("enter", Key_enter); ("space", Key_space); ("backspace", Key_backspace);
     ("tab", Key_tab); ("escape", Key_esc);
     ("up", Key_up); ("down", Key_down); ("left", Key_left); ("right", Key_right);
     ("ctrl", Key_ctrl); ("alt", Key_alt); ("shift", Key_shift);
     ("delete", Key_delete); ("home", Key_home); ("end", Key_end);
     ("pageup", Key_page_up); ("pagedown", Key_page_down);
     ("f1", Key_f1); ("f2", Key_f2); ("f3", Key_f3); ("f4", Key_f4);
     ("f5", Key_f5); ("f6", Key_f6); ("f7", Key_f7); ("f8", Key_f8);
     ("f9", Key_f9); ("f10", Key_f10); ("f11", Key_f11); ("f12", Key_f12)].

(** The [key_map] of [key_combination]. *)
Definition combination_key_map : gmap string Key :=
  list_to_map
    [("ctrl", Key_ctrl); ("alt", Key_alt); ("shift", Key_shift); ("win", Key_cmd)].

Section Lower.
(** [str.lower], which the code applies before it looks a name up. *)
Variable lower : string -> string.

(** The [if key.lower() in key_map: ... elif len(key) == 1: ...] that
    [press_key] and, for its last key, [key_combination] go through: the key
    is pressed and released, or nothing happens; [key.lower()] needs a
    string. *)
Definition strike (key_map : gmap string Key) (key : Json.value) : list effect + Py.exn :=
  match key with
  | Json.Str key =>
      match key_map !! lower key with
      | Some k => inl [EvKeyPress (Special k); EvKeyRelease (Special k)]
      | None =>
          if Py.len key =? 1
          then inl [EvKeyPress (Character key); EvKeyRelease (Character key)]
          else inl []
      end
  | _ => inr Py.AttributeError
  end.

Definition press_key (key : Json.value) (mk : MouseKeyboardController)
  : MouseKeyboardController * list effect * Py.outcome :=
  match strike press_key_map key with
  | inl evs => (mk, evs, Py.Returns)
  | inr e => (mk, [], Py.Raises e)
  end.

(** [keys[:-1]] and [keys[-1]] need a sequence: a list, or a string, whose
    items are its characters.  Anything else cannot be subscripted
    ([TypeError]; for a dict, [KeyError] from Python 3.12 on). *)
Definition sequence (keys : Json.value) : option (list Json.value) :=
  match keys with
  | Json.Arr items => Some items
  | Json.Str s => Some (Json.Str <$> Py.chars s)
  | _ => None
  end.

(** One turn of the loop over [keys[:-1]]: the calls made so far, the list
    [pressed], and whether the loop is still running. *)
Definition press_modifier (acc : list effect * list Key * Py.outcome) (k : Json.value)
  : list effect * list Key * Py.outcome :=
  match acc with
  | (evs, pressed, Py.Returns) =>
      match k with
      | Json.Str k =>
          match combination_key_map !! lower k with
          | Some m => (evs ++ [EvKeyPress (Special m)], pressed ++ [m], Py.Returns)
          | None => acc
          end
      | _ => (evs, pressed, Py.Raises Py.AttributeError)
      end
  | _ => acc
  end.

(** [key_combination].  There is no [try]: what raises on the way leaves
    the keys pressed so far as they are. *)
Definition key_combination (keys : Json.value) (mk : MouseKeyboardController)
  : MouseKeyboardController * list effect * Py.outcome :=
  match sequence keys with
  | None => (mk, [], Py.Raises Py.TypeError)
  | Some items =>
      match foldl press_modifier ([], [], Py.Returns) (removelast items) with
      | (evs, pressed, Py.Raises e) => (mk, evs, Py.Raises e)
      | (evs, pressed, Py.Returns) =>
          match last items with
          | None => (mk, evs, Py.Raises Py.IndexError)
          | Some final_key =>
              match strike combination_key_map final_key with
              | inr e => (mk, evs, Py.Raises e)
              | inl final =>
                  (mk,
                   evs ++ final ++ ((fun k => EvKeyRelease (Special k)) <$> rev pressed),
                   Py.Returns)
              end
          end
      end
  end.

End Lower.

(** A call into pynput can raise.  Every effect of the methods above is one
    such call, made in that order, and a method writes its flags only after
    its call returned: when only the first [n] calls of a step return, these
    are the calls made and the controller is as it was. *)
Definition interrupted (calls : option nat) (mk : MouseKeyboardController)
    (r : MouseKeyboardController * list effect * Py.outcome)
  : MouseKeyboardController * list effect * Py.outcome :=
  match calls with
  | Some n =>
      if n <? length r.1.2 then (mk, take n r.1.2, Py.Raises Py.External) else r
  | None => r
  end.

(** A call of [press_mouse] or [release_mouse], for sequences of them. *)
Inductive mouse_call : Type :=
| CallPress (button : Json.value)
| CallRelease (button : Json.value).

Definition run_call (mk : MouseKeyboardController) (c : mouse_call)
  : MouseKeyboardController :=
  match c with
  | CallPress button => (press_mouse button mk).1
  | CallRelease button => (release_mouse button mk).1
  end.

(** The tracked flags agree with what the host sees. *)
Definition in_sync (mk : MouseKeyboardController) : Prop :=
  left_button_pressed mk = held Button_left (mouse mk) /\
  right_button_pressed mk = held Button_right (mouse mk).

End MouseKeyboard.

(** ** session_manager.py *)

Module Session.

Record PlayerSession : Type := {
  player_id : nat;
  websocket : WebSocket;
  connected_at : timestamp;
  last_input_at : timestamp
}.

(** [PlayerSession.update_activity] *)
Definition PlayerSession_update_activity (t : timestamp) (s : PlayerSession) : PlayerSession :=
  {| player_id := player_id s; websocket := websocket s;
     connected_at := connected_at s; last_input_at := t |}.

Definition MAX_PLAYERS : nat := 4.

Record SessionManager : Type := {
  sessions : gmap nat PlayerSession;
  websocket_to_player : gmap WebSocket nat
}.

(** [SessionManager.__init__] *)
Definition empty : SessionManager :=
  {| sessions := ∅; websocket_to_player := ∅ |}.

Definition _get_available_id (sm : SessionManager) : option nat :=
  List.find (fun i => bool_decide (sessions sm !! i = None)) (seq 1 MAX_PLAYERS).

(** What a call may end with: a value, or the [KeyError] of a [del]. *)
Inductive result (A : Type) : Type :=
| Returned (a : A)
| KeyError.
Arguments Returned {A} a.
Arguments KeyError {A}.

Section Observers.
(** The two observers act on state [Ext] that the registry does not own.
    An exception they raise is caught by the registry, so an observer is
    a function on [Ext]. *)
Context {Ext : Type}.
Variable on_player_connected : option (nat -> Ext -> Ext).
Variable on_player_disconnected : option (nat -> Ext -> Ext).

Definition notify (cb : option (nat -> Ext -> Ext)) (pid : nat) (ext : Ext) : Ext :=
  match cb with
  | Some f => f pid ext
  | None => ext
  end.

Definition add_player (t : timestamp) (ws : WebSocket)
    (sm : SessionManager) (ext : Ext)
  : option nat * SessionManager * Ext :=
  match websocket_to_player sm !! ws with
  | Some pid => (Some pid, sm, ext)
  | None =>
      match _get_available_id sm with
      | None => (None, sm, ext)
      | Some pid =>
          let session :=
            {| player_id := pid; websocket := ws;
               connected_at := t; last_input_at := t |} in
          (Some pid,
           {| sessions := <[pid := session]> (sessions sm);
              websocket_to_player := <[ws := pid]> (websocket_to_player sm) |},
           notify on_player_connected pid ext)
      end
  end.

Definition remove_player (ws : WebSocket) (sm : SessionManager) (ext : Ext)
  : result (option nat) * SessionManager * Ext :=
  match websocket_to_player sm !! ws with
  | None => (Returned None, sm, ext)
  | Some pid =>
      let w2p := delete ws (websocket_to_player sm) in
      match sessions sm !! pid with
      | None =>
          (KeyError, {| sessions := sessions sm; websocket_to_player := w2p |}, ext)
      | Some _ =>
          (Returned (Some pid),
           {| sessions := delete pid (sessions sm); websocket_to_player := w2p |},
           notify on_player_disconnected pid ext)
      end
  end.
End Observers.

Definition get_player_id (ws : WebSocket) (sm : SessionManager) : option nat :=
  websocket_to_player sm !! ws.

Definition get_session (pid : nat) (sm : SessionManager) : option PlayerSession :=
  sessions sm !! pid.

Definition update_activity (t : timestamp) (pid : nat) (sm : SessionManager)
  : SessionManager :=
  match sessions sm !! pid with
  | Some session =>
      {| sessions := <[pid := PlayerSession_update_activity t session]> (sessions sm);
         websocket_to_player := websocket_to_player sm |}
  | None => sm
  end.

Definition get_player_count (sm : SessionManager) : nat := size (sessions sm).

Definition get_all_player_ids (sm : SessionManager) : list nat :=
  (map_to_list (sessions sm)).*1.

Definition is_full (sm : SessionManager) : bool :=
  bool_decide (MAX_PLAYERS <= size (sessions sm))%nat.

(** [exclude_player and player_id == exclude_player]: [None] and [0] are
    falsy. *)
Definition excluded (exclude_player : option nat) (pid : nat) : bool :=
  match exclude_player with
  | Some e => negb (e =? 0)%nat && (pid =? e)%nat
  | None => false
  end.

(** [broadcast]: [ok ws] tells whether [send] on [ws] returns; a send that
    raises is caught inside the loop. *)
Definition broadcast (ok : WebSocket -> bool) (message : frame)
    (exclude_player : option nat) (sm : SessionManager) : list effect :=
  flat_map
    (fun kv : nat * PlayerSession =>
       if excluded exclude_player kv.1 then []
       else [EvSend (websocket kv.2) message (ok (websocket kv.2))])
    (map_to_list (sessions sm)).

Definition clear_all (sm : SessionManager) : SessionManager := empty.

End Session.

(** ** server.py *)

Module Server.
Import Controller MouseKeyboard Session.

(** The server object, the module-level singleton of mouse_keyboard.py and
    the calls made so far.  [on_player_update] tells whether the
    presentation layer installed its observer. *)
Record ControllerServer : Type := {
  controller_manager : ControllerManager;
  session_manager : SessionManager;
  on_player_update : bool;
  _mouse_keyboard_controller : option MouseKeyboardController;
  trace : list effect
}.

(** [ControllerServer.__init__] *)
Definition init (observer : bool) : ControllerServer :=
  {| controller_manager := Controller.empty;
     session_manager := Session.empty;
     on_player_update := observer;
     _mouse_keyboard_controller := None;
     trace := [] |}.

Definition emit (evs : list effect) (st : ControllerServer) : ControllerServer :=
  {| controller_manager := controller_manager st;
     session_manager := session_manager st;
     on_player_update := on_player_update st;
     _mouse_keyboard_controller := _mouse_keyboard_controller st;
     trace := trace st ++ evs |}.

Definition set_session_manager (sm : SessionManager) (st : ControllerServer)
  : ControllerServer :=
  {| controller_manager := controller_manager st;
     session_manager := sm;
     on_player_update := on_player_update st;
     _mouse_keyboard_controller := _mouse_keyboard_controller st;
     trace := trace st |}.

Definition set_controller (pid : nat) (c : VirtualController) (st : ControllerServer)
  : ControllerServer :=
  {| controller_manager :=
       {| controllers := <[pid := c]> (controllers (controller_manager st)) |};
     session_manager := session_manager st;
     on_player_update := on_player_update st;
     _mouse_keyboard_controller := _mouse_keyboard_controller st;
     trace := trace st |}.

Definition set_mouse_keyboard (mk : MouseKeyboardController) (st : ControllerServer)
  : ControllerServer :=
  {| controller_manager := controller_manager st;
     session_manager := session_manager st;
     on_player_update := on_player_update st;
     _mouse_keyboard_controller := Some mk;
     trace := trace st |}.

(** The observers the server hands to its registry.  They act on the
    controller manager and on the trace. *)
Definition _on_player_connected (observer ok : bool) (pid : nat)
    (ext : ControllerManager * list effect) : ControllerManager * list effect :=
  let '(_, cm, evs) := create_controller ok pid ext.1 in
  (cm, ext.2 ++ evs ++ (if observer then [EvPlayerUpdate pid true] else [])).

Definition _on_player_disconnected (observer ok : bool) (pid : nat)
    (ext : ControllerManager * list effect) : ControllerManager * list effect :=
  let '(cm, evs) := remove_controller ok pid ext.1 in
  (cm, ext.2 ++ evs ++ (if observer then [EvPlayerUpdate pid false] else [])).

(** A decoded client message that is an object: the dict [json.loads]
    returned, so that [data.get(key, default)] is [default d (data !! key)]. *)
Definition Data : Type := gmap string Json.value.

(** A text frame: [Invalid] when [json.loads] raises, otherwise the value
    it returns. *)
Inductive message : Type :=
| Invalid
| Json (data : Json.value).

(** [get_mouse_keyboard_controller()] *)
Definition get_mouse_keyboard_controller (st : ControllerServer)
  : MouseKeyboardController * ControllerServer :=
  match _mouse_keyboard_controller st with
  | Some mk => (mk, st)
  | None => (MouseKeyboard.init, set_mouse_keyboard MouseKeyboard.init st)
  end.

Definition mouse_action (data : Data) (mk : MouseKeyboardController)
  : MouseKeyboardController * list effect * Py.outcome :=
  let action := default (Json.Str "") (data !! "action") in
  if Json.eqb_str action "move" then
    move_mouse (default (Json.Num (Py.Fin 0)) (data !! "dx"))
               (default (Json.Num (Py.Fin 0)) (data !! "dy")) mk
  else if Json.eqb_str action "click" then
    (click (default (Json.Str "left") (data !! "button")) mk, Py.Returns)
  else if Json.eqb_str action "press" then
    (press_mouse (default (Json.Str "left") (data !! "button")) mk, Py.Returns)
  else if Json.eqb_str action "release" then
    (release_mouse (default (Json.Str "left") (data !! "button")) mk, Py.Returns)
  else if Json.eqb_str action "scroll" then
    (scroll (default (Json.Num (Py.Fin 0)) (data !! "dx"))
            (default (Json.Num (Py.Fin 0)) (data !! "dy")) mk, Py.Returns)
  else (mk, [], Py.Returns).

Definition keyboard_action (data : Data) (mk : MouseKeyboardController)
  : MouseKeyboardController * list effect * Py.outcome :=
  let action := default (Json.Str "") (data !! "action") in
  if Json.eqb_str action "type" then
    (type_text (default (Json.Str "") (data !! "text")) mk, Py.Returns)
  else if Json.eqb_str action "key" then
    press_key Py.lower (default (Json.Str "") (data !! "key")) mk
  else if Json.eqb_str action "combo" then
    let keys := default (Json.Arr []) (data !! "keys") in
    if Json.truthy keys then key_combination Py.lower keys mk
    else (mk, [], Py.Returns)
  else (mk, [], Py.Returns).

(** The mouse and keyboard branches.  When the sink is not there
    ([sink_ok w] is false) the import raises before anything else; otherwise
    the action runs as far as the calls into pynput return, and
    [update_activity] follows only when it returned. *)
Definition sink_branch (w : World) (pid : nat)
    (act : MouseKeyboardController -> MouseKeyboardController * list effect * Py.outcome)
    (st : ControllerServer) : ControllerServer * Py.outcome :=
  if sink_ok w then
    let '(mk, st) := get_mouse_keyboard_controller st in
    let '(mk, evs, o) := interrupted (sink_calls w) mk (act mk) in
    let st := emit evs (set_mouse_keyboard mk st) in
    match o with
    | Py.Returns =>
        (set_session_manager (update_activity (now w) pid (session_manager st)) st,
         Py.Returns)
    | Py.Raises e => (st, Py.Raises e)
    end
  else (emit [EvSinkError] st, Py.Raises Py.External).

(** The body of the [try] of [_process_message] for a decoded object: the
    server afterwards and whether the body returned or raised. *)
Definition dispatch (w : World) (pid : nat) (data : Data) (st : ControllerServer)
  : ControllerServer * Py.outcome :=
  let msg_type := default (Json.Str "") (data !! "type") in
  if Json.eqb_str msg_type "input" then
    match get_controller pid (controller_manager st) with
    | Some controller =>
        let buttons := default (Json.Obj ∅) (data !! "buttons") in
        let triggers := default (Json.Obj ∅) (data !! "triggers") in
        let axes := default (Json.Obj ∅) (data !! "axes") in
        let '(controller, evs, o) :=
          update_state (device_ok w) buttons triggers axes controller in
        let st := emit evs (set_controller pid controller st) in
        match o with
        | Py.Returns =>
            (set_session_manager (update_activity (now w) pid (session_manager st)) st,
             Py.Returns)
        | Py.Raises e => (st, Py.Raises e)
        end
    | None => (st, Py.Returns)
    end
  else if Json.eqb_str msg_type "mouse" then
    sink_branch w pid (mouse_action data) st
  else if Json.eqb_str msg_type "keyboard" then
    sink_branch w pid (keyboard_action data) st
  else if Json.eqb_str msg_type "ping" then
    match get_session pid (session_manager st) with
    | Some session =>
        (emit [EvSend (websocket session) FrPong (send_ok w (websocket session))] st,
         if send_ok w (websocket session) then Py.Returns else Py.Raises Py.External)
    | None => (st, Py.Returns)
    end
  else if Json.eqb_str msg_type "disconnect" then
    match get_session pid (session_manager st) with
    | Some session => (emit [EvClose (websocket session)] st, Py.Returns)
    | None => (st, Py.Returns)
    end
  else (st, Py.Returns).

(** [_process_message]: both handlers of the [try] only log.  A value that
    is no object has no [get]: [data.get("type", "")] raises. *)
Definition _process_message (w : World) (pid : nat) (m : message)
    (st : ControllerServer) : ControllerServer :=
  match m with
  | Invalid => st
  | Json (Json.Obj data) => (dispatch w pid data st).1
  | Json _ => st
  end.

(** How the handshake of [handle_client] ends. *)
Inductive handshake : Type :=
| Rejected
| Welcomed (player_id : nat)
| Aborted.

(** [handle_client] up to the receive loop.  A [send] that raises unwinds
    the handler ([Aborted]): it is outside the [try]. *)
Definition handle_client_accept (w : World) (ws : WebSocket) (st : ControllerServer)
  : handshake * ControllerServer :=
  let '(player_id, sm, (cm, tr)) :=
    add_player (Some (_on_player_connected (on_player_update st) (device_ok w)))
               (now w) ws (session_manager st) (controller_manager st, trace st) in
  let st :=
    {| controller_manager := cm; session_manager := sm;
       on_player_update := on_player_update st;
       _mouse_keyboard_controller := _mouse_keyboard_controller st;
       trace := tr |} in
  match player_id with
  | None =>
      if send_ok w ws then
        (Rejected,
         emit [EvSend ws (FrError "Server is full (max 4 players)") true; EvClose ws] st)
      else (Aborted, emit [EvSend ws (FrError "Server is full (max 4 players)") false] st)
  | Some pid =>
      if send_ok w ws then (Welcomed pid, emit [EvSend ws (FrConnected pid) true] st)
      else (Aborted, emit [EvSend ws (FrConnected pid) false] st)
  end.

(** Why the [async for] over the socket stopped. *)
Inductive loop_end : Type :=
| Exhausted          (* the peer closed the connection normally *)
| ConnectionClosed   (* websockets.ConnectionClosed: error close, keepalive timeout *)
| Failed             (* any other Exception *)
| Cancelled.         (* a BaseException, which no handler clause catches *)

(** The [finally] clause of [handle_client]; the boolean tells whether the
    handler then returns ([true]) or leaves with an exception. *)
Definition handle_client_finally (w : World) (ws : WebSocket) (e : loop_end)
    (st : ControllerServer) : bool * ControllerServer :=
  let '(r, sm, (cm, tr)) :=
    remove_player (Some (_on_player_disconnected (on_player_update st) (device_ok w)))
                  ws (session_manager st) (controller_manager st, trace st) in
  (match r, e with
   | KeyError, _ => false
   | Returned _, Cancelled => false
   | Returned _, _ => true
   end,
   {| controller_manager := cm; session_manager := sm;
      on_player_update := on_player_update st;
      _mouse_keyboard_controller := _mouse_keyboard_controller st;
      trace := tr |}).

(** The server as a transition system: handlers of several connections
    interleave at the granularity of these events. *)
Inductive event : Type :=
| Accept (w : World) (ws : WebSocket)
| Frame (w : World) (pid : nat) (m : message)
| LoopEnd (w : World) (ws : WebSocket) (e : loop_end).

Definition step (st : ControllerServer) (ev : event) : ControllerServer :=
  match ev with
  | Accept w ws => (handle_client_accept w ws st).2
  | Frame w pid m => _process_message w pid m st
  | LoopEnd w ws e => (handle_client_finally w ws e st).2
  end.

Definition run (st : ControllerServer) (evs : list event) : ControllerServer :=
  foldl step st evs.

Inductive reachable : ControllerServer -> Prop :=
| reachable_init observer : reachable (init observer)
| reachable_step st ev : reachable st -> reachable (step st ev).

(** [handle_client] for one connection, from the handshake to the end of
    its [finally] clause, among the handlers of the other connections.  The
    handler gives way whenever it waits for a frame: each of its [turns] is
    what the others do meanwhile, then the frame it receives and processes;
    [rest] is what the others do before its loop ends with [e].  A handshake
    that is turned down, or whose send raises, ends the handler at once. *)
Definition handle_client_among (w : World) (ws : WebSocket)
    (turns : list (list event * (World * message))) (rest : list event)
    (e : loop_end) (w' : World) (st : ControllerServer) : ControllerServer :=
  match handle_client_accept w ws st with
  | (Welcomed pid, st) =>
      let st :=
        foldl (fun st turn => _process_message turn.2.1 pid turn.2.2 (run st turn.1))
              st turns in
      (handle_client_finally w' ws e (run st rest)).2
  | (_, st) => st
  end.

(** [handle_client] with nothing else going on: the handshake, the frames
    received, then the [finally] clause. *)
Definition handle_client (w : World) (ws : WebSocket)
    (frames : list (World * message)) (e : loop_end) (w' : World)
    (st : ControllerServer) : ControllerServer :=
  handle_client_among w ws ((fun f => ([], f)) <$> frames) [] e w' st.

(** The events that neither accept nor end the connection [ws]. *)
Definition leaves_open (ws : WebSocket) (ev : event) : Prop :=
  match ev with
  | Accept _ ws' => ws' <> ws
  | Frame _ _ _ => True
  | LoopEnd _ ws' _ => ws' <> ws
  end.

(** Number of device handles dropped for [pid] in a trace. *)
Definition is_destroy (pid : nat) (e : effect) : bool :=
  match e with
  | EvDeviceDestroy p => (p =? pid)%nat
  | _ => false
  end.

Definition releases (pid : nat) (tr : list effect) : nat :=
  length (List.filter (is_destroy pid) tr).

End Server.

Import Controller MouseKeyboard Session Server.

(** ** Vocabulary of the statements *)

(** The session [add_player] creates at time [t]. *)
Definition new_session (t : timestamp) (pid : nat) (ws : WebSocket) : PlayerSession :=
  {| Session.player_id := pid; websocket := ws; connected_at := t; last_input_at := t |}.

(** The controller [create_controller] registers when the device is there. *)
Definition new_controller (pid : nat) : VirtualController :=
  {| Controller.player_id := pid;
     gamepad := Some {| report := default_report |};
     state := ControllerState_default;
     _connected := true |}.

(** The text of the error frame of a full server. *)
Definition full_message : string := "Server is full (max 4 players)".

(** The call of the presentation-layer observer, when one is installed. *)
Definition observed (st : ControllerServer) (pid : nat) (connected : bool) : list effect :=
  if on_player_update st then [EvPlayerUpdate pid connected] else [].

(** Sessions and connections are in bijection, ids lie in [1..MAX_PLAYERS],
    and every controller belongs to a live session and holds a device. *)
Record consistent (st : ControllerServer) : Prop := {
  inv_connection : forall ws pid,
    websocket_to_player (session_manager st) !! ws = Some pid ->
    exists s, sessions (session_manager st) !! pid = Some s /\ websocket s = ws;
  inv_session : forall pid s,
    sessions (session_manager st) !! pid = Some s ->
    websocket_to_player (session_manager st) !! websocket s = Some pid /\
    1 <= pid <= MAX_PLAYERS /\ Session.player_id s = pid;
  inv_controller : forall pid c,
    controllers (controller_manager st) !! pid = Some c ->
    is_Some (sessions (session_manager st) !! pid) /\
    is_connected c = true /\ Controller.player_id c = pid
}.

(** [st'] differs from [st] only in what a message may touch: controller
    reports, activity timestamps, the input sink and the trace, where no
    device handle was dropped. *)
Record same_bindings (st st' : ControllerServer) : Prop := {
  sb_connections :
    websocket_to_player (session_manager st') = websocket_to_player (session_manager st);
  sb_sessions : forall p,
    (fun s => (Session.player_id s, websocket s)) <$> sessions (session_manager st') !! p =
    (fun s => (Session.player_id s, websocket s)) <$> sessions (session_manager st) !! p;
  sb_controllers : forall p,
    (fun c => (is_connected c, Controller.player_id c))
      <$> controllers (controller_manager st') !! p =
    (fun c => (is_connected c, Controller.player_id c))
      <$> controllers (controller_manager st) !! p;
  sb_releases : forall p, releases p (trace st') = releases p (trace st);
  sb_observer : on_player_update st' = on_player_update st
}.

(** Clamping in the words of the specification: a value within its legal
    range is kept, a value above it becomes the upper bound and a value below
    it the lower bound.  NaN is neither; it goes where the code sends it,
    to the upper bound. *)
Definition clamp_spec (lo hi : Q) (x : Py.float) : Q :=
  match x with
  | Py.Fin q => if Py.Qltb q lo then lo else if Py.Qltb hi q then hi else q
  | Py.PosInf => hi
  | Py.NegInf => lo
  | Py.NaN => hi
  end.

(** A float that is the finite value [q]. *)
Definition is_value (q : Q) (x : Py.float) : Prop :=
  match x with
  | Py.Fin q' => (q' == q)%Q
  | _ => False
  end.

(** What the others do during the turns of a handler, and its own frames, as
    events in the order they happen. *)
Definition turn_events (pid : nat) (turns : list (list event * (World * message)))
  : list event :=
  flat_map (fun turn => turn.1 ++ [Frame turn.2.1 pid turn.2.2]) turns.

(** A report that was submitted and went through. *)
Definition is_submission (e : effect) : bool :=
  match e with
  | EvDeviceUpdate _ _ true => true
  | _ => false
  end.

(** ** Sample inputs *)

(** A world in which every external call succeeds, at time 100, and the same
    at time 200. *)
Definition calm : World :=
  {| now := 100; device_ok := true; send_ok := fun _ => true; sink_ok := true;
     sink_calls := None |}.

Definition later : World :=
  {| now := 200; device_ok := true; send_ok := fun _ => true; sink_ok := true;
     sink_calls := None |}.

(** A world in which every send raises. *)
Definition mute : World :=
  {| now := 100; device_ok := true; send_ok := fun _ => false; sink_ok := true;
     sink_calls := None |}.

(** A later world in which the input sink is not there. *)
Definition sinkless : World :=
  {| now := 200; device_ok := true; send_ok := fun _ => true; sink_ok := false;
     sink_calls := None |}.

(** A world in which the virtual device provider fails, and the same at
    time 200. *)
Definition no_device : World :=
  {| now := 100; device_ok := false; send_ok := fun _ => true; sink_ok := true;
     sink_calls := None |}.

Definition no_device_later : World :=
  {| now := 200; device_ok := false; send_ok := fun _ => true; sink_ok := true;
     sink_calls := None |}.

(** A later world in which the first call into pynput returns and the
    second raises. *)
Definition one_call : World :=
  {| now := 200; device_ok := true; send_ok := fun _ => true; sink_ok := true;
     sink_calls := Some 1 |}.

(** A message that carries a type and nothing else, and an input snapshot
    of booleans and numbers. *)
Definition typed_message (ty : string) : Data := {[ "type" := Json.Str ty ]}.

Definition input_message (buttons : gmap string bool) (triggers axes : gmap string Py.float)
  : Data :=
  {[ "type" := Json.Str "input"; "buttons" := Json.bools buttons;
     "triggers" := Json.numbers triggers; "axes" := Json.numbers axes ]}.

(** An input snapshot whose triggers are a string: [a] is named as pressed,
    and [triggers.get] then raises. *)
Definition broken_snapshot : Data :=
  {[ "type" := Json.Str "input"; "buttons" := Json.bools {[ "a" := true ]};
     "triggers" := Json.Str "full" ]}.

(** A mouse move by NaN. *)
Definition nan_move : Data :=
  {[ "type" := Json.Str "mouse"; "action" := Json.Str "move";
     "dx" := Json.Num Py.NaN ]}.

(** Connection attempts, each in its own world, as events. *)
Definition accept_all (attempts : list (World * WebSocket)) : list event :=
  (fun a => Accept a.1 a.2) <$> attempts.

(** Four distinct connections. *)
Definition four_attempts : list (World * WebSocket) :=
  [(calm, 10); (calm, 11); (calm, 12); (calm, 13)].

(** One connected player, registered at time 100. *)
Definition one_player : ControllerServer := run (init false) [Accept calm 10].

(** Two connected players, and what happens while player 1 stays connected:
    an input frame of player 1, a third connection, the end of player 2. *)
Definition two_players : ControllerServer :=
  run (init false) [Accept calm 10; Accept calm 11].

Definition busy_evening : list event :=
  [Frame later 1 (Json (Json.Obj (input_message {[ "a" := true ]} ∅ ∅)));
   Accept calm 12;
   LoopEnd calm 11 Exhausted].

(** The turns of a third connection next to two players: while it waits for
    its first frame a fourth client connects, while it waits for its second
    player 1 is cut off. *)
Definition third_among_others : list (list event * (World * message)) :=
  [([Accept calm 13], (later, Json (Json.Obj (typed_message "ping"))));
   ([LoopEnd calm 10 Failed],
    (later, Json (Json.Obj (input_message {[ "a" := true ]} {[ "lt" := Py.Fin 2 ]} ∅))))].

(** The connection and the frame of a send, whatever its outcome. *)
Definition send_target (e : effect) : option (WebSocket * frame) :=
  match e with
  | EvSend ws f _ => Some (ws, f)
  | _ => None
  end.

(** Sends to connection 10 raise, all others go through. *)
Definition deaf_first (ws : WebSocket) : bool := negb (ws =? 10).

(** The scenario of the specification: four clients, a fifth, player 2
    leaves, a sixth client, and an out-of-range snapshot of player 1. *)
Definition scenario : list event :=
  accept_all four_attempts ++
  [Accept calm 14;
   LoopEnd calm 11 Exhausted;
   Accept calm 15;
   Frame later 1 (Json (Json.Obj (input_message {[ "a" := true ]}
                                      {[ "lt" := Py.Fin 2 ]}
                                      {[ "left_x" := Py.Fin (-5) ]})))].

(** A controller that has applied a snapshot: [b] is pressed, the left
    trigger is at 0.75 and the right stick is halfway up. *)
Definition used_controller : VirtualController :=
  (update_state true (Json.bools {[ "b" := true ]})
                (Json.numbers {[ "lt" := Py.Fin 0.75 ]})
                (Json.numbers {[ "right_y" := Py.Fin 0.5 ]}) (new_controller 1)).1.1.

(** * Further parts of the code *)

(** ** server.py: starting and stopping *)

Module Lifecycle.

(** The server object with the fields of [start] and [stop]: whether
    [_server] holds a listening server, the [_running] flag, whether the
    presentation layer installed [on_status_change], and the statuses it was
    told. *)
Record ServerProcess : Type := {
  core : ControllerServer;
  _server : bool;
  _running : bool;
  on_status_change : bool;
  statuses : list string
}.

(** [ControllerServer.__init__] *)
Definition create (status_observer player_observer : bool) : ServerProcess :=
  {| core := init player_observer; _server := false; _running := false;
     on_status_change := status_observer; statuses := [] |}.

Definition is_running (p : ServerProcess) : bool := _running p.

Definition get_player_count (p : ServerProcess) : nat :=
  Session.get_player_count (session_manager (core p)).

Definition tell (status : string) (p : ServerProcess) : list string :=
  if on_status_change p then statuses p ++ [status] else statuses p.

(** [start] up to [wait_closed]: [bound] is whether [websockets.serve]
    returned a server; the boolean result is [false] when [start] re-raises. *)
Definition start (bound : bool) (p : ServerProcess) : bool * ServerProcess :=
  if bound then
    (true, {| core := core p; _server := true; _running := true;
              on_status_change := on_status_change p;
              statuses := tell "running" p |})
  else
    (false, {| core := core p; _server := _server p; _running := true;
               on_status_change := on_status_change p;
               statuses := tell "error" p |}).

(** [stop]: [during] is what the connection handlers do while [stop] awaits
    [wait_closed]; without a server object nothing is awaited. *)
Definition stop (w : World) (during : list event) (p : ServerProcess) : ServerProcess :=
  let st := if _server p then run (core p) during else core p in
  let '(cm, evs) := disconnect_all (device_ok w) (controller_manager st) in
  {| core := {| controller_manager := cm;
                session_manager := clear_all (session_manager st);
                on_player_update := on_player_update st;
                _mouse_keyboard_controller := _mouse_keyboard_controller st;
                trace := trace st ++ evs |};
     _server := _server p; _running := false;
     on_status_change := on_status_change p;
     statuses := tell "stopped" p |}.

End Lifecycle.

(** ** qr_generator.py: addresses and the cached code *)

Module Pairing.

(** [get_local_ip]: [probe] is the address of the probing socket, [None]
    when the probe raises. *)
Definition get_local_ip (probe : option string) : string :=
  default "127.0.0.1" probe.

(** What the scan of the network interfaces yields: the import fails, or the
    interfaces read (each with the ['addr'] entries of its AF_INET
    addresses) and whether an exception then ended the scan. *)
Inductive scan : Type :=
| ImportFailed
| Scanned (interfaces : list (list (option string))) (raised : bool).

(** [ip and not ip.startswith('127.')] *)
Definition usable (addr : option string) : option string :=
  match addr with
  | Some ip => if negb (String.eqb ip "") && negb (String.prefix "127." ip)
               then Some ip else None
  | None => None
  end.

Definition get_all_local_ips (local_ip : string) (s : scan) : list string :=
  let ips :=
    match s with
    | ImportFailed => [local_ip]
    | Scanned interfaces raised =>
        omap usable (concat interfaces) ++ (if raised then [local_ip] else [])
    end in
  match ips with
  | [] => [local_ip]
  | _ => ips
  end.

Section Images.
(** The image [generate_qr_code] makes for an address and a port. *)
Context {Image : Type}.
Variable generate_qr_code : string -> nat -> Image.

Record QRCodeManager : Type := {
  port : nat;
  _cached_ip : option string;
  _cached_image : option Image
}.

(** [QRCodeManager.__init__] *)
Definition new_manager (port : nat) : QRCodeManager :=
  {| port := port; _cached_ip := None; _cached_image := None |}.

(** [get_qr_image]: [current_ip] is what [get_local_ip()] answers and [made]
    whether [generate_qr_code] returns.  The boolean result is [false] when
    the call raises; otherwise the pair returned is [_cached_image] and
    [_cached_ip] of the manager afterwards. *)
Definition get_qr_image (current_ip : string) (made force_refresh : bool)
    (m : QRCodeManager) : bool * QRCodeManager :=
  if force_refresh
     || negb (bool_decide (_cached_ip m = Some current_ip))
     || match _cached_image m with None => true | Some _ => false end
  then
    if made then
      (true, {| port := port m; _cached_ip := Some current_ip;
                _cached_image := Some (generate_qr_code current_ip (port m)) |})
    else
      (false, {| port := port m; _cached_ip := Some current_ip;
                 _cached_image := _cached_image m |})
  else (true, m).

(** A call of [get_qr_image] with what the environment gives it: the
    current address, whether the image can be made, and [force_refresh]. *)
Definition qr_call : Type := string * bool * bool.

Definition run_qr (m : QRCodeManager) (c : qr_call) : QRCodeManager :=
  (get_qr_image c.1.1 c.1.2 c.2 m).2.

(** The cached image is the image of the cached address. *)
Definition coherent (m : QRCodeManager) : Prop :=
  forall image, _cached_image m = Some image ->
    exists ip, _cached_ip m = Some ip /\ image = generate_qr_code ip (port m).

End Images.

End Pairing.

(** ** Vocabulary of the further statements *)

(** Calls on a controller manager. *)
Inductive manager_call : Type :=
| CallCreate (ok : bool) (pid : nat)
| CallRemove (ok : bool) (pid : nat)
| CallDisconnectAll (ok : bool).

Definition run_manager_call (cm : ControllerManager) (c : manager_call) : ControllerManager :=
  match c with
  | CallCreate ok pid => (create_controller ok pid cm).1.2
  | CallRemove ok pid => (remove_controller ok pid cm).1
  | CallDisconnectAll ok => (disconnect_all ok cm).1
  end.

(** Every controller sits at its own id, between 1 and MAX_CONTROLLERS, and
    holds a device. *)
Definition manager_ok (cm : ControllerManager) : Prop :=
  forall pid c, controllers cm !! pid = Some c ->
    1 <= pid <= MAX_CONTROLLERS /\ is_connected c = true /\ Controller.player_id c = pid.

(** The flag that tracks a mouse button. *)
Definition tracked (btn : Button) (mk : MouseKeyboardController) : bool :=
  match btn with
  | Button_left => left_button_pressed mk
  | Button_right => right_button_pressed mk
  end.

(** A server that listens, with two players connected. *)
Definition serving : Lifecycle.ServerProcess :=
  {| Lifecycle.core := two_players; Lifecycle._server := true; Lifecycle._running := true;
     Lifecycle.on_status_change := true; Lifecycle.statuses := ["running"] |}.

(** The keyboard of the host: which keys are down, and what a call into
    pynput does to them. *)
Definition key_step (held : key -> bool) (e : effect) : key -> bool :=
  match e with
  | EvKeyPress k => fun x => if decide (x = k) then true else held x
  | EvKeyRelease k => fun x => if decide (x = k) then false else held x
  | _ => held
  end.

Definition held_after (held : key -> bool) (evs : list effect) : key -> bool :=
  foldl key_step held evs.

(** Whether a key is pressed somewhere in a list of calls. *)
Definition pressed_in (evs : list effect) (k : key) : bool :=
  existsb (fun e => match e with EvKeyPress k' => bool_decide (k' = k) | _ => false end) evs.

(** A key that is struck: nothing, or one key pressed and released. *)
Definition struck (evs : list effect) : Prop :=
  evs = [] \/ exists x, evs = [EvKeyPress x; EvKeyRelease x].

(** A keyboard message that asks for a key combination. *)
Definition combo_message (keys : list Json.value) : Data :=
  {[ "type" := Json.Str "keyboard"; "action" := Json.Str "combo";
     "keys" := Json.Arr keys ]}.

(** Number of devices created for [pid] in a trace. *)
Definition is_creation (pid : nat) (e : effect) : bool :=
  match e with
  | EvDeviceCreate p true => p =? pid
  | _ => false
  end.

Definition creations (pid : nat) (tr : list effect) : nat :=
  length (List.filter (is_creation pid) tr).

(** A report whose triggers lie in [0,1] and whose axes lie in [-1,1]. *)
Definition in_bounds (r : XUSB_REPORT) : Prop :=
  Py.in_range 0 1 (left_trigger r) /\ Py.in_range 0 1 (right_trigger r) /\
  Py.in_range (-1) 1 (left_joystick r).1 /\ Py.in_range (-1) 1 (left_joystick r).2 /\
  Py.in_range (-1) 1 (right_joystick r).1 /\ Py.in_range (-1) 1 (right_joystick r).2.

Definition device_input_in_bounds (e : effect) : Prop :=
  match e with
  | EvDeviceUpdate _ r _ => in_bounds r
  | _ => True
  end.

(** What a message may emit: a submitted report with clamped analog values,
    or a call that is no device call. *)
Definition message_effect (e : effect) : Prop :=
  match e with
  | EvDeviceCreate _ _ | EvDeviceReset _ _ | EvDeviceDestroy _ | EvPlayerUpdate _ _ => False
  | EvDeviceUpdate _ r _ => in_bounds r
  | _ => True
  end.

(** The name [BUTTON_MAP] gives a button. *)
Definition button_name (b : XUSB_BUTTON) : string :=
  match b with
  | XUSB_GAMEPAD_A => "a" | XUSB_GAMEPAD_B => "b"
  | XUSB_GAMEPAD_X => "x" | XUSB_GAMEPAD_Y => "y"
  | XUSB_GAMEPAD_LEFT_SHOULDER => "lb" | XUSB_GAMEPAD_RIGHT_SHOULDER => "rb"
  | XUSB_GAMEPAD_START => "start" | XUSB_GAMEPAD_BACK => "back"
  | XUSB_GAMEPAD_GUIDE => "guide"
  | XUSB_GAMEPAD_LEFT_THUMB => "l3" | XUSB_GAMEPAD_RIGHT_THUMB => "r3"
  | XUSB_GAMEPAD_DPAD_UP => "dpad_up" | XUSB_GAMEPAD_DPAD_DOWN => "dpad_down"
  | XUSB_GAMEPAD_DPAD_LEFT => "dpad_left" | XUSB_GAMEPAD_DPAD_RIGHT => "dpad_right"
  end.

(** A payload that names every button, all released. *)
Definition all_released : gmap string bool :=
  list_to_map ((fun kv : string * XUSB_BUTTON => (kv.1, false)) <$> map_to_list BUTTON_MAP).

(** The report a message submits, read off the effects of [update_state]. *)
Definition submitted (evs : list effect) : option XUSB_REPORT :=
  match evs with
  | [EvDeviceUpdate _ r _] => Some r
  | _ => None
  end.

(** * Properties *)

(** ** Allocation of player ids *)

Lemma find_seq_first (P : nat -> bool) (n a i : nat) :
  List.find P (seq a n) = Some i ->
  P i = true /\ a <= i < a + n /\ forall j, a <= j < i -> P j = false.
Proof.
  revert a. induction n as [|n IH]; intros a; simpl; [discriminate|].
  destruct (P a) eqn:Ha.
  - intros [= <-]. repeat split; [done|lia|lia|intros j Hj; lia].
  - intros Hf. destruct (IH _ Hf) as (Hi & Hr & Hlow).
    repeat split; [done|lia|lia|].
    intros j Hj. destruct (decide (j = a)) as [->|Hne]; [done|].
    apply Hlow. lia.
Qed.

Lemma find_seq_none (P : nat -> bool) (n a : nat) :
  List.find P (seq a n) = None -> forall j, a <= j < a + n -> P j = false.
Proof.
  revert a. induction n as [|n IH]; intros a; simpl; [intros _ j Hj; lia|].
  destruct (P a) eqn:Ha; [discriminate|].
  intros Hf j Hj. destruct (decide (j = a)) as [->|Hne]; [done|].
  apply (IH _ Hf). lia.
Qed.

Lemma available_id_lowest (sm : SessionManager) (i : nat) :
  _get_available_id sm = Some i ->
  sessions sm !! i = None /\ 1 <= i <= MAX_PLAYERS /\
  forall j, 1 <= j < i -> is_Some (sessions sm !! j).
Proof.
  unfold _get_available_id. intros Hf.
  apply find_seq_first in Hf as (Hi & Hr & Hlow).
  apply bool_decide_eq_true in Hi.
  repeat split; [done|lia|lia|].
  intros j Hj. specialize (Hlow j Hj). apply bool_decide_eq_false in Hlow.
  by apply not_eq_None_Some.
Qed.

Lemma available_id_none (sm : SessionManager) :
  _get_available_id sm = None ->
  forall j, 1 <= j <= MAX_PLAYERS -> is_Some (sessions sm !! j).
Proof.
  unfold _get_available_id. intros Hf j Hj.
  pose proof (find_seq_none _ _ _ Hf j) as Hlow. simpl in Hlow.
  assert (1 <= j < 1 + MAX_PLAYERS) as Hr by lia.
  apply Hlow, bool_decide_eq_false in Hr.
  by apply not_eq_None_Some.
Qed.

Lemma available_id_full (sm : SessionManager) :
  (forall j, 1 <= j <= MAX_PLAYERS -> is_Some (sessions sm !! j)) ->
  _get_available_id sm = None.
Proof.
  intros Hall. destruct (_get_available_id sm) as [i|] eqn:Hf; [|done].
  apply available_id_lowest in Hf as (Hnone & Hr & _).
  destruct (Hall i Hr) as [s Hs]. congruence.
Qed.

(** ** Values and their types *)

Lemma eqb_str_spec (v : Json.value) (s : string) :
  Json.eqb_str v s = true <-> v = Json.Str s.
Proof.
  destruct v as [| | |s'| |]; simpl; try (split; intros H; discriminate H).
  rewrite String.eqb_eq. split; [by intros ->|by intros [= ->]].
Qed.

Lemma eqb_str_other (v : Json.value) (s : string) :
  v <> Json.Str s -> Json.eqb_str v s = false.
Proof.
  intros Hne. destruct (Json.eqb_str v s) eqn:Heq; [|done].
  by apply eqb_str_spec in Heq.
Qed.

(** ** The registry invariant *)

Lemma consistent_init observer : consistent (init observer).
Proof. split; simpl; intros *; rewrite lookup_empty; discriminate. Qed.

Lemma update_state_keeps ok buttons triggers axes c :
  is_connected (update_state ok buttons triggers axes c).1.1 = is_connected c /\
  Controller.player_id (update_state ok buttons triggers axes c).1.1 = Controller.player_id c.
Proof.
  unfold update_state, raised. destruct (gamepad c) as [g|] eqn:Hg; [|done].
  destruct (is_connected c) eqn:Hc; simpl; [|by rewrite Hc].
  assert (_connected c = true) as Hcon.
  { unfold is_connected in Hc. by apply andb_true_iff in Hc as [-> _]. }
  repeat case_match; simpl; unfold is_connected; simpl; rewrite ?Hcon, ?Hg; done.
Qed.

Lemma update_activity_lookup t pid sm p :
  sessions (update_activity t pid sm) !! p =
  if decide (p = pid) then PlayerSession_update_activity t <$> sessions sm !! p
  else sessions sm !! p.
Proof.
  unfold update_activity. destruct (decide (p = pid)) as [->|Hne].
  - destruct (sessions sm !! pid) eqn:Hs; simpl; [by rewrite lookup_insert_eq|by rewrite Hs].
  - destruct (sessions sm !! pid); simpl; [by rewrite lookup_insert_ne|done].
Qed.

Lemma update_activity_connections t pid sm :
  websocket_to_player (update_activity t pid sm) = websocket_to_player sm.
Proof. unfold update_activity. by destruct (sessions sm !! pid). Qed.

(** ** What each step of a handler does to the server *)

(** The handshake, case by case. *)
Lemma accept_spec (w : World) (ws : WebSocket) (st : ControllerServer) :
  consistent st ->
  let h := (handle_client_accept w ws st).1 in
  let st' := (handle_client_accept w ws st).2 in
  on_player_update st' = on_player_update st /\
  _mouse_keyboard_controller st' = _mouse_keyboard_controller st /\
  match websocket_to_player (session_manager st) !! ws with
  | Some pid =>
      session_manager st' = session_manager st /\
      controller_manager st' = controller_manager st /\
      h = (if send_ok w ws then Welcomed pid else Aborted) /\
      trace st' = trace st ++ [EvSend ws (FrConnected pid) (send_ok w ws)]
  | None =>
      match _get_available_id (session_manager st) with
      | None =>
          session_manager st' = session_manager st /\
          controller_manager st' = controller_manager st /\
          h = (if send_ok w ws then Rejected else Aborted) /\
          trace st' = trace st ++ EvSend ws (FrError full_message) (send_ok w ws)
                                  :: (if send_ok w ws then [EvClose ws] else [])
      | Some pid =>
          sessions (session_manager st') =
            <[pid := new_session (now w) pid ws]> (sessions (session_manager st)) /\
          websocket_to_player (session_manager st') =
            <[ws := pid]> (websocket_to_player (session_manager st)) /\
          controllers (controller_manager st') =
            (if device_ok w
             then <[pid := new_controller pid]> (controllers (controller_manager st))
             else controllers (controller_manager st)) /\
          h = (if send_ok w ws then Welcomed pid else Aborted) /\
          trace st' = trace st ++ [EvDeviceCreate pid (device_ok w)] ++ observed st pid true
                               ++ [EvSend ws (FrConnected pid) (send_ok w ws)]
      end
  end.
Proof.
  intros Hc. destruct st as [cm sm obs mk tr].
  unfold handle_client_accept, add_player, observed; simpl.
  destruct (websocket_to_player sm !! ws) as [pid|] eqn:Hws; simpl.
  { destruct (send_ok w ws); simpl; done. }
  destruct (_get_available_id sm) as [pid|] eqn:Hid; simpl.
  2:{ destruct (send_ok w ws); simpl; done. }
  apply available_id_lowest in Hid as (Hfree & Hr & _).
  unfold MAX_PLAYERS in Hr.
  assert (controllers cm !! pid = None) as Hctl.
  { destruct (controllers cm !! pid) as [c|] eqn:Hctl; [|done].
    destruct (inv_controller _ Hc _ _ Hctl) as ([s Hs] & _). simpl in Hs. congruence. }
  unfold _on_player_connected, create_controller, MAX_CONTROLLERS; simpl.
  replace ((pid <? 1) || (4 <? pid)) with false
    by (symmetry; apply orb_false_iff; split; apply Nat.ltb_ge; lia).
  rewrite Hctl. unfold connect; simpl.
  destruct (device_ok w); destruct (send_ok w ws); simpl;
    rewrite <- ?app_assoc; simpl; done.
Qed.

(** The [finally] clause, case by case. *)
Lemma finally_spec (w : World) (ws : WebSocket) (e : loop_end) (st : ControllerServer) :
  consistent st ->
  let ok := (handle_client_finally w ws e st).1 in
  let st' := (handle_client_finally w ws e st).2 in
  on_player_update st' = on_player_update st /\
  _mouse_keyboard_controller st' = _mouse_keyboard_controller st /\
  ok = match e with Cancelled => false | _ => true end /\
  match websocket_to_player (session_manager st) !! ws with
  | None =>
      session_manager st' = session_manager st /\
      controller_manager st' = controller_manager st /\
      trace st' = trace st
  | Some pid =>
      sessions (session_manager st') = delete pid (sessions (session_manager st)) /\
      websocket_to_player (session_manager st') =
        delete ws (websocket_to_player (session_manager st)) /\
      (forall p, controllers (controller_manager st') !! p =
                 if decide (p = pid) then None
                 else controllers (controller_manager st) !! p) /\
      trace st' = trace st
        ++ match controllers (controller_manager st) !! pid with
           | Some _ => [EvDeviceReset pid (device_ok w); EvDeviceDestroy pid]
           | None => []
           end
        ++ observed st pid false
  end.
Proof.
  intros Hc. destruct st as [cm sm obs mk tr].
  unfold handle_client_finally, remove_player, observed; simpl.
  destruct (websocket_to_player sm !! ws) as [pid|] eqn:Hws; simpl.
  2:{ by destruct e. }
  destruct (inv_connection _ Hc _ _ Hws) as (s & Hs & _). simpl in Hs.
  rewrite Hs; simpl.
  unfold _on_player_disconnected, remove_controller; simpl.
  destruct (controllers cm !! pid) as [c|] eqn:Hctl; simpl.
  - destruct (inv_controller _ Hc _ _ Hctl) as (_ & Hcon & Hpid). simpl in *.
    unfold is_connected in Hcon. apply andb_true_iff in Hcon as [_ Hg].
    apply bool_decide_eq_true in Hg.
    unfold disconnect. destruct (gamepad c) as [g|]; [|done]. simpl. rewrite Hpid.
    repeat split; try done; try (by destruct e).
    intros p. destruct (decide (p = pid)) as [->|Hne];
      [by rewrite lookup_delete_eq|by rewrite lookup_delete_ne].
  - repeat split; try done; try (by destruct e).
    intros p. destruct (decide (p = pid)) as [->|Hne]; done.
Qed.

(** ** What a message can emit *)

Lemma releases_app pid tr1 tr2 :
  releases pid (tr1 ++ tr2) = releases pid tr1 + releases pid tr2.
Proof. unfold releases. by rewrite List.filter_app, length_app. Qed.

Lemma creations_app pid tr1 tr2 :
  creations pid (tr1 ++ tr2) = creations pid tr1 + creations pid tr2.
Proof. unfold creations. by rewrite List.filter_app, length_app. Qed.

Lemma message_effect_releases pid evs :
  Forall message_effect evs -> releases pid evs = 0.
Proof.
  induction 1 as [|e evs He _ IH]; [done|].
  change (e :: evs) with ([e] ++ evs). rewrite releases_app, IH.
  by destruct e.
Qed.

Lemma message_effect_creations pid evs :
  Forall message_effect evs -> creations pid evs = 0.
Proof.
  induction 1 as [|e evs He _ IH]; [done|].
  change (e :: evs) with ([e] ++ evs). rewrite creations_app, IH.
  by destruct e.
Qed.

Lemma message_effect_in_bounds evs :
  Forall message_effect evs -> Forall device_input_in_bounds evs.
Proof. intros Hev. eapply Forall_impl; [exact Hev|]. by intros []. Qed.

(** ** Clamping of analog values *)

Lemma Qltb_true (a b : Q) : Py.Qltb a b = true -> (a < b)%Q.
Proof.
  unfold Py.Qltb. intros H. apply negb_true_iff in H.
  apply Qnot_le_lt. intros Hle. apply Qle_bool_iff in Hle. congruence.
Qed.

Lemma Qltb_false (a b : Q) : Py.Qltb a b = false -> (b <= a)%Q.
Proof. unfold Py.Qltb. intros H. apply negb_false_iff in H. by apply Qle_bool_iff. Qed.

Lemma clamp_in_range (lo hi : Q) (v : Py.float) :
  (lo <= hi)%Q -> Py.in_range lo hi (Py.max (Py.Fin lo) (Py.min (Py.Fin hi) v)).
Proof.
  intros Hlh.
  assert (Py.in_range lo hi (Py.max (Py.Fin lo) (Py.Fin hi))) as Hhi.
  { unfold Py.max; simpl. destruct (Py.Qltb lo hi) eqn:H; simpl.
    - split; [done|apply Qle_refl].
    - split; [apply Qle_refl|done]. }
  destruct v as [q| | |]; unfold Py.min; simpl; try done.
  - destruct (Py.Qltb q hi) eqn:Hq; [|done].
    unfold Py.max; simpl. destruct (Py.Qltb lo q) eqn:Hl; simpl.
    + split; apply Qlt_le_weak; auto using Qltb_true.
    + split; [apply Qle_refl|done].
  - unfold Py.max; simpl. split; [apply Qle_refl|done].
Qed.

(** The clamp of the code is the clamp of the specification. *)
Lemma clamp_is_spec (lo hi : Q) (x : Py.float) :
  (lo <= hi)%Q ->
  is_value (clamp_spec lo hi x) (Py.max (Py.Fin lo) (Py.min (Py.Fin hi) x)).
Proof.
  intros Hlh.
  assert (forall q, (hi <= q)%Q ->
            is_value (if Py.Qltb q lo then lo else if Py.Qltb hi q then hi else q)
                     (Py.max (Py.Fin lo) (Py.Fin hi))) as Hup.
  { intros q Hq. unfold Py.max; simpl.
    destruct (Py.Qltb q lo) eqn:Hql.
    { apply Qltb_true in Hql. exfalso. apply (Qlt_not_le _ _ Hql). by eapply Qle_trans. }
    destruct (Py.Qltb lo hi) eqn:Hl; simpl.
    - destruct (Py.Qltb hi q) eqn:Hhq; [reflexivity|].
      apply Qltb_false in Hhq. by apply Qle_antisym.
    - apply Qltb_false in Hl.
      assert (lo == hi)%Q as Heq by (by apply Qle_antisym).
      destruct (Py.Qltb hi q) eqn:Hhq; [done|].
      apply Qltb_false in Hhq. rewrite Heq. by apply Qle_antisym. }
  assert (is_value hi (Py.max (Py.Fin lo) (Py.Fin hi))) as Hhi.
  { unfold Py.max; simpl. destruct (Py.Qltb lo hi) eqn:Hl; simpl; [reflexivity|].
    apply Qltb_false in Hl. by apply Qle_antisym. }
  destruct x as [q| | |]; unfold Py.min; simpl; try done.
  - destruct (Py.Qltb q hi) eqn:Hq.
    + apply Qltb_true in Hq. unfold Py.max; simpl.
      destruct (Py.Qltb lo q) eqn:Hl; simpl.
      * apply Qltb_true in Hl.
        destruct (Py.Qltb q lo) eqn:Hql.
        { apply Qltb_true in Hql. exfalso. apply (Qlt_not_le _ _ Hql). by apply Qlt_le_weak. }
        destruct (Py.Qltb hi q) eqn:Hhq; [|reflexivity].
        apply Qltb_true in Hhq. exfalso. apply (Qlt_not_le _ _ Hhq). by apply Qlt_le_weak.
      * apply Qltb_false in Hl.
        destruct (Py.Qltb q lo) eqn:Hql; [reflexivity|].
        apply Qltb_false in Hql.
        destruct (Py.Qltb hi q) eqn:Hhq.
        { apply Qltb_true in Hhq. exfalso. apply (Qlt_not_le _ _ Hhq). by apply Qlt_le_weak. }
        by apply Qle_antisym.
    + apply Qltb_false in Hq. by apply Hup.
Qed.

Lemma is_value_in_range (lo hi q : Q) (x : Py.float) :
  is_value q x -> (lo <= q)%Q -> (q <= hi)%Q -> Py.in_range lo hi x.
Proof.
  destruct x as [q'| | |]; simpl; try done.
  intros Heq Hlo Hhi. by rewrite Heq.
Qed.

Lemma clamped_in_range (lo hi : Q) (d : gmap string Json.value) (key : string) (x : Py.float) :
  (lo <= hi)%Q -> clamped lo hi d key = inl x -> Py.in_range lo hi x.
Proof.
  unfold clamped. intros Hlh. destruct (Json.number _); [|done].
  intros [= <-]. by apply clamp_in_range.
Qed.

Lemma clamped_numbers (lo hi : Q) (m : gmap string Py.float) (key : string) :
  clamped lo hi (Json.Num <$> m) key
  = inl (Py.max (Py.Fin lo) (Py.min (Py.Fin hi) (default (Py.Fin 0) (m !! key)))).
Proof. unfold clamped. rewrite lookup_fmap. by destruct (m !! key). Qed.

Lemma update_state_effects ok buttons triggers axes c :
  Forall message_effect (update_state ok buttons triggers axes c).1.2.
Proof.
  unfold update_state, raised. destruct (gamepad c) as [g|]; [|constructor].
  destruct (is_connected c); [|constructor].
  destruct buttons as [| | | | |bs]; try constructor.
  destruct triggers as [| | | | |ts]; try constructor.
  destruct (clamped 0 1 ts "lt") as [lt|e] eqn:Hlt; [|constructor].
  destruct (clamped 0 1 ts "rt") as [rt|e] eqn:Hrt; [|constructor].
  destruct axes as [| | | | |ax]; try constructor.
  destruct (clamped (-1) 1 ax "left_x") as [lx|e] eqn:Hlx; [|constructor].
  destruct (clamped (-1) 1 ax "left_y") as [ly|e] eqn:Hly; [|constructor].
  destruct (clamped (-1) 1 ax "right_x") as [rx|e] eqn:Hrx; [|constructor].
  destruct (clamped (-1) 1 ax "right_y") as [ry|e] eqn:Hry; [|constructor].
  assert (in_bounds
            (report (right_joystick_float rx ry (left_joystick_float lx ly
               (right_trigger_float rt (left_trigger_float lt
                  (foldl update_button g (map_to_list bs)))))))) as Hb.
  { unfold in_bounds; simpl.
    repeat split; eapply clamped_in_range; try eassumption; done. }
  destruct ok; simpl; (constructor; [exact Hb|constructor]).
Qed.

Lemma update_state_releases ok buttons triggers axes c p :
  releases p (update_state ok buttons triggers axes c).1.2 = 0.
Proof. apply message_effect_releases, update_state_effects. Qed.

(** ** The input sink *)

Lemma press_modifier_raised lower (items : list Json.value) evs pressed e :
  foldl (press_modifier lower) (evs, pressed, Py.Raises e) items = (evs, pressed, Py.Raises e).
Proof. induction items as [|k items IH]; [done|]. simpl. apply IH. Qed.

(** The loop over the keys before the last presses the modifiers it finds,
    in order, until a key that is no string stops it. *)
Lemma press_modifiers lower (items : list Json.value) evs pressed :
  exists ms o,
    foldl (press_modifier lower) (evs, pressed, Py.Returns) items
    = (evs ++ ((fun m => EvKeyPress (Special m)) <$> ms), pressed ++ ms, o) /\
    (o = Py.Returns \/ o = Py.Raises Py.AttributeError).
Proof.
  revert evs pressed. induction items as [|k items IH]; intros evs pressed; simpl.
  { exists [], Py.Returns. rewrite !app_nil_r. auto. }
  assert (exists ms o,
            foldl (press_modifier lower) (evs, pressed, Py.Raises Py.AttributeError) items
            = (evs ++ ((fun m => EvKeyPress (Special m)) <$> ms), pressed ++ ms, o) /\
            (o = Py.Returns \/ o = Py.Raises Py.AttributeError)) as Hstop.
  { exists [], (Py.Raises Py.AttributeError).
    rewrite press_modifier_raised, !app_nil_r. auto. }
  destruct k as [| | |k| |]; try exact Hstop.
  destruct (combination_key_map !! lower k) as [m|]; [|apply IH].
  destruct (IH (evs ++ [EvKeyPress (Special m)]) (pressed ++ [m])) as (ms & o & Heq & Ho).
  exists (m :: ms), o. split; [|done]. rewrite Heq. simpl. by rewrite <- !app_assoc.
Qed.

Lemma strike_struck lower key_map key evs :
  strike lower key_map key = inl evs -> struck evs.
Proof.
  unfold strike, struck. destruct key as [| | |name| |]; try discriminate.
  destruct (key_map !! lower name); [intros [= <-]; right; by eexists|].
  destruct (Py.len name =? 1); intros [= <-]; [right; by eexists|by left].
Qed.

Lemma strike_raised lower key_map key e :
  strike lower key_map key = inr e -> e = Py.AttributeError.
Proof.
  unfold strike. destruct key as [| | |name| |]; try (by intros [= <-]).
  destruct (key_map !! lower name); [discriminate|].
  destruct (Py.len name =? 1); discriminate.
Qed.

(** The calls of [key_combination]: the modifiers go down; when the call
    returns the last key was struck and the modifiers came up in reverse
    order, and when it raises that is all. *)
Lemma key_combination_shape lower keys mk :
  (key_combination lower keys mk).1.1 = mk /\
  exists ms,
    match (key_combination lower keys mk).2 with
    | Py.Returns =>
        exists final, struck final /\
          (key_combination lower keys mk).1.2
          = ((fun m => EvKeyPress (Special m)) <$> ms) ++ final
            ++ ((fun m => EvKeyRelease (Special m)) <$> rev ms)
    | Py.Raises e =>
        (key_combination lower keys mk).1.2 = (fun m => EvKeyPress (Special m)) <$> ms /\
        e <> Py.External
    end.
Proof.
  unfold key_combination. destruct (sequence keys) as [items|]; [|split; [done|by exists []]].
  destruct (press_modifiers lower (removelast items) [] []) as (ms & o & -> & Ho).
  simpl. destruct Ho as [-> | ->]; [|split; [done|by exists ms]].
  destruct (last items) as [final_key|]; [|split; [done|by exists ms]].
  destruct (strike lower combination_key_map final_key) as [final|e] eqn:Hfinal.
  - split; [done|]. exists ms. simpl. exists final. split; [|done].
    by eapply strike_struck.
  - split; [done|]. exists ms. simpl. split; [done|].
    apply strike_raised in Hfinal. by subst.
Qed.

Lemma press_key_shape lower name mk :
  (press_key lower name mk).1.1 = mk /\
  match (press_key lower name mk).2 with
  | Py.Returns => struck (press_key lower name mk).1.2
  | Py.Raises e => (press_key lower name mk).1.2 = [] /\ e <> Py.External
  end.
Proof.
  unfold press_key. destruct (strike lower press_key_map name) as [evs|e] eqn:Hs; simpl.
  - split; [done|]. by eapply strike_struck.
  - apply strike_raised in Hs. by subst.
Qed.

Lemma struck_effects evs : struck evs -> Forall message_effect evs.
Proof. intros [-> | [x ->]]; by repeat constructor. Qed.

Lemma key_combination_effects lower keys mk :
  Forall message_effect (key_combination lower keys mk).1.2.
Proof.
  destruct (key_combination_shape lower keys mk) as (_ & ms & Hshape).
  assert (forall f : Key -> effect,
            (forall m, message_effect (f m)) -> forall l, Forall message_effect (f <$> l))
    as Hmap.
  { intros f Hf l. apply Forall_forall. intros e He.
    apply list_elem_of_fmap in He as (m & -> & _). apply Hf. }
  destruct (key_combination lower keys mk).2.
  - destruct Hshape as (final & Hfinal & ->). rewrite !Forall_app.
    split; [by apply Hmap|]. split; [by apply struck_effects|by apply Hmap].
  - destruct Hshape as [-> _]. by apply Hmap.
Qed.

Lemma press_key_effects lower name mk :
  Forall message_effect (press_key lower name mk).1.2.
Proof.
  destruct (press_key_shape lower name mk) as (_ & Hshape).
  destruct (press_key lower name mk).2.
  - by apply struck_effects.
  - destruct Hshape as [-> _]. constructor.
Qed.

Lemma mouse_action_effects data mk : Forall message_effect (mouse_action data mk).1.2.
Proof.
  unfold mouse_action, move_mouse, click, press_mouse, release_mouse, scroll.
  repeat (case_match; simpl; try done); repeat constructor.
Qed.

Lemma keyboard_action_effects data mk : Forall message_effect (keyboard_action data mk).1.2.
Proof.
  unfold keyboard_action.
  destruct (Json.eqb_str _ "type").
  { unfold type_text. destruct (Json.truthy _); simpl; by repeat constructor. }
  destruct (Json.eqb_str _ "key"); [apply press_key_effects|].
  destruct (Json.eqb_str _ "combo"); [|constructor].
  destruct (Json.truthy _); [apply key_combination_effects|constructor].
Qed.

Lemma mouse_action_controller data mk :
  (mouse_action data mk).2 <> Py.Returns -> (mouse_action data mk).1.1 = mk.
Proof.
  unfold mouse_action, move_mouse.
  repeat (case_match; simpl; try done).
Qed.

(** A step is cut short by the first call into pynput that raises, or runs
    as the method says. *)
Lemma interrupted_cases calls mk r :
  interrupted calls mk r = r \/
  exists n, calls = Some n /\ n < length r.1.2 /\
            interrupted calls mk r = (mk, take n r.1.2, Py.Raises Py.External).
Proof.
  unfold interrupted. destruct calls as [n|]; [|by left].
  destruct (n <? length r.1.2) eqn:Hn; [|by left].
  right. exists n. apply Nat.ltb_lt in Hn. done.
Qed.

Lemma interrupted_effects calls mk r :
  Forall message_effect r.1.2 -> Forall message_effect (interrupted calls mk r).1.2.
Proof.
  intros Hr. destruct (interrupted_cases calls mk r) as [-> | (n & _ & _ & ->)]; [done|].
  simpl. by apply Forall_take.
Qed.

(** The mouse and keyboard branches, case by case. *)
Lemma sink_branch_cases w pid act st :
  (sink_ok w = false /\
   sink_branch w pid act st = (emit [EvSinkError] st, Py.Raises Py.External)) \/
  (sink_ok w = true /\
   exists mk' evs o,
     interrupted (sink_calls w) (default MouseKeyboard.init (_mouse_keyboard_controller st))
                 (act (default MouseKeyboard.init (_mouse_keyboard_controller st)))
     = (mk', evs, o) /\
     sink_branch w pid act st =
       (match o with
        | Py.Returns =>
            set_session_manager (update_activity (now w) pid (session_manager st))
                                (emit evs (set_mouse_keyboard mk' st))
        | Py.Raises _ => emit evs (set_mouse_keyboard mk' st)
        end, o)).
Proof.
  unfold sink_branch, get_mouse_keyboard_controller.
  destruct (sink_ok w); [right|by left]. split; [done|].
  destruct (_mouse_keyboard_controller st) as [mk|]; simpl.
  - destruct (interrupted (sink_calls w) mk (act mk)) as [[mk' evs] o].
    exists mk', evs, o. split; [done|]. by destruct o.
  - destruct (interrupted (sink_calls w) MouseKeyboard.init (act MouseKeyboard.init))
      as [[mk' evs] o].
    exists mk', evs, o. split; [done|]. by destruct o.
Qed.

Lemma sink_branch_registry w pid act st :
  session_manager (sink_branch w pid act st).1 =
    (match (sink_branch w pid act st).2 with
     | Py.Returns => update_activity (now w) pid (session_manager st)
     | Py.Raises _ => session_manager st
     end) /\
  controller_manager (sink_branch w pid act st).1 = controller_manager st.
Proof.
  destruct (sink_branch_cases w pid act st) as [[_ ->] | (_ & mk' & evs & o & _ & ->)];
    [done|]. by destruct o.
Qed.

Lemma sink_branch_trace w pid act st :
  (forall mk, Forall message_effect (act mk).1.2) ->
  exists evs, trace (sink_branch w pid act st).1 = trace st ++ evs /\
              Forall message_effect evs.
Proof.
  intros Hact.
  destruct (sink_branch_cases w pid act st) as [[_ ->] | (_ & mk' & evs & o & Hcut & ->)].
  { eexists. split; [done|]. by repeat constructor. }
  exists evs. split; [by destruct o|].
  pose proof (interrupted_effects (sink_calls w)
                (default MouseKeyboard.init (_mouse_keyboard_controller st))
                _ (Hact (default MouseKeyboard.init (_mouse_keyboard_controller st)))) as Hev.
  by rewrite Hcut in Hev.
Qed.

(** ** Frames never change who is registered or bound *)

Lemma same_bindings_refl st : same_bindings st st.
Proof. by split. Qed.

Lemma same_bindings_emit evs st :
  (forall p, releases p evs = 0) -> same_bindings st (emit evs st).
Proof.
  intros Hev. split; simpl; try done.
  intros p. rewrite releases_app, Hev. lia.
Qed.

Lemma same_bindings_trans st1 st2 st3 :
  same_bindings st1 st2 -> same_bindings st2 st3 -> same_bindings st1 st3.
Proof.
  intros [] []. split; intros; etrans; eauto.
Qed.

Lemma same_bindings_activity t pid st :
  same_bindings st (set_session_manager (update_activity t pid (session_manager st)) st).
Proof.
  split; simpl; try done.
  - apply update_activity_connections.
  - intros p. rewrite update_activity_lookup.
    destruct (decide (p = pid)); [|done].
    by destruct (sessions (session_manager st) !! p).
Qed.

Lemma same_bindings_mouse_keyboard mk st : same_bindings st (set_mouse_keyboard mk st).
Proof. by split. Qed.

Lemma same_bindings_controller pid c c' st :
  controllers (controller_manager st) !! pid = Some c ->
  is_connected c' = is_connected c ->
  Controller.player_id c' = Controller.player_id c ->
  same_bindings st (set_controller pid c' st).
Proof.
  intros Hc Hcon Hid. split; simpl; try done.
  intros p. destruct (decide (p = pid)) as [->|Hne].
  - rewrite lookup_insert_eq, Hc. simpl. by rewrite Hcon, Hid.
  - by rewrite lookup_insert_ne.
Qed.

Lemma sink_branch_same w pid act st :
  (forall mk, Forall message_effect (act mk).1.2) ->
  same_bindings st (sink_branch w pid act st).1.
Proof.
  intros Hact.
  destruct (sink_branch_cases w pid act st) as [[_ ->] | (_ & mk' & evs & o & Hcut & ->)].
  { by apply same_bindings_emit. }
  pose proof (interrupted_effects (sink_calls w)
                (default MouseKeyboard.init (_mouse_keyboard_controller st))
                _ (Hact (default MouseKeyboard.init (_mouse_keyboard_controller st)))) as Hev.
  rewrite Hcut in Hev. simpl in Hev.
  assert (same_bindings st (emit evs (set_mouse_keyboard mk' st))) as Hsame.
  { eapply same_bindings_trans; [apply (same_bindings_mouse_keyboard mk')|].
    apply same_bindings_emit. intros p. by apply message_effect_releases. }
  destruct o; simpl; [|done].
  eapply same_bindings_trans; [exact Hsame|].
  apply (same_bindings_activity (now w) pid (emit evs (set_mouse_keyboard mk' st))).
Qed.

Lemma dispatch_same w pid data st : same_bindings st (dispatch w pid data st).1.
Proof.
  unfold dispatch.
  destruct (Json.eqb_str _ "input").
  { destruct (get_controller pid (controller_manager st)) as [c|] eqn:Hc;
      [|apply same_bindings_refl].
    pose proof (update_state_keeps (device_ok w)
                  (default (Json.Obj ∅) (data !! "buttons"))
                  (default (Json.Obj ∅) (data !! "triggers"))
                  (default (Json.Obj ∅) (data !! "axes")) c) as [Hk1 Hk2].
    pose proof (update_state_releases (device_ok w)
                  (default (Json.Obj ∅) (data !! "buttons"))
                  (default (Json.Obj ∅) (data !! "triggers"))
                  (default (Json.Obj ∅) (data !! "axes")) c) as Hk3.
    destruct (update_state _ _ _ _ c) as [[c' evs] o]. simpl in *.
    assert (same_bindings st (emit evs (set_controller pid c' st))) as Hsame.
    { eapply same_bindings_trans; [by eapply same_bindings_controller|].
      by apply same_bindings_emit. }
    destruct o; simpl; [|done].
    eapply same_bindings_trans; [exact Hsame|].
    apply (same_bindings_activity (now w) pid (emit evs (set_controller pid c' st))). }
  destruct (Json.eqb_str _ "mouse");
    [apply sink_branch_same, mouse_action_effects|].
  destruct (Json.eqb_str _ "keyboard");
    [apply sink_branch_same, keyboard_action_effects|].
  destruct (Json.eqb_str _ "ping").
  { destruct (get_session pid (session_manager st)); [|apply same_bindings_refl].
    by apply same_bindings_emit. }
  destruct (Json.eqb_str _ "disconnect"); [|apply same_bindings_refl].
  destruct (get_session pid (session_manager st)); [|apply same_bindings_refl].
  by apply same_bindings_emit.
Qed.

Lemma process_message_same w pid m st :
  same_bindings st (_process_message w pid m st).
Proof.
  destruct m as [|[]]; simpl; try apply same_bindings_refl. apply dispatch_same.
Qed.

(** ** The invariant holds in every reachable state *)

Lemma consistent_same st st' : consistent st -> same_bindings st st' -> consistent st'.
Proof.
  intros Hc Hs. split.
  - intros ws pid Hws. rewrite (sb_connections _ _ Hs) in Hws.
    destruct (inv_connection _ Hc _ _ Hws) as (s & Hsess & Hw).
    pose proof (sb_sessions _ _ Hs pid) as Hp. rewrite Hsess in Hp. simpl in Hp.
    destruct (sessions (session_manager st') !! pid) as [s'|]; [|done].
    exists s'. split; [done|]. simpl in Hp. congruence.
  - intros pid s' Hsess.
    pose proof (sb_sessions _ _ Hs pid) as Hp. rewrite Hsess in Hp. simpl in Hp.
    destruct (sessions (session_manager st) !! pid) as [s|] eqn:Hold; [|done].
    simpl in Hp. injection Hp as Hid Hw.
    destruct (inv_session _ Hc _ _ Hold) as (H1 & H2 & H3).
    rewrite (sb_connections _ _ Hs), Hw. repeat split; [done|lia|lia|congruence].
  - intros pid c' Hctl.
    pose proof (sb_controllers _ _ Hs pid) as Hp. rewrite Hctl in Hp. simpl in Hp.
    destruct (controllers (controller_manager st) !! pid) as [c|] eqn:Hold; [|done].
    simpl in Hp. injection Hp as Hcon Hid.
    destruct (inv_controller _ Hc _ _ Hold) as ([s Hsess] & H2 & H3).
    pose proof (sb_sessions _ _ Hs pid) as Hq. rewrite Hsess in Hq.
    repeat split; [|congruence|congruence].
    destruct (sessions (session_manager st') !! pid); [eauto|done].
Qed.

Lemma consistent_accept w ws st :
  consistent st -> consistent (handle_client_accept w ws st).2.
Proof.
  intros Hc. pose proof (accept_spec w ws st Hc) as (_ & _ & Hspec).
  set (st' := (handle_client_accept w ws st).2) in *. clearbody st'.
  destruct (websocket_to_player (session_manager st) !! ws) as [pid|] eqn:Hws.
  { destruct Hspec as (Hsm & Hcm & _). destruct Hc as [H1 H2 H3].
    split; rewrite ?Hsm, ?Hcm; done. }
  destruct (_get_available_id (session_manager st)) as [pid|] eqn:Hid.
  2:{ destruct Hspec as (Hsm & Hcm & _). destruct Hc as [H1 H2 H3].
      split; rewrite ?Hsm, ?Hcm; done. }
  destruct Hspec as (Hsess & Hconn & Hctl & _).
  apply available_id_lowest in Hid as (Hfree & Hr & _).
  split.
  - intros ws' pid'. rewrite Hconn, Hsess. intros Hl.
    destruct (decide (ws' = ws)) as [->|Hne].
    + rewrite lookup_insert_eq in Hl. injection Hl as <-.
      rewrite lookup_insert_eq. eauto.
    + rewrite lookup_insert_ne in Hl by done.
      destruct (inv_connection _ Hc _ _ Hl) as (s & Hs & Hw).
      exists s. split; [|done]. rewrite lookup_insert_ne; [done|congruence].
  - intros pid' s. rewrite Hconn, Hsess. intros Hl.
    destruct (decide (pid' = pid)) as [->|Hne].
    + rewrite lookup_insert_eq in Hl. injection Hl as <-. simpl.
      rewrite lookup_insert_eq. done.
    + rewrite lookup_insert_ne in Hl by done.
      destruct (inv_session _ Hc _ _ Hl) as (H1 & H2 & H3).
      rewrite lookup_insert_ne; [done|congruence].
  - intros pid' c. rewrite Hctl, Hsess. intros Hl.
    destruct (decide (pid' = pid)) as [->|Hne].
    + rewrite lookup_insert_eq. split; [eauto|].
      destruct (device_ok w).
      * rewrite lookup_insert_eq in Hl. by injection Hl as <-.
      * destruct (inv_controller _ Hc _ _ Hl) as ([s Hs] & _). congruence.
    + rewrite lookup_insert_ne by done.
      apply (inv_controller _ Hc).
      destruct (device_ok w); [by rewrite lookup_insert_ne in Hl|done].
Qed.

Lemma consistent_finally w ws e st :
  consistent st -> consistent (handle_client_finally w ws e st).2.
Proof.
  intros Hc. pose proof (finally_spec w ws e st Hc) as (_ & _ & _ & Hspec).
  set (st' := (handle_client_finally w ws e st).2) in *. clearbody st'.
  destruct (websocket_to_player (session_manager st) !! ws) as [pid|] eqn:Hws.
  2:{ destruct Hspec as (Hsm & Hcm & _). destruct Hc as [H1 H2 H3].
      split; rewrite ?Hsm, ?Hcm; done. }
  destruct Hspec as (Hsess & Hconn & Hctl & _).
  destruct (inv_connection _ Hc _ _ Hws) as (s0 & Hs0 & Hw0).
  split.
  - intros ws' pid'. rewrite Hconn, Hsess. intros Hl.
    destruct (decide (ws' = ws)) as [->|Hne]; [by rewrite lookup_delete_eq in Hl|].
    rewrite lookup_delete_ne in Hl by done.
    destruct (inv_connection _ Hc _ _ Hl) as (s & Hs & Hw).
    exists s. split; [|done]. rewrite lookup_delete_ne; [done|].
    intros <-. congruence.
  - intros pid' s. rewrite Hconn, Hsess. intros Hl.
    destruct (decide (pid' = pid)) as [->|Hne]; [by rewrite lookup_delete_eq in Hl|].
    rewrite lookup_delete_ne in Hl by done.
    destruct (inv_session _ Hc _ _ Hl) as (H1 & H2 & H3).
    rewrite lookup_delete_ne; [done|]. intros Heq. rewrite <- Heq in H1. congruence.
  - intros pid' c. rewrite Hctl, Hsess.
    destruct (decide (pid' = pid)) as [->|Hne]; [done|].
    rewrite lookup_delete_ne by done. apply (inv_controller _ Hc).
Qed.

Lemma consistent_step st ev : consistent st -> consistent (step st ev).
Proof.
  intros Hc. destruct ev as [w ws|w pid m|w ws e]; simpl.
  - by apply consistent_accept.
  - eapply consistent_same; [done|apply process_message_same].
  - by apply consistent_finally.
Qed.

Lemma reachable_consistent st : reachable st -> consistent st.
Proof.
  induction 1 as [observer|st ev _ IH];
    [apply consistent_init|by apply consistent_step].
Qed.

Lemma reachable_run st evs : reachable st -> reachable (run st evs).
Proof.
  revert st. induction evs as [|ev evs IH]; intros st Hr; simpl; [done|].
  apply IH. by constructor.
Qed.

(** ** Controller snapshots *)

Lemma update_button_other (items : list (string * Json.value)) (g : VX360Gamepad)
    (b : XUSB_BUTTON) :
  (forall name v, (name, v) ∈ items -> BUTTON_MAP !! name <> Some b) ->
  wButtons (report (foldl update_button g items)) b = wButtons (report g) b.
Proof.
  revert g. induction items as [|[name v] items IH]; intros g Hno; simpl; [done|].
  rewrite IH.
  - unfold update_button; simpl.
    destruct (BUTTON_MAP !! name) as [b'|] eqn:Hb; [|done].
    assert (b <> b') as Hne.
    { intros ->. apply (Hno name v); [left|done]. }
    destruct (Json.truthy v); simpl; by destruct (decide (b = b')).
  - intros n p Hin. apply (Hno n p). by right.
Qed.

(** The report a connected controller submits for a snapshot of booleans
    and numbers. *)
Lemma update_state_connected ok buttons triggers axes c :
  is_connected c = true ->
  exists g r,
    gamepad c = Some g /\
    update_state ok (Json.bools buttons) (Json.numbers triggers) (Json.numbers axes) c =
      ({| Controller.player_id := Controller.player_id c;
          gamepad := Some {| report := r |};
          state := if ok then {| Controller.buttons := Json.Bool <$> buttons;
                                 Controller.triggers := Json.Num <$> triggers;
                                 Controller.axes := Json.Num <$> axes |}
                   else state c;
          _connected := _connected c |},
       [EvDeviceUpdate (Controller.player_id c) r ok],
       if ok then Py.Returns else Py.Raises Py.External) /\
    wButtons r
      = wButtons (report (foldl update_button g (map_to_list (Json.Bool <$> buttons)))) /\
    left_trigger r =
      Py.max (Py.Fin 0) (Py.min (Py.Fin 1) (default (Py.Fin 0) (triggers !! "lt"))) /\
    right_trigger r =
      Py.max (Py.Fin 0) (Py.min (Py.Fin 1) (default (Py.Fin 0) (triggers !! "rt"))) /\
    left_joystick r =
      (Py.max (Py.Fin (-1)) (Py.min (Py.Fin 1) (default (Py.Fin 0) (axes !! "left_x"))),
       Py.max (Py.Fin (-1)) (Py.min (Py.Fin 1) (default (Py.Fin 0) (axes !! "left_y")))) /\
    right_joystick r =
      (Py.max (Py.Fin (-1)) (Py.min (Py.Fin 1) (default (Py.Fin 0) (axes !! "right_x"))),
       Py.max (Py.Fin (-1)) (Py.min (Py.Fin 1) (default (Py.Fin 0) (axes !! "right_y")))).
Proof.
  intros Hc. unfold update_state, Json.bools, Json.numbers. rewrite Hc.
  unfold is_connected in Hc. apply andb_true_iff in Hc as [_ Hg].
  apply bool_decide_eq_true in Hg.
  destruct (gamepad c) as [g|]; [|done].
  rewrite !clamped_numbers.
  eexists g, _. split; [done|]. split; [destruct ok; reflexivity|]. simpl. done.
Qed.

(** C4. Every snapshot of numbers applied to a bound controller is handed
    to the device with both triggers clamped to [0,1] and the four axes
    clamped to [-1,1], in the sense of the specification: a value within its
    range is kept, a value beyond it is replaced by the nearest bound; so a
    trigger of 1.5 is applied as 1.0 and an axis of -5 as -1.0.  The
    snapshot is always submitted, whatever the values are: an out-of-range
    value is corrected, not rejected. *)
Theorem update_state_clamps ok buttons triggers axes c :
  is_connected c = true ->
  let applied :=
    update_state ok (Json.bools buttons) (Json.numbers triggers) (Json.numbers axes) c in
  exists r,
    applied.1.2 = [EvDeviceUpdate (Controller.player_id c) r ok] /\
    applied.2 = (if ok then Py.Returns else Py.Raises Py.External) /\
    gamepad applied.1.1 = Some {| report := r |} /\
    is_value (clamp_spec 0 1 (default (Py.Fin 0) (triggers !! "lt"))) (left_trigger r) /\
    is_value (clamp_spec 0 1 (default (Py.Fin 0) (triggers !! "rt"))) (right_trigger r) /\
    is_value (clamp_spec (-1) 1 (default (Py.Fin 0) (axes !! "left_x"))) (left_joystick r).1 /\
    is_value (clamp_spec (-1) 1 (default (Py.Fin 0) (axes !! "left_y"))) (left_joystick r).2 /\
    is_value (clamp_spec (-1) 1 (default (Py.Fin 0) (axes !! "right_x"))) (right_joystick r).1 /\
    is_value (clamp_spec (-1) 1 (default (Py.Fin 0) (axes !! "right_y"))) (right_joystick r).2 /\
    in_bounds r /\
    (triggers !! "lt" = Some (Py.Fin 1.5) -> left_trigger r = Py.Fin 1) /\
    (axes !! "left_x" = Some (Py.Fin (-5)) -> (left_joystick r).1 = Py.Fin (-1)).
Proof.
  intros Hc applied. subst applied.
  destruct (update_state_connected ok buttons triggers axes c Hc)
    as (g & r & Hg & Hup & _ & Hlt & Hrt & Hl & Hr).
  exists r. rewrite Hup, Hlt, Hrt, Hl, Hr. simpl.
  split; [done|]. split; [done|]. split; [done|].
  repeat (split; [by apply clamp_is_spec|]).
  split; [unfold in_bounds; rewrite Hlt, Hrt, Hl, Hr; simpl;
          repeat split; by apply clamp_in_range|].
  split; by intros ->.
Qed.

Lemma update_state_clamps_witness :
  exists r,
    (update_state true (Json.bools ∅)
       (Json.numbers {[ "lt" := Py.Fin 1.5; "rt" := Py.Fin 0.25 ]})
       (Json.numbers {[ "left_x" := Py.Fin (-5); "left_y" := Py.Fin (-0.5) ]})
       (new_controller 1)).1.2 = [EvDeviceUpdate 1 r true] /\
    left_trigger r = Py.Fin 1 /\ (left_joystick r).1 = Py.Fin (-1) /\
    is_value 0.25 (right_trigger r) /\ is_value (-0.5) (left_joystick r).2 /\
    is_value 0 (right_joystick r).1.
Proof.
  destruct (update_state_clamps true ∅ {[ "lt" := Py.Fin 1.5; "rt" := Py.Fin 0.25 ]}
              {[ "left_x" := Py.Fin (-5); "left_y" := Py.Fin (-0.5) ]}
              (new_controller 1) eq_refl)
    as (r & Hev & _ & _ & _ & Hrt & _ & Hly & Hrx & _ & _ & Hlt & Hlx).
  exists r. split; [exact Hev|].
  split; [apply Hlt; by vm_compute|]. split; [apply Hlx; by vm_compute|].
  split; [exact Hrt|]. split; [exact Hly|exact Hrx].
Defined.

(** C9. In a snapshot applied to a bound controller, a trigger or axis that
    the payload leaves out is submitted as 0.0, whatever it was before,
    while a button that no name in the payload refers to keeps the pressed
    state it had. *)
Theorem update_state_absent_fields ok buttons triggers axes c g :
  is_connected c = true ->
  gamepad c = Some g ->
  exists r,
    (update_state ok (Json.bools buttons) (Json.numbers triggers) (Json.numbers axes) c).1.2
      = [EvDeviceUpdate (Controller.player_id c) r ok] /\
    (triggers !! "lt" = None -> left_trigger r = Py.Fin 0) /\
    (triggers !! "rt" = None -> right_trigger r = Py.Fin 0) /\
    (axes !! "left_x" = None -> (left_joystick r).1 = Py.Fin 0) /\
    (axes !! "left_y" = None -> (left_joystick r).2 = Py.Fin 0) /\
    (axes !! "right_x" = None -> (right_joystick r).1 = Py.Fin 0) /\
    (axes !! "right_y" = None -> (right_joystick r).2 = Py.Fin 0) /\
    (forall b,
       (forall name pressed, buttons !! name = Some pressed -> BUTTON_MAP !! name <> Some b) ->
       wButtons r b = wButtons (report g) b).
Proof.
  intros Hc Hg.
  destruct (update_state_connected ok buttons triggers axes c Hc)
    as (g' & r & Hg' & Hup & Hb & Hlt & Hrt & Hl & Hr).
  assert (g' = g) as -> by congruence.
  exists r. rewrite Hup, Hlt, Hrt, Hl, Hr, Hb. simpl.
  repeat split; try (by intros ->).
  intros b Hno. apply update_button_other.
  intros name v Hin. apply elem_of_map_to_list in Hin.
  rewrite lookup_fmap in Hin.
  destruct (buttons !! name) as [pressed|] eqn:Hname; [|done].
  by apply (Hno name pressed).
Qed.

(** The controller starts with [b] pressed, the left trigger at 0.75 and the
    right stick halfway up; the snapshot names [a] only. *)
Lemma update_state_absent_fields_witness :
  (fun g => (wButtons (report g) XUSB_GAMEPAD_A, wButtons (report g) XUSB_GAMEPAD_B,
             left_trigger (report g), (right_joystick (report g)).2))
    <$> gamepad used_controller
  = Some (false, true, Py.Fin 0.75, Py.Fin 0.5) /\
  exists r,
    (update_state true (Json.bools {[ "a" := true ]}) (Json.numbers ∅) (Json.numbers ∅)
                  used_controller).1.2 = [EvDeviceUpdate 1 r true] /\
    left_trigger r = Py.Fin 0 /\ (right_joystick r).2 = Py.Fin 0 /\
    wButtons r XUSB_GAMEPAD_B = true.
Proof.
  split; [by vm_compute|].
  assert (exists g, gamepad used_controller = Some g /\
                    wButtons (report g) XUSB_GAMEPAD_B = true) as (g & Hg & Hb)
    by (eexists; split; by vm_compute).
  destruct (update_state_absent_fields true {[ "a" := true ]} ∅ ∅ used_controller g
              ltac:(by vm_compute) Hg)
    as (r & Hev & Hlt & _ & _ & _ & _ & Hry & Hkeep).
  exists r. split; [exact Hev|]. split; [by apply Hlt|]. split; [by apply Hry|].
  rewrite Hkeep; [exact Hb|].
  intros name pressed Hl.
  apply lookup_singleton_Some in Hl as [<- _]. by vm_compute.
Defined.

(** C7. A controller snapshot for a player without an active binding changes
    nothing: an input message for a player the manager has no controller for
    leaves the whole server as it was (no device call, no state change, no
    exception), whatever its payload is, and a controller that holds no
    device ignores the update. *)
Theorem apply_without_binding_is_noop w pid (data : Data) st ok buttons triggers axes c :
  (data !! "type" = Some (Json.Str "input") ->
   get_controller pid (controller_manager st) = None ->
   _process_message w pid (Json (Json.Obj data)) st = st /\
   dispatch w pid data st = (st, Py.Returns)) /\
  (is_connected c = false ->
   update_state ok buttons triggers axes c = (c, [], Py.Returns)).
Proof.
  split.
  - intros Hty Hctl. unfold _process_message, dispatch. rewrite Hty, Hctl. done.
  - intros Hc. unfold update_state. rewrite Hc. by destruct (gamepad c).
Qed.

Lemma apply_without_binding_is_noop_witness :
  _process_message calm 1 (Json (Json.Obj (input_message {[ "a" := true ]} ∅ ∅))) (init false)
    = init false /\
  update_state true (Json.bools {[ "a" := true ]}) (Json.numbers ∅) (Json.Str "up")
               (Controller.init 1)
    = (Controller.init 1, [], Py.Returns).
Proof.
  destruct (apply_without_binding_is_noop calm 1 (input_message {[ "a" := true ]} ∅ ∅)
              (init false) true (Json.bools {[ "a" := true ]}) (Json.numbers ∅)
              (Json.Str "up") (Controller.init 1)) as [Hmsg Hupd].
  split; [apply Hmsg; by vm_compute|apply Hupd; reflexivity].
Defined.

(** ** The registry *)

(** C6. Adding a connection that is already registered returns the player id
    it already has, creates no session and leaves the registry, and so its
    number of live sessions, unchanged; no observer is notified. *)
Theorem add_player_idempotent {Ext : Type}
    (on_player_connected : option (nat -> Ext -> Ext))
    (t : timestamp) (ws : WebSocket) (sm : SessionManager) (ext : Ext) (pid : nat) :
  get_player_id ws sm = Some pid ->
  add_player on_player_connected t ws sm ext = (Some pid, sm, ext) /\
  get_player_count (add_player on_player_connected t ws sm ext).1.2 = get_player_count sm.
Proof.
  unfold get_player_id, add_player. intros ->. done.
Qed.

Lemma add_player_idempotent_witness :
  let sm := session_manager (run (init false) [Accept calm 10; Accept calm 11]) in
  add_player (Some (fun _ (n : nat) => S n)) 7 11 sm 0 = (Some 2, sm, 0) /\
  get_player_count sm = 2.
Proof.
  intros sm.
  destruct (add_player_idempotent (Some (fun _ (n : nat) => S n)) 7 11 sm 0 2 eq_refl)
    as [Hadd _].
  split; [exact Hadd|reflexivity].
Defined.

(** ** The mouse buttons, pressed and released *)

Lemma run_call_in_sync mk c : in_sync mk -> in_sync (run_call mk c).
Proof.
  intros [Hl Hr]. destruct mk as [[hl hr] l r]; simpl in *; subst.
  destruct c as [button|button]; unfold run_call, press_mouse, release_mouse, to_button;
    simpl; destruct (Json.eqb_str button "left") eqn:Hleft;
    try (apply eqb_str_spec in Hleft as ->; simpl; by destruct hl);
    simpl; destruct (Json.eqb_str button "right"); simpl; by destruct hr.
Qed.

(** C10. Pressing and releasing a mouse button is guarded by the tracked
    state of that button: pressing a button that is tracked as pressed and
    releasing one that is not make no host call and change nothing, and after
    any sequence of press and release calls the tracked flag of each button
    equals whether the host holds it. *)
Theorem mouse_press_release_guarded (calls : list mouse_call) (mk : MouseKeyboardController) :
  in_sync (foldl run_call MouseKeyboard.init calls) /\
  (left_button_pressed mk = true -> press_mouse (Json.Str "left") mk = (mk, [])) /\
  (right_button_pressed mk = true -> press_mouse (Json.Str "right") mk = (mk, [])) /\
  (left_button_pressed mk = false -> release_mouse (Json.Str "left") mk = (mk, [])) /\
  (right_button_pressed mk = false -> release_mouse (Json.Str "right") mk = (mk, [])).
Proof.
  split.
  - assert (forall start, in_sync start -> in_sync (foldl run_call start calls)) as Hall.
    { induction calls as [|c calls IH]; intros start Hs; simpl; [done|].
      apply IH. by apply run_call_in_sync. }
    apply Hall. by split.
  - unfold press_mouse, release_mouse; simpl.
    repeat split; intros ->; simpl; done.
Qed.

Lemma mouse_press_release_guarded_witness :
  let mk := foldl run_call MouseKeyboard.init
              [CallPress (Json.Str "left"); CallPress (Json.Str "left")] in
  in_sync mk /\ press_mouse (Json.Str "left") mk = (mk, []) /\
  release_mouse (Json.Str "right") mk = (mk, []).
Proof.
  intros mk.
  destruct (mouse_press_release_guarded
              [CallPress (Json.Str "left"); CallPress (Json.Str "left")] mk)
    as (Hsync & Hpl & _ & _ & Hrr).
  split; [exact Hsync|]. split; [apply Hpl|apply Hrr]; reflexivity.
Defined.

(** ** Connecting up to four players *)

Lemma next_id_after_prefix (sm : SessionManager) (n : nat) :
  n < MAX_PLAYERS ->
  (forall j, is_Some (sessions sm !! j) <-> 1 <= j <= n) ->
  _get_available_id sm = Some (S n).
Proof.
  intros Hn Hdom. destruct (_get_available_id sm) as [i|] eqn:Hid.
  - apply available_id_lowest in Hid as (Hfree & Hr & Hlow).
    assert (~ (1 <= i <= n)) as Hout.
    { intros Hin. apply Hdom in Hin as [s Hs]. congruence. }
    destruct (decide (i = S n)) as [->|Hne]; [done|].
    assert (1 <= S n < i) as Hlt by lia.
    apply Hlow, Hdom in Hlt. lia.
  - pose proof (available_id_none sm Hid (S n)) as Hsome.
    assert (1 <= S n <= MAX_PLAYERS) as Hr by lia.
    apply Hsome, Hdom in Hr. lia.
Qed.

Lemma run_snoc st evs ev : run st (evs ++ [ev]) = step (run st evs) ev.
Proof. unfold run. by rewrite foldl_app. Qed.

Lemma accept_all_snoc attempts a :
  accept_all (attempts ++ [a]) = accept_all attempts ++ [Accept a.1 a.2].
Proof. unfold accept_all. by rewrite fmap_app. Qed.

(** The registry after the attempts of distinct connections on an empty
    server: the k-th connection (from 0) is player k+1 and nobody else is
    registered. *)
Lemma connect_prefix observer (attempts : list (World * WebSocket)) :
  NoDup attempts.*2 ->
  length attempts <= MAX_PLAYERS ->
  let st := run (init observer) (accept_all attempts) in
  (forall k ws, attempts.*2 !! k = Some ws ->
     websocket_to_player (session_manager st) !! ws = Some (S k)) /\
  (forall ws, ws ∉ attempts.*2 ->
     websocket_to_player (session_manager st) !! ws = None) /\
  (forall j, is_Some (sessions (session_manager st) !! j) <-> 1 <= j <= length attempts).
Proof.
  induction attempts as [|a l IH] using rev_ind; intros Hnd Hlen; simpl.
  { split; [|split].
    - intros k ws Hk. by rewrite lookup_nil in Hk.
    - intros ws _. apply lookup_empty.
    - intros j. rewrite lookup_empty. split; [by intros [s Hs]|lia]. }
  rewrite fmap_app in Hnd. simpl in Hnd.
  apply NoDup_app in Hnd as (Hndl & Hfresh & _).
  rewrite length_app in Hlen. simpl in Hlen.
  destruct (IH Hndl ltac:(lia)) as (HA & HB & HC). clear IH.
  rewrite accept_all_snoc, run_snoc. simpl.
  set (st := run (init observer) (accept_all l)) in *.
  assert (consistent st) as Hc.
  { apply reachable_consistent, reachable_run. constructor. }
  assert (a.2 ∉ l.*2) as Hnew.
  { intros Hin. apply (Hfresh _ Hin). left. }
  pose proof (accept_spec a.1 a.2 st Hc) as (_ & _ & Hspec).
  rewrite (HB _ Hnew) in Hspec.
  rewrite (next_id_after_prefix _ (length l)) in Hspec by (done || lia).
  destruct Hspec as (Hsess & Hconn & _).
  set (st' := (handle_client_accept a.1 a.2 st).2) in *. clearbody st'.
  rewrite Hsess, Hconn, fmap_app, length_app. simpl.
  split; [|split].
  - intros k ws Hk. apply lookup_app_Some in Hk as [Hk|[Hge Hk]].
    + rewrite lookup_insert_ne; [by apply HA|].
      intros <-. apply Hnew. by eapply list_elem_of_lookup_2.
    + rewrite length_fmap in Hge, Hk.
      destruct (k - length l) as [|d] eqn:Hd; [|by rewrite lookup_cons, lookup_nil in Hk].
      simpl in Hk. injection Hk as <-.
      rewrite lookup_insert_eq. f_equal. lia.
  - intros ws Hws. rewrite not_elem_of_app in Hws. destruct Hws as [Hl Ha].
    rewrite lookup_insert_ne; [by apply HB|].
    intros <-. apply Ha. left.
  - intros j. rewrite lookup_insert_is_Some, HC.
    destruct (decide (S (length l) = j)); split; intros; try lia.
Qed.

(** C1.  On an empty registry, the handshakes of N <= 4 distinct connections
    give the k-th of them (counting from 0) player id k+1: the ids are
    distinct, lie in 1..MAX_PLAYERS, and each is the lowest id not in use
    when it is assigned.  Once four connections hold the four slots, the
    handshake of a further connection creates no session and no controller:
    the server sends it the error frame and, the send done, closes it. *)
Theorem connect_attempts observer (attempts : list (World * WebSocket))
    (w : World) (ws : WebSocket) :
  NoDup attempts.*2 ->
  ws ∉ attempts.*2 ->
  length attempts <= MAX_PLAYERS ->
  let final := run (init observer) (accept_all attempts) in
  (forall k a, attempts !! k = Some a ->
     let before := run (init observer) (accept_all (take k attempts)) in
     let r := handle_client_accept a.1 a.2 before in
     1 <= S k <= MAX_PLAYERS /\
     sessions (session_manager before) !! S k = None /\
     (forall j, 1 <= j < S k -> is_Some (sessions (session_manager before) !! j)) /\
     r.1 = (if send_ok a.1 a.2 then Welcomed (S k) else Aborted) /\
     get_player_id a.2 (session_manager r.2) = Some (S k) /\
     get_player_id a.2 (session_manager final) = Some (S k)) /\
  (length attempts = MAX_PLAYERS ->
     let r := handle_client_accept w ws final in
     r.1 = (if send_ok w ws then Rejected else Aborted) /\
     session_manager r.2 = session_manager final /\
     controller_manager r.2 = controller_manager final /\
     trace r.2 = trace final ++ EvSend ws (FrError full_message) (send_ok w ws)
                             :: (if send_ok w ws then [EvClose ws] else [])).
Proof.
  intros Hnd Hws Hlen final.
  destruct (connect_prefix observer attempts Hnd Hlen) as (HA & HB & HC).
  fold final in HA, HB, HC.
  split.
  - intros k a Hk before r.
    pose proof (lookup_lt_Some _ _ _ Hk) as Hlt.
    pose proof (take_drop_middle _ _ _ Hk) as Hmid.
    assert (NoDup (take k attempts).*2 /\ a.2 ∉ (take k attempts).*2) as [Hndk Hnew].
    { rewrite <- Hmid, fmap_app in Hnd. simpl in Hnd.
      apply NoDup_app in Hnd as (H1 & H2 & _). split; [done|].
      intros Hin. apply (H2 _ Hin). left. }
    assert (length (take k attempts) = k) as Hlk by (rewrite length_take; lia).
    destruct (connect_prefix observer (take k attempts) Hndk ltac:(lia)) as (_ & HBk & HCk).
    fold before in HBk, HCk. rewrite Hlk in HCk.
    assert (consistent before) as Hc.
    { apply reachable_consistent, reachable_run. constructor. }
    pose proof (accept_spec a.1 a.2 before Hc) as (_ & _ & Hspec).
    fold r in Hspec. rewrite (HBk _ Hnew) in Hspec.
    pose proof (next_id_after_prefix _ k ltac:(lia) HCk) as Hid.
    rewrite Hid in Hspec. destruct Hspec as (_ & Hconn & _ & Hres & _).
    apply available_id_lowest in Hid as (Hfree & Hr & Hlow).
    repeat split; try done; try lia.
    + unfold get_player_id. rewrite Hconn. apply lookup_insert_eq.
    + apply HA. by rewrite list_lookup_fmap, Hk.
  - intros Hfull r.
    assert (consistent final) as Hc.
    { apply reachable_consistent, reachable_run. constructor. }
    pose proof (accept_spec w ws final Hc) as (_ & _ & Hspec).
    fold r in Hspec. rewrite (HB _ Hws) in Hspec.
    rewrite available_id_full in Hspec.
    + destruct Hspec as (? & ? & ? & ?). done.
    + intros j Hj. apply HC. lia.
Qed.

Lemma connect_attempts_witness :
  get_player_id 12 (session_manager (run (init false) (accept_all four_attempts))) = Some 3 /\
  (handle_client_accept calm 14 (run (init false) (accept_all four_attempts))).1 = Rejected /\
  session_manager (handle_client_accept calm 14 (run (init false) (accept_all four_attempts))).2
    = session_manager (run (init false) (accept_all four_attempts)).
Proof.
  assert (NoDup four_attempts.*2) as Hnd by (apply (bool_decide_unpack _); by vm_compute).
  assert (14 ∉ four_attempts.*2) as Hws by (apply (bool_decide_unpack _); by vm_compute).
  assert (length four_attempts <= MAX_PLAYERS) as Hlen by (vm_compute; lia).
  destruct (connect_attempts false four_attempts calm 14 Hnd Hws Hlen) as [Hk Hfull].
  destruct (Hk 2 (calm, 12) eq_refl) as (_ & _ & _ & _ & _ & Hid).
  destruct (Hfull eq_refl) as (Hrej & Hsm & _).
  split; [exact Hid|]. split; [exact Hrej|exact Hsm].
Defined.

(** ** A device that cannot be created *)

(** C2, as the code has it.  When the virtual device of a newly accepted
    connection cannot be created, no controller is registered for the player
    and the handshake goes on as for a bound player: the session stays
    registered, the connection is sent the welcome frame rather than an error
    frame and is not closed.  Input snapshots of that player are then
    ignored. *)
Theorem bind_failure_keeps_session w ws st pid :
  reachable st ->
  get_player_id ws (session_manager st) = None ->
  _get_available_id (session_manager st) = Some pid ->
  device_ok w = false ->
  let r := handle_client_accept w ws st in
  r.1 = (if send_ok w ws then Welcomed pid else Aborted) /\
  get_player_id ws (session_manager r.2) = Some pid /\
  get_session pid (session_manager r.2) = Some (new_session (now w) pid ws) /\
  get_controller pid (controller_manager r.2) = None /\
  trace r.2 = trace st ++ [EvDeviceCreate pid false] ++ observed st pid true
                       ++ [EvSend ws (FrConnected pid) (send_ok w ws)] /\
  (forall w' (data : Data), data !! "type" = Some (Json.Str "input") ->
     _process_message w' pid (Json (Json.Obj data)) r.2 = r.2).
Proof.
  intros Hreach Hws Hid Hdev r.
  pose proof (reachable_consistent _ Hreach) as Hc.
  pose proof (accept_spec w ws st Hc) as (_ & _ & Hspec).
  fold r in Hspec. unfold get_player_id in Hws.
  rewrite Hws, Hid, Hdev in Hspec.
  destruct Hspec as (Hsess & Hconn & Hctl & Hres & Htr).
  apply available_id_lowest in Hid as (Hfree & _ & _).
  assert (get_controller pid (controller_manager r.2) = None) as Hnone.
  { unfold get_controller. rewrite Hctl.
    destruct (controllers (controller_manager st) !! pid) as [c|] eqn:Hold; [|done].
    destruct (inv_controller _ Hc _ _ Hold) as ([s Hs] & _). congruence. }
  repeat split; try done.
  - unfold get_player_id. rewrite Hconn. apply lookup_insert_eq.
  - unfold get_session. rewrite Hsess. apply lookup_insert_eq.
  - intros w' data Hty. unfold _process_message, dispatch. by rewrite Hty, Hnone.
Qed.

Lemma bind_failure_keeps_session_witness :
  (handle_client_accept no_device 10 (init true)).1 = Welcomed 1 /\
  get_controller 1 (controller_manager (handle_client_accept no_device 10 (init true)).2)
    = None /\
  trace (handle_client_accept no_device 10 (init true)).2
    = [EvDeviceCreate 1 false; EvPlayerUpdate 1 true; EvSend 10 (FrConnected 1) true].
Proof.
  destruct (bind_failure_keeps_session no_device 10 (init true) 1
              (reachable_init true) eq_refl eq_refl eq_refl)
    as (Hres & _ & _ & Hctl & Htr & _).
  split; [exact Hres|]. split; [exact Hctl|exact Htr].
Defined.

(** C2 as stated fails: the device of the first connection cannot be
    created, and still the connection is welcomed as player 1, its session
    is registered without a controller, no error frame is sent and the
    socket is not closed. *)
Lemma bind_failure_not_rolled_back :
  (handle_client_accept no_device 10 (init false)).1 = Welcomed 1 /\
  get_player_id 10 (session_manager (handle_client_accept no_device 10 (init false)).2)
    = Some 1 /\
  get_session 1 (session_manager (handle_client_accept no_device 10 (init false)).2)
    = Some (new_session 100 1 10) /\
  get_controller 1 (controller_manager (handle_client_accept no_device 10 (init false)).2)
    = None /\
  trace (handle_client_accept no_device 10 (init false)).2
    = [EvDeviceCreate 1 false; EvSend 10 (FrConnected 1) true].
Proof. repeat split; reflexivity. Qed.

(** ** Activity timestamps *)

Lemma get_session_touched t pid sm s :
  get_session pid sm = Some s ->
  get_session pid (update_activity t pid sm) = Some (PlayerSession_update_activity t s).
Proof.
  unfold get_session. intros Hs. rewrite update_activity_lookup.
  destruct (decide (pid = pid)); [by rewrite Hs|done].
Qed.

(** A snapshot that raises has stored nothing and has submitted nothing that
    went through. *)
Lemma update_state_raised ok buttons triggers axes c e :
  (update_state ok buttons triggers axes c).2 = Py.Raises e ->
  state (update_state ok buttons triggers axes c).1.1 = state c /\
  Forall (fun ev => is_submission ev = false) (update_state ok buttons triggers axes c).1.2.
Proof.
  unfold update_state, raised. destruct (gamepad c) as [g|]; [|done].
  destruct (is_connected c); [|done].
  destruct buttons as [| | | | |bs]; try (by split; [|constructor]).
  destruct triggers as [| | | | |ts]; try (by split; [|constructor]).
  destruct (clamped 0 1 ts "lt") as [lt|e1]; [|by split; [|constructor]].
  destruct (clamped 0 1 ts "rt") as [rt|e1]; [|by split; [|constructor]].
  destruct axes as [| | | | |ax]; try (by split; [|constructor]).
  destruct (clamped (-1) 1 ax "left_x") as [lx|e1]; [|by split; [|constructor]].
  destruct (clamped (-1) 1 ax "left_y") as [ly|e1]; [|by split; [|constructor]].
  destruct (clamped (-1) 1 ax "right_x") as [rx|e1]; [|by split; [|constructor]].
  destruct (clamped (-1) 1 ax "right_y") as [ry|e1]; [|by split; [|constructor]].
  destruct ok; [done|]. simpl. intros _. split; [done|]. by repeat constructor.
Qed.

(** A message whose handling raises leaves the registry as it was. *)
Lemma dispatch_raised w pid data st e :
  (dispatch w pid data st).2 = Py.Raises e ->
  session_manager (dispatch w pid data st).1 = session_manager st.
Proof.
  unfold dispatch.
  destruct (Json.eqb_str _ "input").
  { destruct (get_controller pid (controller_manager st)) as [c|]; [|done].
    destruct (update_state _ _ _ _ c) as [[c' evs] o]. by destruct o. }
  assert (forall act, (sink_branch w pid act st).2 = Py.Raises e ->
            session_manager (sink_branch w pid act st).1 = session_manager st) as Hsink.
  { intros act Hr. destruct (sink_branch_registry w pid act st) as [-> _]. by rewrite Hr. }
  destruct (Json.eqb_str _ "mouse"); [apply Hsink|].
  destruct (Json.eqb_str _ "keyboard"); [apply Hsink|].
  destruct (Json.eqb_str _ "ping").
  { by destruct (get_session pid (session_manager st)). }
  destruct (Json.eqb_str _ "disconnect"); [|done].
  by destruct (get_session pid (session_manager st)).
Qed.

Lemma input_message_fields buttons triggers axes :
  input_message buttons triggers axes !! "type" = Some (Json.Str "input") /\
  input_message buttons triggers axes !! "buttons" = Some (Json.bools buttons) /\
  input_message buttons triggers axes !! "triggers" = Some (Json.numbers triggers) /\
  input_message buttons triggers axes !! "axes" = Some (Json.numbers axes).
Proof. repeat split; by vm_compute. Qed.

(** C5, as the code has it.  An input message for a player that has a
    controller and a mouse or keyboard message set the session's
    last-activity timestamp to the current time when their handling
    returns; a snapshot of booleans and numbers returns exactly when the
    device takes the update.  Whatever raises on the way (a field of the
    wrong type, a device or sink call) leaves the registry, timestamps
    included, as it was, and so do a ping and a disconnect message, which
    never touch the timestamp, and an input message for a player without a
    controller.  A snapshot that raises stores no state and submits nothing
    that goes through, though the buttons it named stay written in the
    pending report.  A message of unknown type, a text that is no JSON and
    a JSON value that is no object leave the whole server unchanged. *)
Theorem activity_timestamp w pid (data : Data) st s :
  get_session pid (session_manager st) = Some s ->
  let ty := default (Json.Str "") (data !! "type") in
  let st' := _process_message w pid (Json (Json.Obj data)) st in
  let o := (dispatch w pid data st).2 in
  (ty = Json.Str "input" \/ ty = Json.Str "mouse" \/ ty = Json.Str "keyboard" ->
   (ty = Json.Str "input" -> is_Some (get_controller pid (controller_manager st))) ->
   o = Py.Returns ->
   get_session pid (session_manager st') = Some (PlayerSession_update_activity (now w) s)) /\
  (forall e, o = Py.Raises e -> session_manager st' = session_manager st) /\
  (forall c buttons triggers axes,
     data = input_message buttons triggers axes ->
     get_controller pid (controller_manager st) = Some c ->
     is_connected c = true ->
     o = if device_ok w then Py.Returns else Py.Raises Py.External) /\
  (ty = Json.Str "mouse" \/ ty = Json.Str "keyboard" -> sink_ok w = false ->
   o = Py.Raises Py.External) /\
  (forall c e,
     ty = Json.Str "input" ->
     get_controller pid (controller_manager st) = Some c ->
     o = Py.Raises e ->
     (exists c', get_controller pid (controller_manager st') = Some c' /\
                 state c' = state c) /\
     exists evs, trace st' = trace st ++ evs /\
                 Forall (fun ev => is_submission ev = false) evs) /\
  (ty = Json.Str "ping" \/ ty = Json.Str "disconnect" ->
   session_manager st' = session_manager st /\
   controller_manager st' = controller_manager st) /\
  (ty = Json.Str "mouse" \/ ty = Json.Str "keyboard" ->
   controller_manager st' = controller_manager st) /\
  (ty = Json.Str "input" -> get_controller pid (controller_manager st) = None -> st' = st) /\
  (ty ∉ [Json.Str "input"; Json.Str "mouse"; Json.Str "keyboard";
         Json.Str "ping"; Json.Str "disconnect"] -> st' = st) /\
  _process_message w pid Invalid st = st /\
  (forall v, (forall d, v <> Json.Obj d) -> _process_message w pid (Json v) st = st).
Proof.
  intros Hs ty st' o. subst st' o. unfold _process_message.
  split; [|split; [|split; [|split; [|split; [|split; [|split; [|split; [|split; [|split]]]]]]]]].
  - unfold dispatch. intros [Hty | [Hty | Hty]] Hctl; subst ty; rewrite Hty; simpl.
    + destruct (Hctl Hty) as [c Hc]. rewrite Hc.
      destruct (update_state _ _ _ _ c) as [[c' evs] o]. destruct o; simpl; [|done].
      intros _. by apply get_session_touched.
    + destruct (sink_branch_cases w pid (mouse_action data) st)
        as [[_ ->] | (_ & mk' & evs & o & _ & ->)]; [done|].
      destruct o; simpl; [|done]. intros _. by apply get_session_touched.
    + destruct (sink_branch_cases w pid (keyboard_action data) st)
        as [[_ ->] | (_ & mk' & evs & o & _ & ->)]; [done|].
      destruct o; simpl; [|done]. intros _. by apply get_session_touched.
  - intros e. apply dispatch_raised.
  - intros c buttons triggers axes -> Hc Hcon.
    destruct (input_message_fields buttons triggers axes) as (Hty & Hb & Ht & Ha).
    unfold dispatch. rewrite Hty, Hb, Ht, Ha. simpl. rewrite Hc.
    destruct (update_state_connected (device_ok w) buttons triggers axes c Hcon)
      as (g & r & _ & -> & _).
    by destruct (device_ok w).
  - unfold dispatch, sink_branch.
    intros [Hty | Hty] Hko; subst ty; rewrite Hty; simpl; by rewrite Hko.
  - intros c e Hty Hc. subst ty. unfold dispatch. rewrite Hty. simpl. rewrite Hc.
    pose proof (update_state_raised (device_ok w)
                  (default (Json.Obj ∅) (data !! "buttons"))
                  (default (Json.Obj ∅) (data !! "triggers"))
                  (default (Json.Obj ∅) (data !! "axes")) c e) as Hraised.
    destruct (update_state _ _ _ _ c) as [[c' evs] o]. simpl in *.
    destruct o as [|e']; simpl; [done|]. intros [= ->].
    destruct (Hraised eq_refl) as [Hstate Hevs].
    split; [|by exists evs].
    exists c'. split; [|done]. unfold get_controller. simpl. apply lookup_insert_eq.
  - unfold dispatch. intros [Hty | Hty]; subst ty; rewrite Hty; simpl; rewrite Hs; done.
  - unfold dispatch. intros [Hty | Hty]; subst ty; rewrite Hty; simpl;
      apply sink_branch_registry.
  - intros Hty Hc. subst ty. unfold dispatch. rewrite Hty. simpl. by rewrite Hc.
  - intros Hty. subst ty. unfold dispatch.
    repeat (apply not_elem_of_cons in Hty as [? Hty]).
    repeat (rewrite eqb_str_other by done). done.
  - done.
  - intros v Hv. destruct v as [| | | | |d]; try done. by destruct (Hv d).
Qed.

Lemma activity_timestamp_witness :
  get_session 1 (session_manager
    (_process_message later 1 (Json (Json.Obj (input_message {[ "a" := true ]} ∅ ∅))) one_player))
    = Some (PlayerSession_update_activity 200 (new_session 100 1 10)) /\
  session_manager
    (_process_message no_device_later 1 (Json (Json.Obj (input_message {[ "a" := true ]} ∅ ∅)))
       one_player)
    = session_manager one_player /\
  get_session 1 (session_manager
    (_process_message later 1 (Json (Json.Obj (typed_message "mouse"))) one_player))
    = Some (PlayerSession_update_activity 200 (new_session 100 1 10)) /\
  session_manager (_process_message later 1 (Json (Json.Obj broken_snapshot)) one_player)
    = session_manager one_player /\
  _process_message later 1 (Json (Json.Obj (typed_message "vibrate"))) one_player = one_player.
Proof.
  destruct (activity_timestamp later 1 (input_message {[ "a" := true ]} ∅ ∅) one_player
              (new_session 100 1 10) eq_refl)
    as (Hinput & _).
  destruct (activity_timestamp no_device_later 1 (input_message {[ "a" := true ]} ∅ ∅)
              one_player (new_session 100 1 10) eq_refl)
    as (_ & Hfailed & _).
  destruct (activity_timestamp later 1 (typed_message "mouse") one_player
              (new_session 100 1 10) eq_refl)
    as (Hmouse & _).
  destruct (activity_timestamp later 1 broken_snapshot one_player
              (new_session 100 1 10) eq_refl)
    as (_ & Hbroken & _).
  destruct (activity_timestamp later 1 (typed_message "vibrate") one_player
              (new_session 100 1 10) eq_refl)
    as (_ & _ & _ & _ & _ & _ & _ & _ & Hunknown & _).
  split; [apply Hinput; [by left|by eexists|by vm_compute]|].
  split; [apply (Hfailed Py.External); by vm_compute|].
  split; [apply Hmouse; [by right; left|discriminate|by vm_compute]|].
  split; [apply (Hbroken Py.AttributeError); by vm_compute|].
  apply Hunknown.
  repeat (apply not_elem_of_cons; split; [discriminate|]). apply not_elem_of_nil.
Defined.

(** C5 as stated fails for ping and disconnect: both are dispatched at time
    200 (the pong is sent, the socket is closed) and the session keeps the
    timestamp 100 of its creation.  It also fails for an input message of a
    player whose device could not be created or does not take the update,
    for a mouse message when the sink is not there, and for a mouse move by
    NaN.  A snapshot whose triggers are a string is not applied and leaves
    the timestamp alone, but not all device state: the button it named is
    pressed in the pending report, nothing being submitted, and goes out
    with the next snapshot, which names no button. *)
Lemma dispatch_without_activity :
  now later = 200 /\ now sinkless = 200 /\ now no_device_later = 200 /\
  last_input_at <$> get_session 1 (session_manager one_player) = Some 100 /\
  trace one_player = [EvDeviceCreate 1 true; EvSend 10 (FrConnected 1) true] /\
  trace (_process_message later 1 (Json (Json.Obj (typed_message "ping"))) one_player)
    = trace one_player ++ [EvSend 10 FrPong true] /\
  last_input_at <$> get_session 1 (session_manager
      (_process_message later 1 (Json (Json.Obj (typed_message "ping"))) one_player))
    = Some 100 /\
  trace (_process_message later 1 (Json (Json.Obj (typed_message "disconnect"))) one_player)
    = trace one_player ++ [EvClose 10] /\
  last_input_at <$> get_session 1 (session_manager
      (_process_message later 1 (Json (Json.Obj (typed_message "disconnect"))) one_player))
    = Some 100 /\
  last_input_at <$> get_session 1 (session_manager
      (_process_message later 1 (Json (Json.Obj (input_message {[ "a" := true ]} ∅ ∅)))
         (handle_client_accept no_device 10 (init false)).2))
    = Some 100 /\
  last_input_at <$> get_session 1 (session_manager
      (_process_message no_device_later 1 (Json (Json.Obj (input_message {[ "a" := true ]} ∅ ∅)))
         one_player))
    = Some 100 /\
  last_input_at <$> get_session 1 (session_manager
      (_process_message sinkless 1 (Json (Json.Obj (typed_message "mouse"))) one_player))
    = Some 100 /\
  last_input_at <$> get_session 1 (session_manager
      (_process_message later 1 (Json (Json.Obj nan_move)) one_player))
    = Some 100 /\
  trace (_process_message later 1 (Json (Json.Obj nan_move)) one_player) = trace one_player /\
  last_input_at <$> get_session 1 (session_manager
      (_process_message later 1 (Json (Json.Obj broken_snapshot)) one_player))
    = Some 100 /\
  trace (_process_message later 1 (Json (Json.Obj broken_snapshot)) one_player) = trace one_player /\
  (fun g => wButtons (report g) XUSB_GAMEPAD_A)
    <$> (get_controller 1 (controller_manager one_player) ≫= gamepad) = Some false /\
  (fun g => wButtons (report g) XUSB_GAMEPAD_A)
    <$> (get_controller 1 (controller_manager
           (_process_message later 1 (Json (Json.Obj broken_snapshot)) one_player)) ≫= gamepad)
    = Some true /\
  (fun e => match e with
            | EvDeviceUpdate _ r ok => Some (wButtons r XUSB_GAMEPAD_A, ok)
            | _ => None
            end)
    <$> last (trace (_process_message later 1 (Json (Json.Obj (input_message ∅ ∅ ∅)))
                       (_process_message later 1 (Json (Json.Obj broken_snapshot)) one_player)))
    = Some (Some (true, true)).
Proof. repeat split; by vm_compute. Qed.

(** ** Cleanup when the receive loop ends *)

Lemma observed_releases st p q connected : releases p (observed st q connected) = 0.
Proof. unfold observed. by destruct (on_player_update st). Qed.

Create Rewrite HintDb releases.
#[global] Hint Rewrite releases_app observed_releases : releases.

(** Counts the device drops of a trace made of appended pieces. *)
Ltac count_releases := autorewrite with releases; unfold releases; simpl.

(** While the connection [ws] is neither accepted again nor ended, whatever
    else happens leaves its registration and its controller in place and
    drops no device of its player. *)
Lemma step_leaves_open st ev ws pid :
  consistent st ->
  websocket_to_player (session_manager st) !! ws = Some pid ->
  is_Some (controllers (controller_manager st) !! pid) ->
  leaves_open ws ev ->
  websocket_to_player (session_manager (step st ev)) !! ws = Some pid /\
  is_Some (controllers (controller_manager (step st ev)) !! pid) /\
  releases pid (trace (step st ev)) = releases pid (trace st).
Proof.
  intros Hc Hws Hctl Hopen. destruct ev as [w ws'|w p m|w ws' e]; simpl in *.
  - pose proof (accept_spec w ws' st Hc) as (_ & _ & Hspec).
    set (st' := (handle_client_accept w ws' st).2) in *. clearbody st'.
    destruct (websocket_to_player (session_manager st) !! ws') as [pid'|] eqn:Hws'.
    { destruct Hspec as (-> & -> & _ & ->).
      repeat split; [done|done|]. count_releases. lia. }
    destruct (_get_available_id (session_manager st)) as [pid'|] eqn:Hid.
    2:{ destruct Hspec as (-> & -> & _ & ->).
        repeat split; [done|done|]. count_releases.
        destruct (send_ok w ws'); simpl; lia. }
    destruct Hspec as (_ & -> & -> & _ & ->).
    rewrite lookup_insert_ne by done.
    repeat split; [done| |count_releases; lia].
    destruct (device_ok w); [|done].
    apply lookup_insert_is_Some. destruct (decide (pid' = pid)); auto.
  - pose proof (process_message_same w p m st) as Hs.
    rewrite (sb_connections _ _ Hs), (sb_releases _ _ Hs).
    split; [done|split; [|done]].
    pose proof (sb_controllers _ _ Hs pid) as Hp.
    destruct Hctl as [c Hctl]. rewrite Hctl in Hp.
    destruct (controllers (controller_manager (_process_message w p m st)) !! pid);
      [eauto|done].
  - pose proof (finally_spec w ws' e st Hc) as (_ & _ & _ & Hspec).
    set (st' := (handle_client_finally w ws' e st).2) in *. clearbody st'.
    destruct (websocket_to_player (session_manager st) !! ws') as [pid'|] eqn:Hws'.
    2:{ destruct Hspec as (-> & -> & ->). done. }
    destruct Hspec as (_ & -> & Hctl' & ->).
    assert (pid' <> pid) as Hne.
    { intros ->.
      destruct (inv_connection _ Hc _ _ Hws) as (s & Hs & Hw).
      destruct (inv_connection _ Hc _ _ Hws') as (s' & Hs' & Hw'). congruence. }
    rewrite lookup_delete_ne by done. rewrite Hctl'.
    destruct (decide (pid = pid')) as [|_]; [congruence|].
    repeat split; [done|done|].
    destruct (controllers (controller_manager st) !! pid'); count_releases; [|lia].
    apply Nat.eqb_neq in Hne. rewrite Hne. simpl. lia.
Qed.

Lemma run_leaves_open evs st ws pid :
  reachable st ->
  websocket_to_player (session_manager st) !! ws = Some pid ->
  is_Some (controllers (controller_manager st) !! pid) ->
  Forall (leaves_open ws) evs ->
  websocket_to_player (session_manager (run st evs)) !! ws = Some pid /\
  is_Some (controllers (controller_manager (run st evs)) !! pid) /\
  releases pid (trace (run st evs)) = releases pid (trace st).
Proof.
  revert st. induction evs as [|ev evs IH]; intros st Hr Hws Hctl Hopen; simpl; [done|].
  apply Forall_cons in Hopen as [Hev Hopen].
  destruct (step_leaves_open st ev ws pid (reachable_consistent _ Hr) Hws Hctl Hev)
    as (Hws' & Hctl' & Hrel).
  destruct (IH (step st ev) ltac:(by constructor) Hws' Hctl' Hopen) as (? & ? & Hrel').
  repeat split; [done|done|]. by rewrite Hrel'.
Qed.

Lemma run_app st evs1 evs2 : run st (evs1 ++ evs2) = run (run st evs1) evs2.
Proof. unfold run. apply foldl_app. Qed.

(** The turns of a handler are a run of the server. *)
Lemma turns_as_run pid (turns : list (list event * (World * message))) st :
  foldl (fun st turn => _process_message turn.2.1 pid turn.2.2 (run st turn.1)) st turns
  = run st (turn_events pid turns).
Proof.
  revert st. induction turns as [|turn turns IH]; intros st; simpl; [done|].
  rewrite IH, <- app_assoc, !run_app. done.
Qed.

Lemma turns_leave_open ws pid (turns : list (list event * (World * message))) :
  Forall (fun turn => Forall (leaves_open ws) turn.1) turns ->
  Forall (leaves_open ws) (turn_events pid turns).
Proof.
  induction 1 as [|turn turns Hturn _ IH]; simpl; [constructor|].
  rewrite !Forall_app. split; [|done]. split; [done|]. by repeat constructor.
Qed.

(** A welcomed connection is registered under the id it was told, and its
    handshake drops no device. *)
Lemma welcomed_registers w ws st pid :
  consistent st ->
  (handle_client_accept w ws st).1 = Welcomed pid ->
  websocket_to_player (session_manager (handle_client_accept w ws st).2) !! ws = Some pid /\
  forall p, releases p (trace (handle_client_accept w ws st).2) = releases p (trace st).
Proof.
  intros Hc Hwel. pose proof (accept_spec w ws st Hc) as (_ & _ & Hspec).
  rewrite Hwel in Hspec.
  destruct (websocket_to_player (session_manager st) !! ws) as [pid'|] eqn:Hws.
  { destruct Hspec as (-> & _ & Hres & ->).
    assert (pid' = pid) as -> by (destruct (send_ok w ws); congruence).
    split; [done|]. intros p. count_releases. lia. }
  destruct (_get_available_id (session_manager st)) as [pid'|].
  2:{ destruct Hspec as (_ & _ & Hres & _). by destruct (send_ok w ws). }
  destruct Hspec as (_ & -> & _ & Hres & ->).
  assert (pid' = pid) as -> by (destruct (send_ok w ws); congruence).
  split; [apply lookup_insert_eq|]. intros p. count_releases. lia.
Qed.

(** The [finally] clause of a registered and bound connection, after
    whatever happened while it stayed open. *)
Lemma finally_cleans st ws pid evs w e :
  reachable st ->
  websocket_to_player (session_manager st) !! ws = Some pid ->
  is_Some (controllers (controller_manager st) !! pid) ->
  Forall (leaves_open ws) evs ->
  let r := handle_client_finally w ws e (run st evs) in
  websocket_to_player (session_manager r.2) !! ws = None /\
  sessions (session_manager r.2) !! pid = None /\
  controllers (controller_manager r.2) !! pid = None /\
  releases pid (trace r.2) = S (releases pid (trace st)) /\
  (exists j, _get_available_id (session_manager r.2) = Some j /\ j <= pid) /\
  consistent r.2.
Proof.
  intros Hreach Hws Hctl Hopen r.
  destruct (run_leaves_open evs st ws pid Hreach Hws Hctl Hopen) as (Hws1 & [c Hc1] & Hrel).
  pose proof (reachable_consistent _ (reachable_run _ evs Hreach)) as Hc.
  pose proof (finally_spec w ws e (run st evs) Hc) as (_ & _ & Hres & Hspec).
  fold r in Hspec, Hres. rewrite Hws1, Hc1 in Hspec.
  destruct Hspec as (Hsess & Hconn & Hctl' & Htr).
  destruct (inv_connection _ Hc _ _ Hws1) as (s & Hs & _).
  destruct (inv_session _ Hc _ _ Hs) as (_ & Hr & _).
  assert (sessions (session_manager r.2) !! pid = None) as Hgone
    by (rewrite Hsess; apply lookup_delete_eq).
  split; [|split; [|split; [|split; [|split]]]].
  - rewrite Hconn. apply lookup_delete_eq.
  - done.
  - rewrite Hctl'. by destruct (decide (pid = pid)).
  - rewrite Htr, <- Hrel. count_releases. rewrite Nat.eqb_refl. simpl. lia.
  - destruct (_get_available_id (session_manager r.2)) as [j|] eqn:Hid.
    + exists j. split; [done|].
      apply available_id_lowest in Hid as (_ & _ & Hlow).
      destruct (decide (j <= pid)) as [|Hgt]; [done|].
      destruct (Hlow pid ltac:(lia)) as [s' Hs']. congruence.
    + destruct (available_id_none _ Hid pid Hr) as [s' Hs']. congruence.
  - by apply consistent_finally.
Qed.

(** C3.  Take a connection whose handshake succeeded: [handle_client]
    registered it as player [pid], bound a controller to that player and
    delivered the welcome frame.  Whatever frames it then receives, whatever
    the handlers of the other connections do while it waits, and however its
    receive loop ends (the peer closed, the connection failed or timed out,
    another exception, a cancellation), the handler ends with its cleanup
    done: the connection and its session are gone from the registry, the
    controller is removed, and the device of that player has been dropped
    exactly once since the handler started; the player id is free again, no
    lower or equal id being withheld, and the registry stays consistent: no
    controller without a session, no session without its connection. *)
Theorem cleanup_always_runs st w ws pid turns rest e w' :
  reachable st ->
  (handle_client_accept w ws st).1 = Welcomed pid ->
  is_Some (get_controller pid (controller_manager (handle_client_accept w ws st).2)) ->
  Forall (fun turn => Forall (leaves_open ws) turn.1) turns ->
  Forall (leaves_open ws) rest ->
  let st' := handle_client_among w ws turns rest e w' st in
  get_player_id ws (session_manager st') = None /\
  get_session pid (session_manager st') = None /\
  get_controller pid (controller_manager st') = None /\
  releases pid (trace st') = S (releases pid (trace st)) /\
  (exists j, _get_available_id (session_manager st') = Some j /\ j <= pid) /\
  consistent st'.
Proof.
  intros Hreach Hwel Hctl Hturns Hrest st'. subst st'.
  pose proof (reachable_consistent _ Hreach) as Hc.
  destruct (welcomed_registers w ws st pid Hc Hwel) as [Hws Hrel].
  assert (reachable (handle_client_accept w ws st).2) as Hreach1
    by apply (reachable_step st (Accept w ws) Hreach).
  unfold handle_client_among, get_player_id, get_session, get_controller in *.
  destruct (handle_client_accept w ws st) as [h st1]. simpl in *. subst h.
  rewrite turns_as_run, <- run_app. rewrite <- Hrel.
  apply finally_cleans; [done|done|done|].
  apply Forall_app. split; [by apply turns_leave_open|done].
Qed.

Lemma cleanup_always_runs_witness :
  get_player_id 12 (session_manager
    (handle_client_among calm 12 third_among_others [Accept calm 14]
                         ConnectionClosed later two_players)) = None /\
  get_controller 3 (controller_manager
    (handle_client_among calm 12 third_among_others [Accept calm 14]
                         ConnectionClosed later two_players)) = None /\
  releases 3 (trace
    (handle_client_among calm 12 third_among_others [Accept calm 14]
                         ConnectionClosed later two_players)) = 1.
Proof.
  assert (reachable two_players) as Hreach by (apply reachable_run; constructor).
  assert (is_Some (get_controller 3
            (controller_manager (handle_client_accept calm 12 two_players).2))) as Hctl
    by (by eexists).
  assert (Forall (fun turn : list event * (World * message) =>
                    Forall (leaves_open 12) turn.1) third_among_others) as Hturns
    by (repeat constructor; discriminate).
  assert (Forall (leaves_open 12) [Accept calm 14]) as Hrest
    by (repeat constructor; discriminate).
  destruct (cleanup_always_runs two_players calm 12 3 third_among_others [Accept calm 14]
              ConnectionClosed later Hreach eq_refl Hctl Hturns Hrest)
    as (Hws & _ & Hgone & Hrel & _).
  split; [exact Hws|]. split; [exact Hgone|]. rewrite Hrel. reflexivity.
Defined.

(** A session whose device could not be created has none to release: its
    cleanup removes the session and drops no device. *)
Lemma cleanup_without_binding st ws pid w e :
  reachable st ->
  get_player_id ws (session_manager st) = Some pid ->
  get_controller pid (controller_manager st) = None ->
  get_session pid (session_manager (handle_client_finally w ws e st).2) = None /\
  releases pid (trace (handle_client_finally w ws e st).2) = releases pid (trace st).
Proof.
  unfold get_player_id, get_session, get_controller. intros Hreach Hws Hctl.
  pose proof (finally_spec w ws e st (reachable_consistent _ Hreach)) as (_ & _ & _ & Hspec).
  rewrite Hws, Hctl in Hspec. destruct Hspec as (-> & _ & _ & ->).
  split; [apply lookup_delete_eq|].
  count_releases. lia.
Qed.

(** ** Broadcast *)

Lemma excluded_spec (exclude_player : option nat) (pid : nat) :
  1 <= pid -> excluded exclude_player pid = true <-> exclude_player = Some pid.
Proof.
  intros Hpid. unfold excluded. destruct exclude_player as [e|]; [|done].
  split.
  - intros H. apply andb_true_iff in H as [_ H]. apply Nat.eqb_eq in H. by subst.
  - intros [= <-]. apply andb_true_iff. split; [|apply Nat.eqb_refl].
    apply negb_true_iff, Nat.eqb_neq. lia.
Qed.

Lemma broadcast_elem ok message exclude_player sm e :
  e ∈ broadcast ok message exclude_player sm <->
  exists pid s, sessions sm !! pid = Some s /\ excluded exclude_player pid = false /\
                e = EvSend (websocket s) message (ok (websocket s)).
Proof.
  unfold broadcast. rewrite list_elem_of_In, in_flat_map. split.
  - intros ([pid s] & Hin & He). simpl in He.
    apply list_elem_of_In, elem_of_map_to_list in Hin.
    destruct (excluded exclude_player pid) eqn:Hex; [by destruct He|].
    destruct He as [<-|[]]. eauto.
  - intros (pid & s & Hs & Hex & ->). exists (pid, s). split.
    + by apply list_elem_of_In, elem_of_map_to_list.
    + simpl. rewrite Hex. by left.
Qed.

Lemma broadcast_targets ok ok' message exclude_player sm :
  send_target <$> broadcast ok' message exclude_player sm =
  send_target <$> broadcast ok message exclude_player sm.
Proof.
  unfold broadcast. induction (map_to_list (sessions sm)) as [|[pid s] l IH]; simpl; [done|].
  rewrite !fmap_app, IH. by destruct (excluded exclude_player pid).
Qed.

(** C8.  A broadcast attempts one send to the connection of every live
    session other than the excluded player, and to nobody else.  A send that
    raises is caught where it happens: which sends fail has no influence on
    which sends are attempted, so a failing recipient never keeps the message
    from another one, and the broadcast itself always completes. *)
Theorem broadcast_reaches_everyone st ok message exclude_player :
  reachable st ->
  (forall pid s,
     get_session pid (session_manager st) = Some s ->
     exclude_player <> Some pid ->
     EvSend (websocket s) message (ok (websocket s))
       ∈ broadcast ok message exclude_player (session_manager st)) /\
  (forall e,
     e ∈ broadcast ok message exclude_player (session_manager st) ->
     exists pid s,
       get_session pid (session_manager st) = Some s /\
       exclude_player <> Some pid /\
       e = EvSend (websocket s) message (ok (websocket s))) /\
  (forall ok',
     send_target <$> broadcast ok' message exclude_player (session_manager st) =
     send_target <$> broadcast ok message exclude_player (session_manager st)) /\
  NoDup (send_target <$> broadcast ok message exclude_player (session_manager st)).
Proof.
  intros Hreach. pose proof (reachable_consistent _ Hreach) as Hc.
  unfold get_session.
  assert (forall pid s, sessions (session_manager st) !! pid = Some s ->
            excluded exclude_player pid = false <-> exclude_player <> Some pid) as Hex.
  { intros pid s Hs. destruct (inv_session _ Hc _ _ Hs) as (_ & [Hpid _] & _).
    rewrite <- (excluded_spec exclude_player pid Hpid).
    by destruct (excluded exclude_player pid). }
  split; [|split; [|split]].
  - intros pid s Hs Hne. apply broadcast_elem. exists pid, s.
    split; [done|]. split; [|done]. by apply (Hex pid s).
  - intros e He. apply broadcast_elem in He as (pid & s & Hs & Hx & ->).
    exists pid, s. split; [done|]. split; [|done]. by apply (Hex pid s).
  - intros ok'. apply broadcast_targets.
  - unfold broadcast.
    pose proof (NoDup_map_to_list (sessions (session_manager st))) as Hnd.
    assert (forall kv, kv ∈ map_to_list (sessions (session_manager st)) ->
              sessions (session_manager st) !! kv.1 = Some kv.2) as Hin.
    { intros [pid s] H. by apply elem_of_map_to_list. }
    induction (map_to_list (sessions (session_manager st))) as [|[pid s] l IH]; simpl.
    { constructor. }
    apply NoDup_cons in Hnd as [Hnotin Hnd].
    rewrite fmap_app. 
    assert (NoDup (send_target <$> flat_map
              (fun kv : nat * PlayerSession =>
                 if excluded exclude_player kv.1 then []
                 else [EvSend (websocket kv.2) message (ok (websocket kv.2))]) l)) as Hrest.
    { apply IH; [done|]. intros kv Hkv. apply Hin. by right. }
    destruct (excluded exclude_player pid); simpl; [done|].
    apply NoDup_cons. split; [|done].
    intros Hdup. apply list_elem_of_fmap in Hdup as (e & He & Hel).
    apply list_elem_of_In, in_flat_map in Hel as ([pid' s'] & Hl & Hel). simpl in Hel.
    destruct (excluded exclude_player pid'); [done|].
    destruct Hel as [<-|[]]. simpl in He. injection He as Hw.
    apply list_elem_of_In in Hl.
    pose proof (Hin (pid, s) ltac:(left)) as Hs. simpl in Hs.
    pose proof (Hin (pid', s') ltac:(by right)) as Hs'. simpl in Hs'.
    destruct (inv_session _ Hc _ _ Hs) as (H1 & _).
    destruct (inv_session _ Hc _ _ Hs') as (H1' & _).
    assert (pid' = pid) as -> by congruence.
    assert (s' = s) as -> by congruence.
    done.
Qed.

Lemma broadcast_reaches_everyone_witness :
  EvSend 11 (FrText "rumble") true
    ∈ broadcast deaf_first (FrText "rumble") None (session_manager two_players) /\
  EvSend 10 (FrText "rumble") false
    ∈ broadcast deaf_first (FrText "rumble") None (session_manager two_players).
Proof.
  assert (reachable two_players) as Hreach by (apply reachable_run; constructor).
  destruct (broadcast_reaches_everyone two_players deaf_first (FrText "rumble") None Hreach)
    as (Hall & _).
  split.
  - apply (Hall 2 (new_session 100 2 11)); [reflexivity|discriminate].
  - apply (Hall 1 (new_session 100 1 10)); [reflexivity|discriminate].
Defined.

(** ** A handshake that is cut short *)

(** The welcome frame is sent outside the [try]: when that send raises, the
    handler unwinds before the receive loop and its [finally] clause, and the
    session and the controller registered a moment before stay behind. *)
Example welcome_failure_skips_cleanup :
  get_player_id 10
    (session_manager (handle_client mute 10 [] Exhausted calm (init false))) = Some 1 /\
  is_Some (get_controller 1
    (controller_manager (handle_client mute 10 [] Exhausted calm (init false)))) /\
  trace (handle_client mute 10 [] Exhausted calm (init false))
    = [EvDeviceCreate 1 true; EvSend 10 (FrConnected 1) false].
Proof. split; [reflexivity|]. split; [by eexists|reflexivity]. Qed.

(** For comparison, a connection that is welcomed and then closes. *)
Example welcomed_connection_is_cleaned :
  get_player_id 10
    (session_manager (handle_client calm 10 [] Exhausted calm (init false))) = None /\
  get_controller 1
    (controller_manager (handle_client calm 10 [] Exhausted calm (init false))) = None /\
  trace (handle_client calm 10 [] Exhausted calm (init false))
    = [EvDeviceCreate 1 true; EvSend 10 (FrConnected 1) true;
       EvDeviceReset 1 true; EvDeviceDestroy 1].
Proof. repeat split; reflexivity. Qed.

(** ** The scenario of the specification *)

(** Four clients take slots 1 to 4, a fifth is turned away, player 2 leaves
    and the next client gets slot 2; an out-of-range snapshot of player 1
    reaches its device with [a] pressed, [lt] at 1.0 and [left_x] at -1.0. *)
Example four_players_scenario :
  get_player_id 14 (session_manager (run (init false) scenario)) = None /\
  get_player_id 15 (session_manager (run (init false) scenario)) = Some 2 /\
  (fun g => (wButtons (report g) XUSB_GAMEPAD_A, wButtons (report g) XUSB_GAMEPAD_B,
             left_trigger (report g), (left_joystick (report g)).1))
    <$> (get_controller 1 (controller_manager (run (init false) scenario)) ≫= gamepad)
    = Some (true, false, Py.Fin 1, Py.Fin (-1)).
Proof. repeat split; reflexivity. Qed.

(** The clamp also brings the special floats into range. *)
Example clamp_special_values :
  Py.max (Py.Fin 0) (Py.min (Py.Fin 1) Py.NaN) = Py.Fin 1 /\
  Py.max (Py.Fin 0) (Py.min (Py.Fin 1) Py.PosInf) = Py.Fin 1 /\
  Py.max (Py.Fin (-1)) (Py.min (Py.Fin 1) Py.NegInf) = Py.Fin (-1) /\
  Py.max (Py.Fin (-1)) (Py.min (Py.Fin 1) (Py.Fin 0.25)) = Py.Fin 0.25.
Proof. repeat split; reflexivity. Qed.

(** * Further properties of the code *)

(** ** How many players there are *)

(** A map whose keys are slots 1 to 4 has at most four entries, and four
    exactly when every slot is taken. *)
Lemma slots_size {A : Type} (m : gmap nat A) :
  (forall k, is_Some (m !! k) -> 1 <= k <= 4) ->
  size m <= 4 /\ (4 <= size m <-> forall j, 1 <= j <= 4 -> is_Some (m !! j)).
Proof.
  intros Hkeys.
  set (slots := list_to_set (seq 1 4) : gset nat).
  assert (size slots = 4) as Hfour.
  { unfold slots. rewrite size_list_to_set; [done|apply NoDup_seq]. }
  assert (forall j, j ∈ slots <-> 1 <= j <= 4) as Hslot.
  { intros j. unfold slots. rewrite elem_of_list_to_set, elem_of_seq. lia. }
  assert (dom m ⊆ slots) as Hsub.
  { intros k Hk. apply Hslot, Hkeys. by apply elem_of_dom. }
  rewrite <- (size_dom (D := gset nat) m).
  split.
  - rewrite <- Hfour. by apply subseteq_size.
  - split.
    + intros Hsize j Hj.
      assert (dom m = slots) as Heq by (apply set_subseteq_size_eq; [done|lia]).
      apply elem_of_dom. rewrite Heq. by apply Hslot.
    + intros Hall. rewrite <- Hfour. apply subseteq_size.
      intros j Hj. apply elem_of_dom, Hall. by apply Hslot.
Qed.

Lemma same_keys_size {A B : Type} (m1 : gmap nat A) (m2 : gmap nat B) :
  (forall k, is_Some (m1 !! k) <-> is_Some (m2 !! k)) -> size m1 = size m2.
Proof.
  intros Hk. rewrite <- (size_dom (D := gset nat) m1), <- (size_dom (D := gset nat) m2).
  f_equal. apply set_eq. intros k. rewrite !elem_of_dom. apply Hk.
Qed.

Lemma session_keys_in_range st :
  consistent st ->
  forall k, is_Some (sessions (session_manager st) !! k) -> 1 <= k <= 4.
Proof. intros Hc k [s Hs]. by destruct (inv_session _ Hc _ _ Hs) as (_ & Hr & _). Qed.

Lemma sizes_agree st :
  reachable st ->
  size (sessions (session_manager st)) = size (websocket_to_player (session_manager st)).
Proof.
  induction 1 as [observer|st ev Hreach IH]; [done|].
  pose proof (reachable_consistent _ Hreach) as Hc.
  destruct ev as [w ws|w p m|w ws e]; simpl.
  - pose proof (accept_spec w ws st Hc) as (_ & _ & Hspec).
    destruct (websocket_to_player (session_manager st) !! ws) as [pid|] eqn:Hws.
    { destruct Hspec as (-> & _). done. }
    destruct (_get_available_id (session_manager st)) as [pid|] eqn:Hid.
    2:{ destruct Hspec as (-> & _). done. }
    destruct Hspec as (-> & -> & _).
    apply available_id_lowest in Hid as (Hfree & _).
    rewrite !map_size_insert_None by done. by rewrite IH.
  - pose proof (process_message_same w p m st) as Hs.
    rewrite (sb_connections _ _ Hs), <- IH.
    apply same_keys_size. intros k.
    pose proof (sb_sessions _ _ Hs k) as Hk.
    rewrite <- (fmap_is_Some (fun s => (Session.player_id s, websocket s))), Hk.
    apply fmap_is_Some.
  - pose proof (finally_spec w ws e st Hc) as (_ & _ & _ & Hspec).
    destruct (websocket_to_player (session_manager st) !! ws) as [pid|] eqn:Hws.
    2:{ destruct Hspec as (-> & _). done. }
    destruct Hspec as (-> & -> & _).
    destruct (inv_connection _ Hc _ _ Hws) as (s & Hs & _).
    rewrite (map_size_delete_Some pid (sessions (session_manager st))) by eauto.
    rewrite (map_size_delete_Some ws (websocket_to_player (session_manager st))) by eauto.
    by rewrite IH.
Qed.

(** X1.  In every state the server can reach, the number of live sessions is
    at most MAX_PLAYERS and equals the number of registered connections. *)
Theorem registry_capacity st :
  reachable st ->
  get_player_count (session_manager st) <= MAX_PLAYERS /\
  get_player_count (session_manager st) = size (websocket_to_player (session_manager st)).
Proof.
  intros Hreach. unfold get_player_count, MAX_PLAYERS. split.
  - apply slots_size, session_keys_in_range. by apply reachable_consistent.
  - by apply sizes_agree.
Qed.

Lemma registry_capacity_witness :
  get_player_count (session_manager (run (init false) scenario)) <= MAX_PLAYERS /\
  get_player_count (session_manager (run (init false) scenario))
    = size (websocket_to_player (session_manager (run (init false) scenario))).
Proof.
  apply (registry_capacity (run (init false) scenario)).
  apply reachable_run. constructor.
Defined.

(** X2.  In every reachable state [is_full] answers true exactly when no
    player id is left, that is exactly when [add_player] turns a connection
    it does not know away. *)
Theorem is_full_iff_rejects {Ext : Type} (on_player_connected : option (nat -> Ext -> Ext))
    (t : timestamp) (ws : WebSocket) (ext : Ext) st :
  reachable st ->
  get_player_id ws (session_manager st) = None ->
  (is_full (session_manager st) = true <-> _get_available_id (session_manager st) = None) /\
  (is_full (session_manager st) = true <->
   (add_player on_player_connected t ws (session_manager st) ext).1.1 = None).
Proof.
  intros Hreach Hws. pose proof (reachable_consistent _ Hreach) as Hc.
  destruct (slots_size _ (session_keys_in_range _ Hc)) as [_ Hfour].
  assert (is_full (session_manager st) = true <-> _get_available_id (session_manager st) = None)
    as Hfull.
  { unfold is_full, MAX_PLAYERS. rewrite bool_decide_eq_true, Hfour. split.
    - apply available_id_full.
    - apply available_id_none. }
  split; [done|]. rewrite Hfull.
  unfold add_player, get_player_id in *. rewrite Hws.
  destruct (_get_available_id (session_manager st)); simpl; split; done.
Qed.

Lemma is_full_iff_rejects_witness :
  (is_full (session_manager (run (init false) (accept_all four_attempts))) = true <->
   _get_available_id (session_manager (run (init false) (accept_all four_attempts))) = None) /\
  (is_full (session_manager (run (init false) (accept_all four_attempts))) = true <->
   (add_player (Ext := nat) None 7 14
      (session_manager (run (init false) (accept_all four_attempts))) 0).1.1 = None).
Proof.
  apply (is_full_iff_rejects (Ext := nat) None 7 14 0
           (run (init false) (accept_all four_attempts))).
  - apply reachable_run. constructor.
  - reflexivity.
Defined.

(** X3.  In every reachable state [get_all_player_ids] lists each live
    player exactly once: the list has no duplicate, holds the ids with a
    session and no other, all of them between 1 and MAX_PLAYERS, and is as
    long as [get_player_count] says. *)
Theorem player_ids_listing st :
  reachable st ->
  NoDup (get_all_player_ids (session_manager st)) /\
  (forall pid, pid ∈ get_all_player_ids (session_manager st) <->
               is_Some (get_session pid (session_manager st))) /\
  (forall pid, pid ∈ get_all_player_ids (session_manager st) -> 1 <= pid <= MAX_PLAYERS) /\
  length (get_all_player_ids (session_manager st)) = get_player_count (session_manager st).
Proof.
  intros Hreach. pose proof (reachable_consistent _ Hreach) as Hc.
  unfold get_all_player_ids, get_session, get_player_count.
  assert (forall pid, pid ∈ (map_to_list (sessions (session_manager st))).*1 <->
                      is_Some (sessions (session_manager st) !! pid)) as Hin.
  { intros pid. rewrite list_elem_of_fmap. split.
    - intros ([p s] & -> & Hps). apply elem_of_map_to_list in Hps. eauto.
    - intros [s Hs]. exists (pid, s). split; [done|]. by apply elem_of_map_to_list. }
  split; [apply NoDup_fst_map_to_list|]. split; [done|]. split.
  - intros pid Hpid. apply Hin in Hpid. by apply (session_keys_in_range _ Hc).
  - by rewrite length_fmap, length_map_to_list.
Qed.

Lemma player_ids_listing_witness :
  NoDup (get_all_player_ids (session_manager (run (init false) scenario))) /\
  length (get_all_player_ids (session_manager (run (init false) scenario))) = 4.
Proof.
  destruct (player_ids_listing (run (init false) scenario)) as (Hnd & _ & _ & Hlen).
  - apply reachable_run. constructor.
  - split; [exact Hnd|]. rewrite Hlen. reflexivity.
Defined.

(** X4.  Registering a new connection and removing it again gives the
    registry back as it was: the id assigned is the id removed, both maps
    are those of before, and each observer was told once. *)
Theorem add_remove_round_trip {Ext : Type}
    (on_player_connected on_player_disconnected : option (nat -> Ext -> Ext))
    (t : timestamp) (ws : WebSocket) (sm : SessionManager) (ext : Ext) (pid : nat) :
  get_player_id ws sm = None ->
  _get_available_id sm = Some pid ->
  let added := add_player on_player_connected t ws sm ext in
  let removed := remove_player on_player_disconnected ws added.1.2 added.2 in
  added.1.1 = Some pid /\
  removed.1.1 = Returned (Some pid) /\
  removed.1.2 = sm /\
  removed.2 = notify on_player_disconnected pid (notify on_player_connected pid ext).
Proof.
  intros Hws Hid added removed. unfold get_player_id in Hws.
  subst removed added. unfold add_player, remove_player. rewrite Hws, Hid. simpl.
  rewrite !lookup_insert_eq. simpl.
  apply available_id_lowest in Hid as (Hfree & _).
  rewrite !delete_insert_id by done.
  repeat split. by destruct sm.
Qed.

Lemma add_remove_round_trip_witness :
  (remove_player (Ext := nat) None 11
     (add_player (Ext := nat) None 7 11 (session_manager one_player) 0).1.2 0).1.2
  = session_manager one_player.
Proof.
  destruct (add_remove_round_trip (Ext := nat) None None 7 11 (session_manager one_player) 0 2
              eq_refl eq_refl) as (_ & _ & Hsm & _).
  exact Hsm.
Defined.

(** ** One player's messages and the others *)

Lemma touched_session_fields t pid sm q :
  (fun s => (Session.player_id s, websocket s, connected_at s))
    <$> sessions (update_activity t pid sm) !! q =
  (fun s => (Session.player_id s, websocket s, connected_at s)) <$> sessions sm !! q.
Proof.
  rewrite update_activity_lookup. destruct (decide (q = pid)); [|done].
  by destruct (sessions sm !! q).
Qed.

(** What a message of player [p] may change in the two registries. *)
Lemma process_message_registry w p m st :
  websocket_to_player (session_manager (_process_message w p m st))
    = websocket_to_player (session_manager st) /\
  (forall q, (fun s => (Session.player_id s, websocket s, connected_at s))
               <$> sessions (session_manager (_process_message w p m st)) !! q =
             (fun s => (Session.player_id s, websocket s, connected_at s))
               <$> sessions (session_manager st) !! q) /\
  (forall q, q <> p ->
     sessions (session_manager (_process_message w p m st)) !! q
       = sessions (session_manager st) !! q /\
     controllers (controller_manager (_process_message w p m st)) !! q
       = controllers (controller_manager st) !! q).
Proof.
  assert (forall t sm q, q <> p ->
            sessions (update_activity t p sm) !! q = sessions sm !! q) as Hother.
  { intros t sm q Hq. rewrite update_activity_lookup. by destruct (decide (q = p)). }
  unfold _process_message. destruct m as [|[| | | | |data]]; try done. unfold dispatch.
  destruct (Json.eqb_str _ "input").
  { destruct (get_controller p (controller_manager st)) as [c|]; [|done].
    destruct (update_state _ _ _ _ c) as [[c' evs] o]. destruct o; simpl.
    - split; [apply update_activity_connections|].
      split; [intros q; apply touched_session_fields|].
      intros q Hq. split; [by apply Hother|by rewrite lookup_insert_ne].
    - split; [done|]. split; [done|].
      intros q Hq. split; [done|by rewrite lookup_insert_ne]. }
  assert (forall act,
    websocket_to_player (session_manager (sink_branch w p act st).1)
      = websocket_to_player (session_manager st) /\
    (forall q, (fun s => (Session.player_id s, websocket s, connected_at s))
                 <$> sessions (session_manager (sink_branch w p act st).1) !! q =
               (fun s => (Session.player_id s, websocket s, connected_at s))
                 <$> sessions (session_manager st) !! q) /\
    (forall q, q <> p ->
       sessions (session_manager (sink_branch w p act st).1) !! q
         = sessions (session_manager st) !! q /\
       controllers (controller_manager (sink_branch w p act st).1) !! q
         = controllers (controller_manager st) !! q)) as Hsink.
  { intros act. destruct (sink_branch_registry w p act st) as [-> ->].
    destruct (sink_branch w p act st).2; [|done].
    split; [apply update_activity_connections|].
    split; [intros q; apply touched_session_fields|].
    intros q Hq. split; [by apply Hother|done]. }
  destruct (Json.eqb_str _ "mouse"); [apply Hsink|].
  destruct (Json.eqb_str _ "keyboard"); [apply Hsink|].
  destruct (Json.eqb_str _ "ping").
  { by destruct (get_session p (session_manager st)). }
  destruct (Json.eqb_str _ "disconnect"); [|done].
  by destruct (get_session p (session_manager st)).
Qed.

(** X8.  A message handled for player [p] touches nobody else: the session
    and the controller of every other player are exactly what they were, no
    connection is registered or forgotten, and of the sender's own session
    only the activity timestamp can change. *)
Theorem message_isolation w p m st q :
  q <> p ->
  get_session q (session_manager (_process_message w p m st))
    = get_session q (session_manager st) /\
  get_controller q (controller_manager (_process_message w p m st))
    = get_controller q (controller_manager st) /\
  websocket_to_player (session_manager (_process_message w p m st))
    = websocket_to_player (session_manager st) /\
  (fun s => (Session.player_id s, websocket s, connected_at s))
    <$> get_session p (session_manager (_process_message w p m st)) =
  (fun s => (Session.player_id s, websocket s, connected_at s))
    <$> get_session p (session_manager st).
Proof.
  intros Hq. destruct (process_message_registry w p m st) as (Hconn & Hown & Hothers).
  destruct (Hothers q Hq) as [Hs Hc]. unfold get_session, get_controller.
  split; [done|]. split; [done|]. split; [done|apply Hown].
Qed.

Lemma message_isolation_witness :
  get_session 2 (session_manager
    (_process_message later 1 (Json (Json.Obj (input_message {[ "a" := true ]} ∅ ∅))) two_players))
    = get_session 2 (session_manager two_players) /\
  get_controller 2 (controller_manager
    (_process_message later 1 (Json (Json.Obj (input_message {[ "a" := true ]} ∅ ∅))) two_players))
    = get_controller 2 (controller_manager two_players).
Proof.
  destruct (message_isolation later 1 (Json (Json.Obj (input_message {[ "a" := true ]} ∅ ∅)))
              two_players 2 ltac:(lia)) as (Hs & Hc & _).
  split; [exact Hs|exact Hc].
Defined.

(** ** A connection from handshake to cleanup *)

Lemma frames_as_run pid (frames : list (World * message)) st :
  foldl (fun st f => _process_message f.1 pid f.2 st) st frames
  = run st ((fun f => Frame f.1 pid f.2) <$> frames).
Proof.
  revert st. induction frames as [|f frames IH]; intros st; simpl; [done|]. apply IH.
Qed.

Lemma frames_registry pid (frames : list (World * message)) st :
  let st' := foldl (fun st f => _process_message f.1 pid f.2 st) st frames in
  websocket_to_player (session_manager st') = websocket_to_player (session_manager st) /\
  (forall q, q <> pid ->
     sessions (session_manager st') !! q = sessions (session_manager st) !! q /\
     controllers (controller_manager st') !! q = controllers (controller_manager st) !! q).
Proof.
  revert st. induction frames as [|f frames IH]; intros st; simpl; [done|].
  destruct (IH (_process_message f.1 pid f.2 st)) as (Hconn & Hothers).
  destruct (process_message_registry f.1 pid f.2 st) as (Hconn' & _ & Hothers').
  split; [by rewrite Hconn|].
  intros q Hq. destruct (Hothers q Hq) as [-> ->]. by apply Hothers'.
Qed.

(** Alone, a handler goes from its handshake through its frames to its
    [finally] clause. *)
Lemma handle_client_alone w ws (frames : list (World * message)) e w' st :
  handle_client w ws frames e w' st =
  match handle_client_accept w ws st with
  | (Welcomed pid, st1) =>
      (handle_client_finally w' ws e
         (foldl (fun st f => _process_message f.1 pid f.2 st) st1 frames)).2
  | (_, st1) => st1
  end.
Proof.
  unfold handle_client, handle_client_among.
  destruct (handle_client_accept w ws st) as [[|pid|] st1]; try done.
  do 2 f_equal. revert st1. induction frames as [|f frames IH]; intros st1; simpl; [done|].
  apply IH.
Qed.

(** X5.  A connection the server did not know, whose handshake frame could
    be sent, leaves nothing behind once its handler has run to the end:
    whatever frames it sent and however its loop ended, the registry and the
    controllers are exactly those of before. *)
Theorem handle_client_leaves_no_residue w ws frames e w' st :
  reachable st ->
  get_player_id ws (session_manager st) = None ->
  send_ok w ws = true ->
  session_manager (handle_client w ws frames e w' st) = session_manager st /\
  controllers (controller_manager (handle_client w ws frames e w' st))
    = controllers (controller_manager st).
Proof.
  unfold get_player_id. intros Hreach Hws Hsend.
  pose proof (reachable_consistent _ Hreach) as Hc.
  pose proof (accept_spec w ws st Hc) as (_ & _ & Hspec).
  assert (reachable (handle_client_accept w ws st).2) as Hreach1
    by apply (reachable_step st (Accept w ws) Hreach).
  rewrite handle_client_alone.
  destruct (handle_client_accept w ws st) as [h st1]. simpl in *.
  rewrite Hws, Hsend in Hspec.
  destruct (_get_available_id (session_manager st)) as [pid|] eqn:Hid.
  2:{ destruct Hspec as (Hsm & Hcm & -> & _). by rewrite Hsm, Hcm. }
  destruct Hspec as (Hsess & Hconn & Hctl & -> & _).
  apply available_id_lowest in Hid as (Hfree & _).
  assert (controllers (controller_manager st) !! pid = None) as Hnoctl.
  { destruct (controllers (controller_manager st) !! pid) as [c|] eqn:Hold; [|done].
    destruct (inv_controller _ Hc _ _ Hold) as ([s Hs] & _). congruence. }
  destruct (frames_registry pid frames st1) as (Hconn2 & Hothers).
  set (st2 := foldl (fun st f => _process_message f.1 pid f.2 st) st1 frames) in *.
  assert (consistent st2) as Hc2.
  { apply reachable_consistent. unfold st2. rewrite frames_as_run. by apply reachable_run. }
  pose proof (finally_spec w' ws e st2 Hc2) as (_ & _ & _ & Hfin).
  rewrite Hconn2, Hconn, lookup_insert_eq in Hfin.
  destruct Hfin as (Hsess3 & Hconn3 & Hctl3 & _).
  set (st3 := (handle_client_finally w' ws e st2).2) in *. clearbody st3.
  split.
  - destruct (session_manager st3) as [s3 c3], (session_manager st) as [s0 c0].
    simpl in *. f_equal.
    + apply map_eq. intros q. rewrite Hsess3.
      destruct (decide (q = pid)) as [->|Hq]; [by rewrite lookup_delete_eq|].
      rewrite lookup_delete_ne by done. destruct (Hothers q Hq) as [-> _].
      rewrite Hsess. by rewrite lookup_insert_ne.
    + rewrite Hconn3. by apply delete_insert_id.
  - apply map_eq. intros q. rewrite Hctl3.
    destruct (decide (q = pid)) as [->|Hq]; [done|].
    destruct (Hothers q Hq) as [_ ->]. rewrite Hctl.
    destruct (device_ok w); [by rewrite lookup_insert_ne|done].
Qed.

Lemma handle_client_leaves_no_residue_witness :
  session_manager
    (handle_client calm 12 [(later, Json (Json.Obj (typed_message "ping")))] Failed later two_players)
  = session_manager two_players.
Proof.
  destruct (handle_client_leaves_no_residue calm 12 [(later, Json (Json.Obj (typed_message "ping")))]
              Failed later two_players) as [Hsm _].
  - apply reachable_run. constructor.
  - reflexivity.
  - reflexivity.
  - exact Hsm.
Defined.

Lemma step_keeps_registration st ev ws pid :
  consistent st ->
  websocket_to_player (session_manager st) !! ws = Some pid ->
  leaves_open ws ev ->
  websocket_to_player (session_manager (step st ev)) !! ws = Some pid.
Proof.
  intros Hc Hws Hopen. destruct ev as [w ws'|w p m|w ws' e]; simpl in *.
  - pose proof (accept_spec w ws' st Hc) as (_ & _ & Hspec).
    destruct (websocket_to_player (session_manager st) !! ws') as [pid'|].
    { by destruct Hspec as (-> & _). }
    destruct (_get_available_id (session_manager st)) as [pid'|].
    2:{ by destruct Hspec as (-> & _). }
    destruct Hspec as (_ & -> & _). by rewrite lookup_insert_ne.
  - by rewrite (sb_connections _ _ (process_message_same w p m st)).
  - pose proof (finally_spec w ws' e st Hc) as (_ & _ & _ & Hspec).
    destruct (websocket_to_player (session_manager st) !! ws') as [pid'|].
    2:{ by destruct Hspec as (-> & _). }
    destruct Hspec as (_ & -> & _). by rewrite lookup_delete_ne.
Qed.

Lemma run_keeps_registration evs st ws pid :
  reachable st ->
  websocket_to_player (session_manager st) !! ws = Some pid ->
  Forall (leaves_open ws) evs ->
  websocket_to_player (session_manager (run st evs)) !! ws = Some pid.
Proof.
  revert st. induction evs as [|ev evs IH]; intros st Hr Hws Hopen; simpl; [done|].
  apply Forall_cons in Hopen as [Hev Hopen].
  apply IH; [by constructor| |done].
  apply step_keeps_registration; [by apply reachable_consistent|done|done].
Qed.

(** X6.  When the welcome frame cannot be sent, the handler ends before its
    receive loop and its cleanup: the session registered a moment before
    stays, and as long as that socket is not handled again its player id
    remains taken, whatever the other connections do. *)
Theorem welcome_failure_leaks_slot w ws frames e w' st pid evs :
  reachable st ->
  get_player_id ws (session_manager st) = None ->
  _get_available_id (session_manager st) = Some pid ->
  send_ok w ws = false ->
  Forall (leaves_open ws) evs ->
  get_player_id ws (session_manager (run (handle_client w ws frames e w' st) evs)) = Some pid /\
  is_Some (get_session pid (session_manager (run (handle_client w ws frames e w' st) evs))) /\
  _get_available_id (session_manager (run (handle_client w ws frames e w' st) evs)) <> Some pid.
Proof.
  unfold get_player_id, get_session. intros Hreach Hws Hid Hsend Hopen.
  pose proof (reachable_consistent _ Hreach) as Hc.
  pose proof (accept_spec w ws st Hc) as (_ & _ & Hspec).
  assert (reachable (handle_client_accept w ws st).2) as Hreach1
    by apply (reachable_step st (Accept w ws) Hreach).
  rewrite handle_client_alone.
  destruct (handle_client_accept w ws st) as [h st1]. simpl in *.
  rewrite Hws, Hid, Hsend in Hspec. destruct Hspec as (_ & Hconn & _ & -> & _).
  assert (websocket_to_player (session_manager (run st1 evs)) !! ws = Some pid) as Hstill.
  { apply run_keeps_registration; [done| |done]. rewrite Hconn. apply lookup_insert_eq. }
  pose proof (reachable_consistent _ (reachable_run _ evs Hreach1)) as Hc'.
  destruct (inv_connection _ Hc' _ _ Hstill) as (s & Hs & _).
  split; [done|]. split; [eauto|].
  intros Hfree. apply available_id_lowest in Hfree as (Hfree & _). congruence.
Qed.

Lemma welcome_failure_leaks_slot_witness :
  get_player_id 12
    (session_manager (run (handle_client mute 12 [] Exhausted calm two_players)
                          [LoopEnd calm 10 Exhausted; Accept calm 13])) = Some 3.
Proof.
  destruct (welcome_failure_leaks_slot mute 12 [] Exhausted calm two_players 3
              [LoopEnd calm 10 Exhausted; Accept calm 13]) as (Hws & _).
  - apply reachable_run. constructor.
  - reflexivity.
  - reflexivity.
  - reflexivity.
  - repeat constructor; discriminate.
  - exact Hws.
Defined.

(** ** Ids are recycled *)

Lemma available_id_unique (sm : SessionManager) (j : nat) :
  sessions sm !! j = None ->
  1 <= j <= MAX_PLAYERS ->
  (forall i, 1 <= i < j -> is_Some (sessions sm !! i)) ->
  _get_available_id sm = Some j.
Proof.
  intros Hfree Hr Hlow. destruct (_get_available_id sm) as [i|] eqn:Hid.
  - apply available_id_lowest in Hid as (Hi & Hri & Hlowi).
    destruct (decide (i = j)) as [->|Hne]; [done|].
    destruct (decide (i < j)) as [Hlt|Hge].
    + destruct (Hlow i ltac:(lia)) as [s Hs]. congruence.
    + destruct (Hlowi j ltac:(lia)) as [s Hs]. congruence.
  - destruct (available_id_none sm Hid j Hr) as [s Hs]. congruence.
Qed.

(** X7.  When a player leaves, its id is free at once: the next connection
    the server does not know yet is given the lowest of that id and the id
    that was free before, if there was one. *)
Theorem freed_id_is_reused w ws e w' ws' st pid :
  reachable st ->
  get_player_id ws (session_manager st) = Some pid ->
  get_player_id ws' (session_manager st) = None ->
  let left := (handle_client_finally w ws e st).2 in
  let next := match _get_available_id (session_manager st) with
              | Some i => Nat.min i pid
              | None => pid
              end in
  (handle_client_accept w' ws' left).1 = (if send_ok w' ws' then Welcomed next else Aborted) /\
  get_player_id ws' (session_manager (handle_client_accept w' ws' left).2) = Some next.
Proof.
  intros Hreach Hws Hws' left next. unfold get_player_id in *.
  pose proof (reachable_consistent _ Hreach) as Hc.
  pose proof (finally_spec w ws e st Hc) as (_ & _ & _ & Hfin).
  fold left in Hfin. rewrite Hws in Hfin. destruct Hfin as (Hsess & Hconn & _).
  assert (consistent left) as Hcl by (by apply consistent_finally).
  destruct (inv_connection _ Hc _ _ Hws) as (s & Hs & _).
  destruct (inv_session _ Hc _ _ Hs) as (_ & Hr & _).
  assert (ws' <> ws) as Hne by congruence.
  assert (_get_available_id (session_manager left) = Some next) as Hnext.
  { apply available_id_unique; rewrite ?Hsess; subst next.
    - destruct (_get_available_id (session_manager st)) as [i|] eqn:Hid;
        [|apply lookup_delete_eq].
      apply available_id_lowest in Hid as (Hi & _).
      destruct (decide (i < pid)).
      + rewrite Nat.min_l by lia. rewrite lookup_delete_ne by lia. done.
      + rewrite Nat.min_r by lia. apply lookup_delete_eq.
    - destruct (_get_available_id (session_manager st)) as [i|] eqn:Hid; [|done].
      apply available_id_lowest in Hid as (_ & Hri & _). lia.
    - intros k Hk. rewrite lookup_delete_ne.
      + destruct (_get_available_id (session_manager st)) as [i|] eqn:Hid.
        * apply available_id_lowest in Hid as (_ & _ & Hlow). apply Hlow. lia.
        * apply (available_id_none _ Hid). lia.
      + destruct (_get_available_id (session_manager st)); lia. }
  pose proof (accept_spec w' ws' left Hcl) as (_ & _ & Hspec).
  rewrite Hconn, lookup_delete_ne, Hws', Hnext in Hspec by done.
  destruct Hspec as (_ & Hconn' & _ & Hres & _).
  split; [done|]. rewrite Hconn'. apply lookup_insert_eq.
Qed.

Lemma freed_id_is_reused_witness :
  (handle_client_accept calm 15
     (handle_client_finally calm 11 Exhausted
        (run (init false) (accept_all four_attempts))).2).1 = Welcomed 2.
Proof.
  destruct (freed_id_is_reused calm 11 Exhausted calm 15
              (run (init false) (accept_all four_attempts)) 2) as [Hres _].
  - apply reachable_run. constructor.
  - reflexivity.
  - reflexivity.
  - exact Hres.
Defined.

(** ** What reaches the devices *)

(** The trace of a message: what was there, then effects of a message. *)
Lemma process_message_trace w p m st :
  exists evs, trace (_process_message w p m st) = trace st ++ evs /\
              Forall message_effect evs.
Proof.
  assert (exists evs, trace st = trace st ++ evs /\ Forall message_effect evs) as Hnone
    by (exists []; split; [by rewrite app_nil_r|constructor]).
  unfold _process_message. destruct m as [|[| | | | |data]]; try done. unfold dispatch.
  destruct (Json.eqb_str _ "input").
  { destruct (get_controller p (controller_manager st)) as [c|]; [|done].
    pose proof (update_state_effects (device_ok w)
                  (default (Json.Obj ∅) (data !! "buttons"))
                  (default (Json.Obj ∅) (data !! "triggers"))
                  (default (Json.Obj ∅) (data !! "axes")) c) as Hev.
    destruct (update_state _ _ _ _ c) as [[c' evs] o]. exists evs. by destruct o. }
  destruct (Json.eqb_str _ "mouse");
    [apply sink_branch_trace, mouse_action_effects|].
  destruct (Json.eqb_str _ "keyboard");
    [apply sink_branch_trace, keyboard_action_effects|].
  destruct (Json.eqb_str _ "ping").
  { destruct (get_session p (session_manager st)); [|done].
    eexists; split; [done|repeat constructor]. }
  destruct (Json.eqb_str _ "disconnect"); [|done].
  destruct (get_session p (session_manager st)); [|done].
  eexists; split; [done|repeat constructor].
Qed.

(** X9.  Whatever the clients send, in whatever order, no virtual device is
    ever handed a trigger outside [0,1] or an axis outside [-1,1]: every
    report submitted in a run of the server is within bounds. *)
Theorem devices_never_out_of_range st :
  reachable st -> Forall device_input_in_bounds (trace st).
Proof.
  induction 1 as [observer|st ev Hreach IH]; [constructor|].
  pose proof (reachable_consistent _ Hreach) as Hc.
  destruct ev as [w ws|w p m|w ws e]; simpl.
  - pose proof (accept_spec w ws st Hc) as (_ & _ & Hspec).
    destruct (websocket_to_player (session_manager st) !! ws).
    { destruct Hspec as (_ & _ & _ & ->). apply Forall_app. split; [done|by repeat constructor]. }
    destruct (_get_available_id (session_manager st)).
    + destruct Hspec as (_ & _ & _ & _ & ->). rewrite !Forall_app.
      split; [done|]. split; [by repeat constructor|].
      split; [|by repeat constructor].
      unfold observed. destruct (on_player_update st); by repeat constructor.
    + destruct Hspec as (_ & _ & _ & ->). apply Forall_app. split; [done|].
      destruct (send_ok w ws); by repeat constructor.
  - destruct (process_message_trace w p m st) as (evs & -> & Hev).
    apply Forall_app. split; [done|by apply message_effect_in_bounds].
  - pose proof (finally_spec w ws e st Hc) as (_ & _ & _ & Hspec).
    destruct (websocket_to_player (session_manager st) !! ws).
    2:{ by destruct Hspec as (_ & _ & ->). }
    destruct Hspec as (_ & _ & _ & ->). rewrite !Forall_app.
    split; [done|]. split.
    + destruct (controllers (controller_manager st) !! n); by repeat constructor.
    + unfold observed. destruct (on_player_update st); by repeat constructor.
Qed.

Lemma devices_never_out_of_range_witness :
  Forall device_input_in_bounds (trace (run (init false) scenario)).
Proof.
  apply (devices_never_out_of_range (run (init false) scenario)).
  apply reachable_run. constructor.
Defined.

Lemma observed_creations st p q connected : creations p (observed st q connected) = 0.
Proof. unfold observed. by destruct (on_player_update st). Qed.

Lemma device_accounting st pid :
  reachable st ->
  creations pid (trace st) =
  releases pid (trace st) +
  match controllers (controller_manager st) !! pid with Some _ => 1 | None => 0 end.
Proof.
  induction 1 as [observer|st ev Hreach IH]; [done|].
  pose proof (reachable_consistent _ Hreach) as Hc.
  destruct ev as [w ws|w p m|w ws e]; simpl.
  - pose proof (accept_spec w ws st Hc) as (_ & _ & Hspec).
    destruct (websocket_to_player (session_manager st) !! ws).
    { destruct Hspec as (_ & -> & _ & ->). rewrite creations_app, releases_app, IH.
      unfold creations, releases; simpl. lia. }
    destruct (_get_available_id (session_manager st)) as [pid'|] eqn:Hid.
    2:{ destruct Hspec as (_ & -> & _ & ->). rewrite creations_app, releases_app, IH.
        unfold creations, releases; simpl. destruct (send_ok w ws); simpl; lia. }
    destruct Hspec as (_ & _ & -> & _ & ->).
    apply available_id_lowest in Hid as (Hfree & _).
    assert (controllers (controller_manager st) !! pid' = None) as Hnoctl.
    { destruct (controllers (controller_manager st) !! pid') as [c|] eqn:Hold; [|done].
      destruct (inv_controller _ Hc _ _ Hold) as ([s Hs] & _). congruence. }
    rewrite !creations_app, !releases_app, observed_creations, observed_releases, IH.
    unfold creations, releases; simpl.
    destruct (device_ok w); simpl.
    + destruct (decide (pid' = pid)) as [->|Hne].
      * rewrite lookup_insert_eq, Hnoctl, Nat.eqb_refl. simpl. lia.
      * rewrite lookup_insert_ne by done. apply Nat.eqb_neq in Hne. rewrite Hne. simpl. lia.
    + lia.
  - destruct (process_message_trace w p m st) as (evs & Htr & Hev).
    pose proof (process_message_same w p m st) as Hs.
    rewrite (sb_releases _ _ Hs), Htr, creations_app, (message_effect_creations _ _ Hev), IH.
    pose proof (sb_controllers _ _ Hs pid) as Hp.
    destruct (controllers (controller_manager (_process_message w p m st)) !! pid),
             (controllers (controller_manager st) !! pid); try done; lia.
  - pose proof (finally_spec w ws e st Hc) as (_ & _ & _ & Hspec).
    destruct (websocket_to_player (session_manager st) !! ws) as [pid'|].
    2:{ by destruct Hspec as (_ & -> & ->). }
    destruct Hspec as (_ & _ & Hctl & ->). rewrite Hctl.
    rewrite !creations_app, !releases_app, observed_creations, observed_releases, IH.
    destruct (decide (pid = pid')) as [->|Hne].
    + destruct (controllers (controller_manager st) !! pid');
        unfold creations, releases; simpl; rewrite ?Nat.eqb_refl; simpl; lia.
    + apply not_eq_sym, Nat.eqb_neq in Hne.
      destruct (controllers (controller_manager st) !! pid');
        unfold creations, releases; simpl; rewrite ?Hne; simpl; lia.
Qed.

(** X10.  Devices are accounted for: in every reachable state, the devices
    created for a player are those released so far plus the one its
    controller holds, if it has a controller.  No device is released twice,
    none is released without having been created, and none is forgotten
    while its player is gone. *)
Theorem devices_accounted_for st pid :
  reachable st ->
  creations pid (trace st) =
  releases pid (trace st) +
  match get_controller pid (controller_manager st) with Some _ => 1 | None => 0 end.
Proof. apply device_accounting. Qed.

Lemma devices_accounted_for_witness :
  creations 2 (trace (run (init false) scenario)) = 2 /\
  releases 2 (trace (run (init false) scenario)) = 1.
Proof.
  pose proof (devices_accounted_for (run (init false) scenario) 2
                ltac:(apply reachable_run; constructor)) as Hacc.
  split; [rewrite Hacc|]; reflexivity.
Defined.

(** ** Snapshots, button by button *)

Lemma button_map_name (name : string) (b : XUSB_BUTTON) :
  BUTTON_MAP !! name = Some b -> name = button_name b.
Proof.
  unfold BUTTON_MAP. intros H. apply elem_of_list_to_map_2 in H.
  repeat (apply elem_of_cons in H as [H|H]; [by injection H as -> ->|]).
  by apply elem_of_nil in H.
Qed.

Lemma button_name_map (b : XUSB_BUTTON) : BUTTON_MAP !! button_name b = Some b.
Proof. by destruct b. Qed.

Lemma update_button_named (items : list (string * Json.value)) (g : VX360Gamepad)
    (name : string) (v : Json.value) (b : XUSB_BUTTON) :
  NoDup items.*1 ->
  (name, v) ∈ items ->
  BUTTON_MAP !! name = Some b ->
  wButtons (report (foldl update_button g items)) b = Json.truthy v.
Proof.
  intros Hnd Hin Hb. revert g.
  induction items as [|[n p] items IH]; intros g; [by apply elem_of_nil in Hin|].
  simpl in Hnd. apply NoDup_cons in Hnd as [Hfresh Hnd].
  apply elem_of_cons in Hin as [Heq|Hin]; simpl.
  - injection Heq as <- <-. rewrite update_button_other.
    + unfold update_button; simpl. rewrite Hb.
      destruct (Json.truthy v); simpl; by destruct (decide (b = b)).
    + intros n' p' Hin' Hb'. apply button_map_name in Hb, Hb'. subst.
      apply Hfresh. apply list_elem_of_fmap. by exists (button_name b, p').
  - by apply IH.
Qed.

(** A button a payload of booleans names, in the report. *)
Lemma named_button (buttons : gmap string bool) (g : VX360Gamepad)
    (name : string) (pressed : bool) (b : XUSB_BUTTON) :
  buttons !! name = Some pressed ->
  BUTTON_MAP !! name = Some b ->
  wButtons (report (foldl update_button g (map_to_list (Json.Bool <$> buttons)))) b = pressed.
Proof.
  intros Hname Hb.
  rewrite (update_button_named _ g name (Json.Bool pressed) b);
    [done|apply NoDup_fst_map_to_list| |done].
  apply elem_of_map_to_list. by rewrite lookup_fmap, Hname.
Qed.

(** X11.  A button the payload names is submitted with the value the
    payload gives it, whatever it was before. *)
Theorem named_buttons_applied ok buttons triggers axes c name pressed b :
  is_connected c = true ->
  buttons !! name = Some pressed ->
  BUTTON_MAP !! name = Some b ->
  exists r,
    (update_state ok (Json.bools buttons) (Json.numbers triggers) (Json.numbers axes) c).1.2
      = [EvDeviceUpdate (Controller.player_id c) r ok] /\
    wButtons r b = pressed.
Proof.
  intros Hc Hname Hb.
  destruct (update_state_connected ok buttons triggers axes c Hc)
    as (g & r & _ & -> & Hw & _).
  exists r. split; [done|]. rewrite Hw. by apply named_button with name.
Qed.

Lemma named_buttons_applied_witness :
  (fun r => wButtons r XUSB_GAMEPAD_A)
    <$> submitted (update_state true (Json.bools {[ "a" := true; "b" := false ]})
                     (Json.numbers ∅) (Json.numbers ∅) (new_controller 1)).1.2
  = Some true.
Proof.
  destruct (named_buttons_applied true {[ "a" := true; "b" := false ]} ∅ ∅ (new_controller 1)
              "a" true XUSB_GAMEPAD_A eq_refl ltac:(by vm_compute) ltac:(by vm_compute))
    as (r & Hev & Hw).
  rewrite Hev. simpl. by rewrite Hw.
Defined.

(** X12.  A payload that names all fifteen buttons is a full snapshot: the
    report submitted, buttons and analog values alike, is the same for any
    two bound controllers, whatever each held before, and so is the state
    stored when the device takes the update. *)
Theorem full_snapshot_determines_report ok buttons triggers axes c1 c2 :
  is_connected c1 = true ->
  is_connected c2 = true ->
  (forall b, is_Some (buttons !! button_name b)) ->
  let applied c :=
    update_state ok (Json.bools buttons) (Json.numbers triggers) (Json.numbers axes) c in
  exists r1 r2,
    (applied c1).1.2 = [EvDeviceUpdate (Controller.player_id c1) r1 ok] /\
    (applied c2).1.2 = [EvDeviceUpdate (Controller.player_id c2) r2 ok] /\
    (forall b, wButtons r1 b = wButtons r2 b) /\
    left_trigger r1 = left_trigger r2 /\ right_trigger r1 = right_trigger r2 /\
    left_joystick r1 = left_joystick r2 /\ right_joystick r1 = right_joystick r2 /\
    (ok = true -> state (applied c1).1.1 = state (applied c2).1.1).
Proof.
  intros Hc1 Hc2 Hall applied. subst applied. simpl.
  destruct (update_state_connected ok buttons triggers axes c1 Hc1)
    as (g1 & r1 & _ & -> & Hw1 & Hlt1 & Hrt1 & Hl1 & Hr1).
  destruct (update_state_connected ok buttons triggers axes c2 Hc2)
    as (g2 & r2 & _ & -> & Hw2 & Hlt2 & Hrt2 & Hl2 & Hr2).
  exists r1, r2. simpl. rewrite Hlt1, Hlt2, Hrt1, Hrt2, Hl1, Hl2, Hr1, Hr2.
  split; [done|]. split; [done|]. split; [|by repeat split; try intros ->].
  intros b. destruct (Hall b) as [pressed Hp]. rewrite Hw1, Hw2.
  rewrite (named_button buttons g1 (button_name b) pressed b Hp (button_name_map b)).
  by rewrite (named_button buttons g2 (button_name b) pressed b Hp (button_name_map b)).
Qed.

Lemma full_snapshot_determines_report_witness :
  (fun r => (wButtons r XUSB_GAMEPAD_A, wButtons r XUSB_GAMEPAD_B))
    <$> submitted (update_state true (Json.bools all_released) (Json.numbers ∅)
                     (Json.numbers ∅) (new_controller 1)).1.2
  = (fun r => (wButtons r XUSB_GAMEPAD_A, wButtons r XUSB_GAMEPAD_B))
    <$> submitted (update_state true (Json.bools all_released) (Json.numbers ∅)
                     (Json.numbers ∅) used_controller).1.2.
Proof.
  assert (forall b, is_Some (all_released !! button_name b)) as Hall
    by (intros []; by eexists).
  destruct (full_snapshot_determines_report true all_released ∅ ∅
              (new_controller 1) used_controller eq_refl ltac:(by vm_compute) Hall)
    as (r1 & r2 & Hev1 & Hev2 & Hw & _).
  rewrite Hev1, Hev2. simpl. f_equal. by rewrite !Hw.
Defined.

(** ** Values within range *)

Lemma clamp_keeps (lo hi q : Q) :
  (lo <= q)%Q -> (q <= hi)%Q ->
  exists q', Py.max (Py.Fin lo) (Py.min (Py.Fin hi) (Py.Fin q)) = Py.Fin q' /\ (q' == q)%Q.
Proof.
  intros Hlo Hhi.
  unfold Py.min, Py.max; simpl.
  destruct (Py.Qltb q hi) eqn:Hq; simpl.
  - destruct (Py.Qltb lo q) eqn:Hl; simpl.
    + exists q. split; [done|reflexivity].
    + exists lo. split; [done|]. apply Qle_antisym; [done|by apply Qltb_false].
  - assert (hi == q)%Q as Heq by (apply Qle_antisym; [by apply Qltb_false|done]).
    destruct (Py.Qltb lo hi) eqn:Hl; simpl.
    + exists hi. by split.
    + exists lo. split; [done|]. apply Qle_antisym; [done|].
      rewrite <- Heq. by apply Qltb_false.
Qed.

(** X13.  The clamp leaves a value that is within range as it is: a trigger
    between 0 and 1 and an axis between -1 and 1 reach the device with the
    value the client sent. *)
Theorem in_range_values_unchanged ok buttons triggers axes c :
  is_connected c = true ->
  exists r,
    (update_state ok (Json.bools buttons) (Json.numbers triggers) (Json.numbers axes) c).1.2
      = [EvDeviceUpdate (Controller.player_id c) r ok] /\
    (forall q, triggers !! "lt" = Some (Py.Fin q) -> (0 <= q)%Q -> (q <= 1)%Q ->
       exists q', left_trigger r = Py.Fin q' /\ (q' == q)%Q) /\
    (forall q, triggers !! "rt" = Some (Py.Fin q) -> (0 <= q)%Q -> (q <= 1)%Q ->
       exists q', right_trigger r = Py.Fin q' /\ (q' == q)%Q) /\
    (forall q, axes !! "left_x" = Some (Py.Fin q) -> (-1 <= q)%Q -> (q <= 1)%Q ->
       exists q', (left_joystick r).1 = Py.Fin q' /\ (q' == q)%Q) /\
    (forall q, axes !! "left_y" = Some (Py.Fin q) -> (-1 <= q)%Q -> (q <= 1)%Q ->
       exists q', (left_joystick r).2 = Py.Fin q' /\ (q' == q)%Q) /\
    (forall q, axes !! "right_x" = Some (Py.Fin q) -> (-1 <= q)%Q -> (q <= 1)%Q ->
       exists q', (right_joystick r).1 = Py.Fin q' /\ (q' == q)%Q) /\
    (forall q, axes !! "right_y" = Some (Py.Fin q) -> (-1 <= q)%Q -> (q <= 1)%Q ->
       exists q', (right_joystick r).2 = Py.Fin q' /\ (q' == q)%Q).
Proof.
  intros Hc.
  destruct (update_state_connected ok buttons triggers axes c Hc)
    as (g & r & _ & -> & _ & Hlt & Hrt & Hl & Hr).
  exists r. rewrite Hlt, Hrt, Hl, Hr. simpl.
  split; [done|].
  repeat split; intros q -> Hlo Hhi; simpl; by apply clamp_keeps.
Qed.

Lemma in_range_values_unchanged_witness :
  match left_trigger
          <$> submitted (update_state true (Json.bools ∅)
                           (Json.numbers {[ "lt" := Py.Fin 0.5 ]}) (Json.numbers ∅)
                           (new_controller 1)).1.2 with
  | Some (Py.Fin q) => (q == 0.5)%Q
  | _ => False
  end.
Proof.
  destruct (in_range_values_unchanged true ∅ {[ "lt" := Py.Fin 0.5 ]} ∅
              (new_controller 1) eq_refl)
    as (r & Hev & Hlt & _).
  destruct (Hlt 0.5%Q eq_refl ltac:(by vm_compute) ltac:(by vm_compute))
    as (q' & Hq' & Heq).
  rewrite Hev. simpl. rewrite Hq'. exact Heq.
Defined.

(** ** The controller manager on its own *)

Lemma manager_ok_call cm call : manager_ok cm -> manager_ok (run_manager_call cm call).
Proof.
  intros Hok. destruct call as [ok pid|ok pid|ok]; simpl.
  - unfold create_controller.
    destruct ((pid <? 1) || (MAX_CONTROLLERS <? pid)) eqn:Hr; [done|].
    destruct (controllers cm !! pid) eqn:Hpid; [done|].
    unfold connect; simpl. destruct ok; [|done]. simpl.
    intros q c Hq. simpl in Hq. destruct (decide (q = pid)) as [->|Hne].
    + rewrite lookup_insert_eq in Hq. injection Hq as <-.
      apply orb_false_iff in Hr as [H1 H2]. apply Nat.ltb_ge in H1, H2. done.
    + rewrite lookup_insert_ne in Hq by done. by apply Hok.
  - unfold remove_controller. destruct (controllers cm !! pid) eqn:Hpid; [|done].
    destruct (disconnect ok v) as [c' evs]. simpl.
    intros q c Hq. simpl in Hq. destruct (decide (q = pid)) as [->|Hne].
    + by rewrite lookup_delete_eq in Hq.
    + rewrite lookup_delete_ne in Hq by done. by apply Hok.
  - intros q c Hq. simpl in Hq. by rewrite lookup_empty in Hq.
Qed.

Lemma manager_ok_run (calls : list manager_call) :
  manager_ok (foldl run_manager_call Controller.empty calls).
Proof.
  assert (forall cm, manager_ok cm -> manager_ok (foldl run_manager_call cm calls)) as Hall.
  { induction calls as [|call calls IH]; intros cm Hok; simpl; [done|].
    by apply IH, manager_ok_call. }
  apply Hall. intros pid c Hc. simpl in Hc. by rewrite lookup_empty in Hc.
Qed.

Lemma manager_ok_keys cm : manager_ok cm -> forall k, is_Some (controllers cm !! k) -> 1 <= k <= 4.
Proof. intros Hok k [c Hc]. by destruct (Hok k c Hc) as (Hr & _). Qed.

(** X14.  Whatever controllers are created, removed or disconnected, in
    whatever order, the manager never holds more than MAX_CONTROLLERS of
    them, and each one it holds is connected, knows its own id, and sits at
    an id between 1 and MAX_CONTROLLERS. *)
Theorem manager_stays_within_bounds (calls : list manager_call) :
  get_connected_count (foldl run_manager_call Controller.empty calls) <= MAX_CONTROLLERS /\
  forall pid c,
    get_controller pid (foldl run_manager_call Controller.empty calls) = Some c ->
    1 <= pid <= MAX_CONTROLLERS /\ is_connected c = true /\ Controller.player_id c = pid.
Proof.
  pose proof (manager_ok_run calls) as Hok.
  split; [|exact Hok].
  unfold get_connected_count, MAX_CONTROLLERS. by apply slots_size, manager_ok_keys.
Qed.

(** X15.  Creating the controller of a free id and removing it again gives
    the manager back as it was; a device that was created on the way is
    reset, as far as that goes, and dropped, and an id out of range or a
    device that cannot be created leaves nothing to undo. *)
Theorem create_remove_round_trip (ok ok' : bool) (pid : nat) (cm : ControllerManager) :
  get_controller pid cm = None ->
  let created := create_controller ok pid cm in
  let removed := remove_controller ok' pid created.1.2 in
  removed.1 = cm /\
  created.2 ++ removed.2 =
    (if (pid <? 1) || (MAX_CONTROLLERS <? pid) then []
     else if ok then [EvDeviceCreate pid true; EvDeviceReset pid ok'; EvDeviceDestroy pid]
     else [EvDeviceCreate pid false]).
Proof.
  intros Hfree created removed. subst removed created. unfold get_controller in Hfree.
  unfold create_controller, remove_controller.
  destruct ((pid <? 1) || (MAX_CONTROLLERS <? pid)); simpl; [by rewrite Hfree|].
  rewrite Hfree. unfold connect; simpl. destruct ok; simpl.
  - rewrite lookup_insert_eq. simpl. rewrite delete_insert_id by done.
    split; [by destruct cm|done].
  - by rewrite Hfree.
Qed.

Lemma create_remove_round_trip_witness :
  (remove_controller false 3
     (create_controller true 3 (controller_manager two_players)).1.2).1
  = controller_manager two_players.
Proof.
  destruct (create_remove_round_trip true false 3 (controller_manager two_players) eq_refl)
    as [Hcm _].
  exact Hcm.
Defined.

(** X16.  For a manager reached by such calls, [get_available_player_id]
    answers with a free id between 1 and MAX_CONTROLLERS below which every
    id has a controller, and answers [None] exactly when the manager holds
    MAX_CONTROLLERS controllers. *)
Theorem available_player_id_lowest (calls : list manager_call) :
  let cm := foldl run_manager_call Controller.empty calls in
  (forall i, get_available_player_id cm = Some i ->
     get_controller i cm = None /\ 1 <= i <= MAX_CONTROLLERS /\
     forall j, 1 <= j < i -> is_Some (get_controller j cm)) /\
  (get_available_player_id cm = None <-> get_connected_count cm = MAX_CONTROLLERS).
Proof.
  intros cm. pose proof (manager_ok_keys _ (manager_ok_run calls)) as Hkeys.
  fold cm in Hkeys.
  unfold get_available_player_id, get_controller, get_connected_count in *.
  split.
  - intros i Hf. apply find_seq_first in Hf as (Hi & Hr & Hlow).
    apply bool_decide_eq_true in Hi. unfold MAX_CONTROLLERS in *.
    split; [done|]. split; [lia|].
    intros j Hj. specialize (Hlow j Hj). apply bool_decide_eq_false in Hlow.
    by apply not_eq_None_Some.
  - destruct (slots_size (controllers cm) Hkeys) as [Hle Hfour].
    unfold MAX_CONTROLLERS in *. split.
    + intros Hf. assert (4 <= size (controllers cm)); [|lia].
      apply Hfour. intros j Hj.
      pose proof (find_seq_none _ _ _ Hf j ltac:(lia)) as Hn. simpl in Hn.
      apply bool_decide_eq_false in Hn. by apply not_eq_None_Some.
    + intros Hsize.
      destruct (List.find _ (seq 1 4)) as [i|] eqn:Hf; [|done].
      apply find_seq_first in Hf as (Hi & Hr & _). apply bool_decide_eq_true in Hi.
      destruct (proj1 Hfour ltac:(lia) i ltac:(lia)) as [c Hc]. congruence.
Qed.

(** ** A controller after disconnect *)

(** X17.  Disconnecting is final and happens once: the controller no longer
    counts as connected, it ignores every later snapshot, whatever it holds,
    and disconnecting it again reaches no device; at most one device is
    dropped. *)
Theorem disconnect_is_final (ok ok' ok'' : bool) (c : VirtualController)
    (buttons triggers axes : Json.value) :
  is_connected (disconnect ok c).1 = false /\
  update_state ok'' buttons triggers axes (disconnect ok c).1
    = ((disconnect ok c).1, [], Py.Returns) /\
  disconnect ok' (disconnect ok c).1 = ((disconnect ok c).1, []) /\
  releases (Controller.player_id c) (disconnect ok c).2
    = match gamepad c with Some _ => 1 | None => 0 end.
Proof.
  unfold disconnect. destruct (gamepad c); simpl; unfold releases; simpl;
    rewrite ?Nat.eqb_refl; done.
Qed.

(** ** Stopping the server *)

Lemma flat_disconnect_releases ok pid (l : list (nat * VirtualController)) :
  NoDup l.*1 ->
  (forall kv, kv ∈ l -> Controller.player_id kv.2 = kv.1 /\ is_connected kv.2 = true) ->
  releases pid (flat_map (fun kv => (disconnect ok kv.2).2) l)
    = if bool_decide (pid ∈ l.*1) then 1 else 0.
Proof.
  induction l as [|[k c] l IH]; intros Hnd Hall; [done|].
  simpl in Hnd. apply NoDup_cons in Hnd as [Hfresh Hnd].
  simpl. rewrite releases_app, IH; [|done|by intros kv Hkv; apply Hall; right].
  destruct (Hall (k, c) ltac:(left)) as [Hid Hcon]. simpl in *.
  unfold is_connected in Hcon. apply andb_true_iff in Hcon as [_ Hg].
  apply bool_decide_eq_true in Hg. unfold disconnect.
  destruct (gamepad c); [|done]. rewrite Hid. unfold releases; simpl.
  destruct (decide (k = pid)) as [->|Hne].
  - rewrite Nat.eqb_refl. simpl.
    rewrite (bool_decide_eq_false_2 (pid ∈ l.*1)) by done.
    by rewrite bool_decide_eq_true_2 by left.
  - apply Nat.eqb_neq in Hne as Hneb. rewrite Hneb. simpl.
    destruct (bool_decide (pid ∈ l.*1)) eqn:Hin.
    + apply bool_decide_eq_true in Hin. by rewrite bool_decide_eq_true_2 by (by right).
    + apply bool_decide_eq_false in Hin. rewrite bool_decide_eq_false_2; [done|].
      intros Hin'. apply elem_of_cons in Hin' as [->|Hin']; done.
Qed.

Lemma disconnect_all_releases ok pid cm :
  (forall k c, controllers cm !! k = Some c ->
     Controller.player_id c = k /\ is_connected c = true) ->
  releases pid (disconnect_all ok cm).2
    = match controllers cm !! pid with Some _ => 1 | None => 0 end.
Proof.
  intros Hok. unfold disconnect_all; simpl.
  rewrite flat_disconnect_releases; [|apply NoDup_fst_map_to_list|].
  - destruct (controllers cm !! pid) as [c|] eqn:Hpid.
    + rewrite bool_decide_eq_true_2; [done|].
      apply list_elem_of_fmap. exists (pid, c). split; [done|]. by apply elem_of_map_to_list.
    + rewrite bool_decide_eq_false_2; [done|].
      intros Hin. apply list_elem_of_fmap in Hin as ([k c] & -> & Hin).
      apply elem_of_map_to_list in Hin. simpl in Hpid. congruence.
  - intros [k c] Hkv. apply elem_of_map_to_list in Hkv. by apply Hok.
Qed.

Lemma disconnect_all_creations ok pid cm : creations pid (disconnect_all ok cm).2 = 0.
Proof.
  unfold disconnect_all; simpl.
  induction (map_to_list (controllers cm)) as [|[k c] l IH]; [done|].
  simpl. rewrite creations_app, IH. unfold disconnect. by destruct (gamepad c).
Qed.

Lemma stop_core w during p :
  Lifecycle.core (Lifecycle.stop w during p) =
  let before := if Lifecycle._server p then run (Lifecycle.core p) during
                else Lifecycle.core p in
  {| controller_manager := Controller.empty;
     session_manager := Session.empty;
     on_player_update := on_player_update before;
     _mouse_keyboard_controller := _mouse_keyboard_controller before;
     trace := trace before ++ (disconnect_all (device_ok w) (controller_manager before)).2 |}.
Proof. done. Qed.

Lemma accept_first observer mk tr w ws :
  (handle_client_accept w ws
     {| controller_manager := Controller.empty; session_manager := Session.empty;
        on_player_update := observer; _mouse_keyboard_controller := mk; trace := tr |}).1
  = (if send_ok w ws then Welcomed 1 else Aborted).
Proof.
  unfold handle_client_accept, add_player. simpl. rewrite lookup_empty.
  replace (_get_available_id Session.empty) with (Some 1) by (by vm_compute).
  simpl. unfold _on_player_connected, create_controller. simpl. rewrite lookup_empty.
  unfold connect. by destruct (device_ok w), (send_ok w ws).
Qed.

(** X18.  Stopping the server leaves nothing behind.  Whatever the handlers
    still did while [stop] waited for them, afterwards no session and no
    controller is left, each device that was still bound has been dropped
    exactly once, so that every device ever created has been released, the
    server no longer counts as running, and a connection accepted afterwards
    would be player 1 again.  Stopping once more changes nothing of this:
    no session, controller or device is touched; only the status observer,
    if there is one, is told "stopped" a second time. *)
Theorem stop_leaves_nothing_behind w during p pid w' ws :
  reachable (Lifecycle.core p) ->
  let before := if Lifecycle._server p then run (Lifecycle.core p) during
                else Lifecycle.core p in
  let after := Lifecycle.stop w during p in
  let again := Lifecycle.stop w' [] after in
  session_manager (Lifecycle.core after) = Session.empty /\
  controller_manager (Lifecycle.core after) = Controller.empty /\
  Lifecycle.is_running after = false /\
  releases pid (trace (Lifecycle.core after))
    = releases pid (trace before)
      + match get_controller pid (controller_manager before) with Some _ => 1 | None => 0 end /\
  creations pid (trace (Lifecycle.core after)) = releases pid (trace (Lifecycle.core after)) /\
  (handle_client_accept w' ws (Lifecycle.core after)).1
    = (if send_ok w' ws then Welcomed 1 else Aborted) /\
  Lifecycle.core again = Lifecycle.core after /\
  Lifecycle.is_running again = false /\
  Lifecycle._server again = Lifecycle._server after /\
  Lifecycle.statuses after = Lifecycle.tell "stopped" p /\
  Lifecycle.statuses again
    = (if Lifecycle.on_status_change p
       then Lifecycle.statuses after ++ ["stopped"] else Lifecycle.statuses after).
Proof.
  intros Hreach before after again.
  assert (reachable before) as Hrb.
  { unfold before. destruct (Lifecycle._server p); [by apply reachable_run|done]. }
  pose proof (reachable_consistent _ Hrb) as Hc.
  assert (releases pid (disconnect_all (device_ok w) (controller_manager before)).2
          = match controllers (controller_manager before) !! pid with
            | Some _ => 1 | None => 0 end) as Hrel.
  { apply disconnect_all_releases. intros k c Hk.
    by destruct (inv_controller _ Hc _ _ Hk) as (_ & ? & ?). }
  pose proof (stop_core w during p) as Hcore. fold before after in Hcore.
  split; [by rewrite Hcore|]. split; [by rewrite Hcore|]. split; [done|].
  assert (trace (Lifecycle.core after)
          = trace before ++ (disconnect_all (device_ok w) (controller_manager before)).2)
    as Htr by (by rewrite Hcore).
  unfold get_controller.
  split; [by rewrite Htr, releases_app, Hrel|]. split.
  { rewrite Htr, creations_app, releases_app, Hrel, disconnect_all_creations.
    rewrite (device_accounting _ pid Hrb). lia. }
  split; [rewrite Hcore; apply accept_first|].
  split.
  { subst again. rewrite (stop_core w' [] after), Hcore.
    destruct (Lifecycle._server after); simpl;
      unfold disconnect_all; simpl; by rewrite map_to_list_empty, app_nil_r. }
  split; [done|]. split; [done|]. split; [done|].
  subst again after. unfold Lifecycle.stop, Lifecycle.tell. simpl.
  by destruct (Lifecycle.on_status_change p).
Qed.

Lemma stop_leaves_nothing_behind_witness :
  session_manager (Lifecycle.core (Lifecycle.stop calm busy_evening serving)) = Session.empty /\
  releases 1 (trace (Lifecycle.core (Lifecycle.stop calm busy_evening serving))) = 1 /\
  creations 1 (trace (Lifecycle.core (Lifecycle.stop calm busy_evening serving))) = 1 /\
  Lifecycle.statuses (Lifecycle.stop calm busy_evening serving) = ["running"; "stopped"] /\
  Lifecycle.statuses (Lifecycle.stop calm [] (Lifecycle.stop calm busy_evening serving))
    = ["running"; "stopped"; "stopped"].
Proof.
  assert (reachable (Lifecycle.core serving)) as Hreach
    by (apply (reachable_run (init false)); constructor).
  destruct (stop_leaves_nothing_behind calm busy_evening serving 1 calm 12 Hreach)
    as (Hsm & _ & _ & Hrel & Hcre & _ & _ & _ & _ & Hst & Hagain).
  split; [exact Hsm|]. split; [rewrite Hrel; reflexivity|].
  split; [rewrite Hcre, Hrel; reflexivity|].
  split; [rewrite Hst; reflexivity|]. rewrite Hagain, Hst. reflexivity.
Defined.

(** ** The mouse buttons *)

(** X19.  Pressing a button that is up and releasing it again is a round
    trip: one press and one release reach the host, and the tracked flags
    and the host are back where they were. *)
Theorem press_release_round_trip (button : Json.value) (mk : MouseKeyboardController) :
  button = Json.Str "left" \/ button = Json.Str "right" ->
  in_sync mk ->
  tracked (to_button button) mk = false ->
  (press_mouse button mk).2 = [EvMousePress (to_button button)] /\
  (release_mouse button (press_mouse button mk).1).2 = [EvMouseRelease (to_button button)] /\
  (release_mouse button (press_mouse button mk).1).1 = mk.
Proof.
  intros Hname [Hl Hr] Hup. destruct mk as [[hl hr] l r]. simpl in *. subst hl hr.
  destruct Hname as [-> | ->]; simpl in Hup; subst;
    unfold press_mouse, release_mouse; simpl; done.
Qed.

Lemma press_release_round_trip_witness :
  (release_mouse (Json.Str "right")
     (press_mouse (Json.Str "right") MouseKeyboard.init).1).1 = MouseKeyboard.init.
Proof.
  destruct (press_release_round_trip (Json.Str "right") MouseKeyboard.init)
    as (_ & _ & Hback).
  - by right.
  - by split.
  - reflexivity.
  - exact Hback.
Defined.

(** X20.  A click goes past the tracking: it leaves both tracked flags as
    they are and leaves the clicked button up on the host.  Clicking a
    button that is tracked as pressed therefore ends the hold on the host
    while the flag stays set, and the tracked state no longer matches the
    host. *)
Theorem click_goes_past_tracking (button : Json.value) (mk : MouseKeyboardController) :
  in_sync mk ->
  tracked (to_button button) mk = true ->
  tracked (to_button button) (click button mk).1 = true /\
  left_button_pressed (click button mk).1 = left_button_pressed mk /\
  right_button_pressed (click button mk).1 = right_button_pressed mk /\
  held (to_button button) (mouse (click button mk).1) = false /\
  ~ in_sync (click button mk).1.
Proof.
  intros [Hl Hr] Hdown. destruct mk as [[hl hr] l r]. simpl in *. subst hl hr.
  unfold click, in_sync. simpl.
  destruct (to_button button); simpl in *; subst; repeat split; try done;
    intros [? ?]; simpl in *; congruence.
Qed.

Lemma click_goes_past_tracking_witness :
  held Button_left
    (mouse (click (Json.Str "left")
              (press_mouse (Json.Str "left") MouseKeyboard.init).1).1) = false /\
  left_button_pressed
    (click (Json.Str "left") (press_mouse (Json.Str "left") MouseKeyboard.init).1).1 = true.
Proof.
  destruct (click_goes_past_tracking (Json.Str "left")
              (press_mouse (Json.Str "left") MouseKeyboard.init).1)
    as (Hflag & _ & _ & Hup & _).
  - by split.
  - reflexivity.
  - split; [exact Hup|exact Hflag].
Defined.

(** X21.  Button names other than "left": a click takes every one of them,
    and whatever else the message gives as its button, for the right
    button, while pressing and releasing only know "right" and do nothing
    for anything else. *)
Theorem other_button_names (button : Json.value) (mk : MouseKeyboardController) :
  button <> Json.Str "left" ->
  (click button mk).2 = [EvMouseClick Button_right] /\
  (button <> Json.Str "right" ->
   press_mouse button mk = (mk, []) /\ release_mouse button mk = (mk, [])).
Proof.
  intros Hleft. apply eqb_str_other in Hleft.
  unfold click, press_mouse, release_mouse, to_button. rewrite Hleft. simpl.
  split; [done|]. intros Hright. apply eqb_str_other in Hright. by rewrite Hright.
Qed.

Lemma other_button_names_witness :
  (click (Json.Str "middle") MouseKeyboard.init).2 = [EvMouseClick Button_right] /\
  press_mouse (Json.Str "middle") MouseKeyboard.init = (MouseKeyboard.init, []) /\
  (click (Json.Num (Py.Fin 1)) MouseKeyboard.init).2 = [EvMouseClick Button_right].
Proof.
  destruct (other_button_names (Json.Str "middle") MouseKeyboard.init ltac:(discriminate))
    as [Hclick Hpress].
  destruct (other_button_names (Json.Num (Py.Fin 1)) MouseKeyboard.init ltac:(discriminate))
    as [Hnumber _].
  split; [exact Hclick|]. split; [by destruct (Hpress ltac:(discriminate))|exact Hnumber].
Defined.

(** ** The keyboard *)

Lemma held_after_app held evs1 evs2 :
  held_after held (evs1 ++ evs2) = held_after (held_after held evs1) evs2.
Proof. unfold held_after. apply foldl_app. Qed.

Lemma pressed_in_app evs1 evs2 k :
  pressed_in (evs1 ++ evs2) k = pressed_in evs1 k || pressed_in evs2 k.
Proof. unfold pressed_in. apply existsb_app. Qed.

Lemma pressed_in_cons e evs k :
  pressed_in (e :: evs) k
  = match e with
    | EvKeyPress k' => bool_decide (k' = k)
    | _ => false
    end || pressed_in evs k.
Proof. done. Qed.

Lemma held_after_cons held e evs :
  held_after held (e :: evs) = held_after (key_step held e) evs.
Proof. done. Qed.

Lemma pressed_in_presses (ms : list Key) k :
  pressed_in ((fun m => EvKeyPress (Special m)) <$> ms) k
  = bool_decide (k ∈ Special <$> ms).
Proof.
  induction ms as [|m ms IH]; [done|].
  rewrite !fmap_cons, pressed_in_cons, IH.
  destruct (decide (Special m = k)) as [<-|Hne].
  - rewrite bool_decide_eq_true_2 by done. simpl. by rewrite bool_decide_eq_true_2 by left.
  - rewrite bool_decide_eq_false_2 by done. simpl.
    apply bool_decide_ext. split; [by right|].
    intros Hin. apply elem_of_cons in Hin as [?|?]; [congruence|done].
Qed.

Lemma pressed_in_releases (ms : list Key) k :
  pressed_in ((fun m => EvKeyRelease (Special m)) <$> ms) k = false.
Proof.
  induction ms as [|m ms IH]; [done|]. by rewrite fmap_cons, pressed_in_cons, IH.
Qed.

Lemma held_after_presses held (ms : list Key) k :
  held_after held ((fun m => EvKeyPress (Special m)) <$> ms) k
  = bool_decide (k ∈ Special <$> ms) || held k.
Proof.
  revert held. induction ms as [|m ms IH]; intros held; [done|].
  rewrite !fmap_cons, held_after_cons, IH. simpl.
  destruct (decide (k = Special m)) as [->|Hne].
  - rewrite (bool_decide_eq_true_2 (_ ∈ _ :: _)) by left. apply orb_true_r.
  - f_equal. apply bool_decide_ext. split; [by right|].
    intros Hin. apply elem_of_cons in Hin as [?|?]; done.
Qed.

Lemma held_after_releases held (ms : list Key) k :
  held_after held ((fun m => EvKeyRelease (Special m)) <$> ms) k
  = if bool_decide (k ∈ Special <$> ms) then false else held k.
Proof.
  revert held. induction ms as [|m ms IH]; intros held; [done|].
  rewrite !fmap_cons, held_after_cons, IH. simpl.
  destruct (bool_decide (k ∈ Special <$> ms)) eqn:Hin.
  - apply bool_decide_eq_true in Hin. by rewrite bool_decide_eq_true_2 by (by right).
  - apply bool_decide_eq_false in Hin.
    destruct (decide (k = Special m)) as [->|Hne].
    + by rewrite bool_decide_eq_true_2 by left.
    + rewrite bool_decide_eq_false_2; [done|].
      intros Hin'. apply elem_of_cons in Hin' as [?|?]; done.
Qed.

Lemma held_after_struck held evs k :
  struck evs ->
  held_after held evs k = if pressed_in evs k then false else held k.
Proof.
  intros [-> | [x ->]]; [done|]. unfold held_after, pressed_in. simpl.
  destruct (decide (k = x)) as [->|Hne].
  - by rewrite bool_decide_eq_true_2.
  - rewrite bool_decide_eq_false_2 by congruence. done.
Qed.

(** A prefix of a key struck, short of the whole: nothing, or the key down. *)
Lemma held_after_struck_cut held evs n k :
  struck evs -> n < length evs ->
  held_after held (take n evs) k = pressed_in (take n evs) k || held k.
Proof.
  intros [-> | [x ->]] Hn; simpl in Hn; [lia|].
  destruct n as [|[|n]]; [done| |lia].
  unfold held_after, pressed_in. simpl.
  destruct (decide (k = x)) as [->|Hne].
  - by rewrite bool_decide_eq_true_2.
  - by rewrite bool_decide_eq_false_2 by congruence.
Qed.

(** The sequences with no last item. *)
Lemma sequence_empty keys items :
  sequence keys = Some items -> last items = None ->
  keys = Json.Arr [] \/ keys = Json.Str "".
Proof.
  intros Hseq Hlast. apply last_None in Hlast. subst items.
  destruct keys as [| | |s|items|]; try discriminate; simpl in Hseq.
  - right. injection Hseq as Hchars. apply fmap_nil_inv in Hchars.
    unfold Py.chars in Hchars. destruct s as [|c s]; [done|]. simpl in Hchars.
    destruct (Py.split s) as [p l]. by destruct (Py.is_continuation c).
  - left. by injection Hseq as ->.
Qed.

(** [key_combination] fails on [keys[-1]] exactly for the empty list and the
    empty string, and has touched no key then. *)
Lemma key_combination_index_error lower keys mk :
  (key_combination lower keys mk).2 = Py.Raises Py.IndexError <->
  keys = Json.Arr [] \/ keys = Json.Str "".
Proof.
  split; [|by intros [-> | ->]].
  unfold key_combination. destruct (sequence keys) as [items|] eqn:Hseq; [|done].
  destruct (press_modifiers lower (removelast items) [] []) as (ms & o & -> & Ho).
  destruct Ho as [-> | ->]; [|done].
  destruct (last items) as [final_key|] eqn:Hlast; [|intros _; by eapply sequence_empty].
  destruct (strike lower combination_key_map final_key) as [final|e] eqn:Hfinal; [done|].
  apply strike_raised in Hfinal. by subst.
Qed.

(** X22.  What [press_key] and [key_combination] leave on the keyboard.
    When the call returns, every key it pressed is up again and every other
    key is as it was.  There is no [try] in either: when [key_combination]
    is stopped by a key that is no string, every key it pressed so far stays
    down, and so does the key of [press_key] when its second call into
    pynput raises.  [key_combination] fails on [keys[-1]], before touching
    any key, exactly on the empty list and the empty string. *)
Theorem keys_held_after_keyboard_call (lower : string -> string) (keys name : Json.value)
    (calls : option nat) (mk : MouseKeyboardController) (held : key -> bool) (k : key) :
  let combo := key_combination lower keys mk in
  let combo_cut := interrupted calls mk combo in
  let single_cut := interrupted calls mk (press_key lower name mk) in
  (combo.2 = Py.Raises Py.IndexError <-> keys = Json.Arr [] \/ keys = Json.Str "") /\
  (combo.2 = Py.Raises Py.IndexError -> combo.1.2 = []) /\
  (combo_cut.2 = Py.Returns ->
   held_after held combo_cut.1.2 k = if pressed_in combo_cut.1.2 k then false else held k) /\
  (forall e, combo.2 = Py.Raises e ->
   held_after held combo.1.2 k = pressed_in combo.1.2 k || held k) /\
  (single_cut.2 = Py.Returns ->
   held_after held single_cut.1.2 k
   = if pressed_in single_cut.1.2 k then false else held k) /\
  (forall e, single_cut.2 = Py.Raises e ->
   held_after held single_cut.1.2 k = pressed_in single_cut.1.2 k || held k).
Proof.
  intros combo combo_cut single_cut.
  assert (combo.2 = Py.Returns ->
          held_after held combo.1.2 k = if pressed_in combo.1.2 k then false else held k)
    as Hreturned.
  { subst combo. destruct (key_combination_shape lower keys mk) as (_ & ms & Hshape).
    intros Hret. rewrite Hret in Hshape. destruct Hshape as (final & Hfinal & ->).
    rewrite !held_after_app, !pressed_in_app, pressed_in_releases, orb_false_r.
    rewrite held_after_releases, (held_after_struck _ _ _ Hfinal), held_after_presses.
    rewrite pressed_in_presses.
    rewrite (bool_decide_ext (k ∈ Special <$> rev ms) (k ∈ Special <$> ms)).
    2:{ rewrite !list_elem_of_fmap. split; intros (m & -> & Hm); exists m;
          (split; [done|]); apply list_elem_of_In; apply list_elem_of_In in Hm;
          [by apply in_rev|by apply in_rev in Hm]. }
    destruct (bool_decide (k ∈ Special <$> ms)); [done|].
    simpl. by destruct (pressed_in final k). }
  split; [apply key_combination_index_error|]. split.
  { subst combo. intros Hidx. apply key_combination_index_error in Hidx.
    by destruct Hidx as [-> | ->]. }
  split.
  { subst combo_cut.
    destruct (interrupted_cases calls mk combo) as [-> | (n & _ & _ & ->)]; done. }
  split.
  { subst combo. intros e He.
    destruct (key_combination_shape lower keys mk) as (_ & ms & Hshape).
    rewrite He in Hshape. destruct Hshape as [-> _].
    by rewrite held_after_presses, pressed_in_presses. }
  destruct (press_key_shape lower name mk) as (_ & Hshape).
  split.
  - subst single_cut.
    destruct (interrupted_cases calls mk (press_key lower name mk))
      as [-> | (n & _ & _ & ->)]; [|done].
    intros Hret. rewrite Hret in Hshape. by apply held_after_struck.
  - subst single_cut. intros e.
    destruct (interrupted_cases calls mk (press_key lower name mk))
      as [-> | (n & _ & Hn & ->)].
    + intros He. rewrite He in Hshape. by destruct Hshape as [-> _].
    + intros _. simpl. destruct (press_key lower name mk).2 as [|e'].
      * by apply held_after_struck_cut.
      * destruct Hshape as [Hnil _]. rewrite Hnil in Hn. simpl in Hn. lia.
Qed.

(** Ctrl+Shift+C: the modifiers go down in order, the letter is struck, the
    modifiers come up in reverse order; a name that is no modifier is
    skipped on the way. *)
Example control_shift_c :
  key_combination Py.lower
    (Json.Arr [Json.Str "Ctrl"; Json.Str "x"; Json.Str "SHIFT"; Json.Str "c"])
    MouseKeyboard.init
  = (MouseKeyboard.init,
     [EvKeyPress (Special Key_ctrl); EvKeyPress (Special Key_shift);
      EvKeyPress (Character "c"); EvKeyRelease (Character "c");
      EvKeyRelease (Special Key_shift); EvKeyRelease (Special Key_ctrl)],
     Py.Returns).
Proof. by vm_compute. Qed.

(** A number among the keys stops the combination with the modifiers down,
    and so does a call into pynput that raises. *)
Example stuck_modifiers :
  key_combination Py.lower
    (Json.Arr [Json.Str "ctrl"; Json.Str "shift"; Json.Num (Py.Fin 5); Json.Str "c"])
    MouseKeyboard.init
  = (MouseKeyboard.init,
     [EvKeyPress (Special Key_ctrl); EvKeyPress (Special Key_shift)],
     Py.Raises Py.AttributeError) /\
  interrupted (Some 2) MouseKeyboard.init
    (key_combination Py.lower (Json.Arr [Json.Str "ctrl"; Json.Str "c"]) MouseKeyboard.init)
  = (MouseKeyboard.init,
     [EvKeyPress (Special Key_ctrl); EvKeyPress (Character "c")],
     Py.Raises Py.External) /\
  held_after (fun _ => false) [EvKeyPress (Special Key_ctrl); EvKeyPress (Special Key_shift)]
             (Special Key_ctrl) = true /\
  (fun s => (trace s, last_input_at <$> get_session 1 (session_manager s)))
    (_process_message later 1
       (Json (Json.Obj (combo_message [Json.Str "ctrl"; Json.Num (Py.Fin 5)]))) one_player)
  = (trace one_player ++ [EvKeyPress (Special Key_ctrl)], Some 100).
Proof. repeat split; by vm_compute. Qed.

(** A string in place of the list of keys is a sequence of characters: its
    last character is struck.  One character that takes two bytes is one
    character. *)
Example string_of_keys :
  (key_combination Py.lower (Json.Str "abc") MouseKeyboard.init).1.2
  = [EvKeyPress (Character "c"); EvKeyRelease (Character "c")] /\
  (press_key Py.lower (Json.Str "é") MouseKeyboard.init).1.2
  = [EvKeyPress (Character "é"); EvKeyRelease (Character "é")] /\
  (press_key Py.lower (Json.Str "ab") MouseKeyboard.init).1.2 = [] /\
  (press_key Py.lower (Json.Str "ENTER") MouseKeyboard.init).1.2
  = [EvKeyPress (Special Key_enter); EvKeyRelease (Special Key_enter)].
Proof. repeat split; by vm_compute. Qed.

(** X23.  The server never asks for an empty key combination: a keyboard
    message makes it call [key_combination] only with keys that are truthy;
    truthy keys that are a list or a string have a last key, and the call
    fails on [keys[-1]] only for keys that are not truthy.  So handling a
    keyboard message never ends in that [IndexError], whatever the message
    holds and whichever call into pynput raises. *)
Theorem no_empty_combination (lower : string -> string) (data : Data)
    (mk : MouseKeyboardController) (calls : option nat) (keys : Json.value) :
  (default (Json.Str "") (data !! "action") = Json.Str "combo" ->
   keyboard_action data mk
   = if Json.truthy (default (Json.Arr []) (data !! "keys"))
     then key_combination Py.lower (default (Json.Arr []) (data !! "keys")) mk
     else (mk, [], Py.Returns)) /\
  (Json.truthy keys = true ->
   forall items, sequence keys = Some items -> is_Some (last items)) /\
  ((key_combination lower keys mk).2 = Py.Raises Py.IndexError -> Json.truthy keys = false) /\
  (keyboard_action data mk).2 <> Py.Raises Py.IndexError /\
  (interrupted calls mk (keyboard_action data mk)).2 <> Py.Raises Py.IndexError.
Proof.
  split; [intros Haction; unfold keyboard_action; by rewrite Haction|].
  split.
  { intros Htruthy items Hseq. destruct (last items) eqn:Hlast; [by eexists|].
    destruct (sequence_empty keys items Hseq Hlast) as [-> | ->]; done. }
  assert (forall lower keys, (key_combination lower keys mk).2 = Py.Raises Py.IndexError ->
                             Json.truthy keys = false) as Hfalsy.
  { intros lower' keys' Hidx. apply key_combination_index_error in Hidx.
    by destruct Hidx as [-> | ->]. }
  assert ((keyboard_action data mk).2 <> Py.Raises Py.IndexError) as Haction.
  { unfold keyboard_action.
    destruct (Json.eqb_str _ "type"); [done|].
    destruct (Json.eqb_str _ "key").
    { destruct (press_key_shape Py.lower (default (Json.Str "") (data !! "key")) mk)
        as (_ & Hshape).
      unfold press_key in *.
      destruct (strike Py.lower press_key_map _) as [evs|e] eqn:Hs; [done|].
      apply strike_raised in Hs. by subst. }
    destruct (Json.eqb_str _ "combo"); [|done].
    destruct (Json.truthy _) eqn:Htruthy; [|done].
    intros Hidx. apply Hfalsy in Hidx. congruence. }
  split; [apply Hfalsy|]. split; [done|].
  by destruct (interrupted_cases calls mk (keyboard_action data mk))
    as [-> | (n & _ & _ & ->)].
Qed.

(** ** Addresses and the cached code *)

(** X24.  [get_all_local_ips] never answers with an empty list, and what it
    lists is either the fallback address or a non-empty address of an
    interface that does not start with "127.". *)
Theorem local_ips_never_empty (local_ip : string) (s : Pairing.scan) :
  Pairing.get_all_local_ips local_ip s <> [] /\
  forall ip, ip ∈ Pairing.get_all_local_ips local_ip s ->
    ip = local_ip \/
    (ip <> "" /\ String.prefix "127." ip = false /\
     exists interfaces raised,
       s = Pairing.Scanned interfaces raised /\ Some ip ∈ concat interfaces).
Proof.
  unfold Pairing.get_all_local_ips.
  assert (forall interfaces ip,
            ip ∈ omap Pairing.usable (concat interfaces) ->
            ip <> "" /\ String.prefix "127." ip = false /\ Some ip ∈ concat interfaces) as Hscan.
  { intros interfaces ip Hin. apply list_elem_of_omap in Hin as (addr & Haddr & Huse).
    unfold Pairing.usable in Huse. destruct addr as [a|]; [|done].
    destruct (negb (String.eqb a "") && negb (String.prefix "127." a)) eqn:Hok; [|done].
    injection Huse as ->. apply andb_true_iff in Hok as [H1 H2].
    apply negb_true_iff in H1, H2. apply String.eqb_neq in H1. done. }
  destruct s as [|interfaces raised].
  { split; [done|]. intros ip Hin. left. by apply list_elem_of_singleton in Hin. }
  destruct (omap Pairing.usable (concat interfaces) ++ (if raised then [local_ip] else []))
    as [|first rest] eqn:Hips.
  { split; [done|]. intros ip Hin. left. by apply list_elem_of_singleton in Hin. }
  split; [done|]. rewrite <- Hips. intros ip Hin.
  apply elem_of_app in Hin as [Hin|Hin].
  - right. destruct (Hscan _ _ Hin) as (? & ? & ?). eauto 6.
  - left. destruct raised; [by apply list_elem_of_singleton in Hin|by apply elem_of_nil in Hin].
Qed.

Section Codes.
Context {Image : Type}.
Variable generate_qr_code : string -> nat -> Image.

Lemma coherent_call (m : Pairing.QRCodeManager) (c : Pairing.qr_call) :
  c.1.2 = true ->
  Pairing.coherent generate_qr_code m ->
  Pairing.coherent generate_qr_code (Pairing.run_qr generate_qr_code m c) /\
  Pairing.port (Pairing.run_qr generate_qr_code m c) = Pairing.port m.
Proof.
  destruct c as [[ip made] force]. simpl. intros -> Hm.
  unfold Pairing.run_qr, Pairing.get_qr_image. simpl.
  destruct (force || negb (bool_decide (Pairing._cached_ip m = Some ip))
            || match Pairing._cached_image m with None => true | Some _ => false end);
    simpl; [|done].
  split; [|done]. intros image [= <-]. by exists ip.
Qed.

(** X25.  As long as no image failed to be made, the cached QR code is the
    code of the current address: after any such calls, a call returns the
    image made for the address it was called with and the port of the
    manager, whether it refreshes or answers from the cache. *)
Theorem qr_code_is_current (port : nat) (calls : list Pairing.qr_call)
    (current_ip : string) (force_refresh : bool) :
  Forall (fun c : Pairing.qr_call => c.1.2 = true) calls ->
  let m := foldl (Pairing.run_qr generate_qr_code) (Pairing.new_manager port) calls in
  let r := Pairing.get_qr_image generate_qr_code current_ip true force_refresh m in
  r.1 = true /\
  Pairing._cached_image r.2 = Some (generate_qr_code current_ip port) /\
  Pairing._cached_ip r.2 = Some current_ip.
Proof.
  intros Hmade m r.
  assert (Pairing.coherent generate_qr_code m /\ Pairing.port m = port) as [Hm Hport].
  { subst m. clear r.
    assert (forall m0, Pairing.coherent generate_qr_code m0 ->
              Pairing.coherent generate_qr_code (foldl (Pairing.run_qr generate_qr_code) m0 calls) /\
              Pairing.port (foldl (Pairing.run_qr generate_qr_code) m0 calls) = Pairing.port m0)
      as Hall.
    { induction Hmade as [|c calls Hc _ IH]; intros m0 Hm0; simpl; [done|].
      destruct (coherent_call m0 c Hc Hm0) as [Hm1 Hp1].
      destruct (IH _ Hm1) as [Hm2 Hp2]. split; [done|congruence]. }
    apply Hall. intros image Himg. done. }
  subst r. unfold Pairing.get_qr_image.
  destruct (Pairing._cached_image m) as [image|] eqn:Himg; simpl.
  - destruct (Hm image Himg) as (ip & Hip & ->).
    destruct force_refresh; simpl; [by rewrite Hport|].
    destruct (decide (Pairing._cached_ip m = Some current_ip)) as [Heq|Hne].
    + rewrite bool_decide_eq_true_2 by done. simpl.
      rewrite Himg, Heq. split; [done|]. split; [|done]. congruence.
    + rewrite bool_decide_eq_false_2 by done. simpl. by rewrite Hport.
  - rewrite orb_true_r. simpl. by rewrite Hport.
Qed.

End Codes.

Lemma qr_code_is_current_witness :
  Pairing._cached_image
    (Pairing.get_qr_image (fun ip port => (ip, port)) "192.168.1.20" true false
       (foldl (Pairing.run_qr (fun ip port => (ip, port))) (Pairing.new_manager 4000)
              [("192.168.1.7", true, false); ("192.168.1.20", true, true)])).2
  = Some ("192.168.1.20", 4000).
Proof.
  destruct (qr_code_is_current (fun ip port => (ip, port)) 4000
              [("192.168.1.7", true, false); ("192.168.1.20", true, true)]
              "192.168.1.20" false) as (_ & Himg & _).
  - repeat constructor.
  - exact Himg.
Defined.

(** One failed generation is enough to leave a stale code behind: the
    address is recorded before the image is made, so the next call finds the
    new address in the cache and answers with the image of the old one. *)
Example stale_code_after_failure :
  Pairing._cached_image
    (Pairing.get_qr_image (fun ip port => (ip, port)) "192.168.1.20" true false
       (foldl (Pairing.run_qr (fun ip port => (ip, port))) (Pairing.new_manager 4000)
              [("192.168.1.7", true, false); ("192.168.1.20", false, false)])).2
  = Some ("192.168.1.7", 4000).
Proof. reflexivity. Qed.
